(** * Text overlay: scheduling of text buffers against video frames

    A shallow embedding of the synchronisation core of the base text
    overlay element (the [gst_base_text_overlay_*] functions): the
    single-slot rendezvous between the text chain function and the video
    chain function, the flush / end-of-stream event handlers, the render
    cache guarded by [need_render], and the placement computed by
    [gst_base_text_overlay_get_pos].

    The element lock is held over each critical section of the C code, so a
    chain function is embedded as the sequence of its critical sections:
    a function runs from one lock acquisition up to the point where the
    thread returns, parks in [g_cond_wait], or jumps back to its retry
    label.  Everything a critical section does besides updating the
    element (broadcasts on the condition variable, buffers pushed
    downstream, buffers released, rasteriser invocations) is recorded in a
    list of events. *)

From Stdlib Require Import ZArith List Bool Lia String Ascii.
Import ListNotations.
Local Open Scope Z_scope.

(** ** Machine integers and clock times *)

Definition G_MAXUINT64 : Z := 2 ^ 64 - 1.

(** [guint64] arithmetic wraps modulo 2^64. *)
Definition wrap64 (x : Z) : Z := x mod 2 ^ 64.

(** [gint] arithmetic, two's complement on 32 bits. *)
Definition wrap32 (x : Z) : Z := (x + 2 ^ 31) mod 2 ^ 32 - 2 ^ 31.

Definition GST_CLOCK_TIME_NONE : Z := G_MAXUINT64.
Definition GST_SECOND : Z := 1000000000.

Definition GST_CLOCK_TIME_IS_VALID (t : Z) : bool :=
  negb (t =? GST_CLOCK_TIME_NONE).

(** [CLAMP (x, low, high)] of glib:
    [((x) > (high)) ? (high) : (((x) < (low)) ? (low) : (x))]. *)
Definition CLAMP (x low high : Z) : Z :=
  if high <? x then high else if x <? low then low else x.

(** ** Buffers *)

Record GstBuffer : Type := {
  pts : Z;              (* GST_BUFFER_TIMESTAMP, a guint64 *)
  duration : Z;         (* GST_BUFFER_DURATION, a guint64 *)
  data : string         (* the mapped bytes *)
}.

Definition GST_BUFFER_TIMESTAMP_IS_VALID (b : GstBuffer) : bool :=
  GST_CLOCK_TIME_IS_VALID (pts b).
Definition GST_BUFFER_DURATION_IS_VALID (b : GstBuffer) : bool :=
  GST_CLOCK_TIME_IS_VALID (duration b).

Definition set_pts (v : Z) (b : GstBuffer) : GstBuffer :=
  {| pts := v; duration := duration b; data := data b |}.
Definition set_duration (v : Z) (b : GstBuffer) : GstBuffer :=
  {| pts := pts b; duration := v; data := data b |}.

Inductive GstFlowReturn : Type :=
| GST_FLOW_OK
| GST_FLOW_NOT_LINKED
| GST_FLOW_FLUSHING
| GST_FLOW_EOS
| GST_FLOW_NOT_NEGOTIATED
| GST_FLOW_ERROR.

Inductive GstFormat : Type :=
| GST_FORMAT_UNDEFINED
| GST_FORMAT_DEFAULT
| GST_FORMAT_BYTES
| GST_FORMAT_TIME
| GST_FORMAT_BUFFERS
| GST_FORMAT_PERCENT.

Definition GstFormat_eqb (a b : GstFormat) : bool :=
  match a, b with
  | GST_FORMAT_UNDEFINED, GST_FORMAT_UNDEFINED
  | GST_FORMAT_DEFAULT, GST_FORMAT_DEFAULT
  | GST_FORMAT_BYTES, GST_FORMAT_BYTES
  | GST_FORMAT_TIME, GST_FORMAT_TIME
  | GST_FORMAT_BUFFERS, GST_FORMAT_BUFFERS
  | GST_FORMAT_PERCENT, GST_FORMAT_PERCENT => true
  | _, _ => false
  end.

Inductive GstStateChange : Type :=
| GST_STATE_CHANGE_READY_TO_PAUSED
| GST_STATE_CHANGE_PAUSED_TO_READY
| GST_STATE_CHANGE_OTHER.

(** ** Alignment and wrapping enumerations

    The default branches of the C switches are reached by any enum value
    that is not one of the named cases; the [_OTHER] constructors stand for
    those values. *)

Inductive GstBaseTextOverlayHAlign : Type :=
| GST_BASE_TEXT_OVERLAY_HALIGN_LEFT
| GST_BASE_TEXT_OVERLAY_HALIGN_CENTER
| GST_BASE_TEXT_OVERLAY_HALIGN_RIGHT
| GST_BASE_TEXT_OVERLAY_HALIGN_POS
| GST_BASE_TEXT_OVERLAY_HALIGN_OTHER.

Inductive GstBaseTextOverlayVAlign : Type :=
| GST_BASE_TEXT_OVERLAY_VALIGN_BASELINE
| GST_BASE_TEXT_OVERLAY_VALIGN_BOTTOM
| GST_BASE_TEXT_OVERLAY_VALIGN_TOP
| GST_BASE_TEXT_OVERLAY_VALIGN_POS
| GST_BASE_TEXT_OVERLAY_VALIGN_CENTER
| GST_BASE_TEXT_OVERLAY_VALIGN_OTHER.

Inductive GstBaseTextOverlayWrapMode : Type :=
| GST_BASE_TEXT_OVERLAY_WRAP_MODE_NONE
| GST_BASE_TEXT_OVERLAY_WRAP_MODE_WORD
| GST_BASE_TEXT_OVERLAY_WRAP_MODE_CHAR
| GST_BASE_TEXT_OVERLAY_WRAP_MODE_WORD_CHAR.

Inductive GstBaseTextOverlayLineAlign : Type :=
| GST_BASE_TEXT_OVERLAY_LINE_ALIGN_LEFT
| GST_BASE_TEXT_OVERLAY_LINE_ALIGN_CENTER
| GST_BASE_TEXT_OVERLAY_LINE_ALIGN_RIGHT.

(** ** Types owned by the libraries the element is built on

    Doubles, Pango layouts and pixel buffers are only handed around by the
    code embedded here; they are kept abstract. *)

Class Platform : Type := {
  gdouble : Type;
  PangoLayout : Type;
  Image : Type
}.

Section Element.

Context {P : Platform}.

Record GstSegment : Type := {
  seg_format : GstFormat;
  seg_rate : gdouble;
  seg_start : Z;
  seg_stop : Z;
  seg_time : Z;
  seg_position : Z;
  seg_base : Z;
  seg_offset : Z;
  seg_duration : Z
}.

Definition set_seg_position (v : Z) (s : GstSegment) : GstSegment :=
  {| seg_format := seg_format s; seg_rate := seg_rate s;
     seg_start := seg_start s; seg_stop := seg_stop s;
     seg_time := seg_time s; seg_position := v; seg_base := seg_base s;
     seg_offset := seg_offset s; seg_duration := seg_duration s |}.

(** The overlay rectangle handed to the compositor: the rendered image and
    where it is placed. *)
Record Composition : Type := {
  comp_image : Image;
  comp_x : Z;
  comp_y : Z;
  comp_width : Z;
  comp_height : Z
}.

(** ** The element

    [GstBaseTextOverlay], with the fields the functions below read and
    write, grouped by role: the pending text buffer and the two segments,
    the synchronisation flags, the properties, the render cache and the
    negotiated video size and frame rate.  The shadow and outline offsets
    and the Pango layout are read by the rasteriser only and travel
    together as [layout]. *)

Record Flags : Type := {
  video_flushing : bool;
  video_eos : bool;
  text_flushing : bool;
  text_eos : bool;
  text_linked : bool;
  have_pango_markup : bool;
  attach_compo_to_buffer : bool
}.

Record Props : Type := {
  default_text : option string;
  want_shading : bool;
  shading_value : Z;
  halign : GstBaseTextOverlayHAlign;
  valign : GstBaseTextOverlayVAlign;
  xpad : Z;
  ypad : Z;
  deltax : Z;
  deltay : Z;
  xpos : gdouble;
  ypos : gdouble;
  wrap_mode : GstBaseTextOverlayWrapMode;
  silent : bool;
  line_align : GstBaseTextOverlayLineAlign;
  wait_text : bool;
  auto_adjust_size : bool;
  use_vertical_render : bool;
  color : Z;
  outline_color : Z;
  layout : PangoLayout
}.

Record RenderCache : Type := {
  need_render : bool;
  text_image : option Image;
  image_width : Z;
  image_height : Z;
  baseline_y : Z;
  composition : option Composition
}.

Record VideoInfo : Type := {
  width : Z;
  height : Z;
  fps_n : Z;
  fps_d : Z
}.

Record Overlay : Type := {
  text_buffer : option GstBuffer;
  segment : GstSegment;
  text_segment : GstSegment;
  flags : Flags;
  props : Props;
  cache : RenderCache;
  info : VideoInfo
}.

Definition set_video_flushing (v : bool) (r : Flags) : Flags :=
  {| video_flushing := v; video_eos := video_eos r;
     text_flushing := text_flushing r; text_eos := text_eos r;
     text_linked := text_linked r; have_pango_markup := have_pango_markup r;
     attach_compo_to_buffer := attach_compo_to_buffer r |}.
Definition set_video_eos (v : bool) (r : Flags) : Flags :=
  {| video_flushing := video_flushing r; video_eos := v;
     text_flushing := text_flushing r; text_eos := text_eos r;
     text_linked := text_linked r; have_pango_markup := have_pango_markup r;
     attach_compo_to_buffer := attach_compo_to_buffer r |}.
Definition set_text_flushing (v : bool) (r : Flags) : Flags :=
  {| video_flushing := video_flushing r; video_eos := video_eos r;
     text_flushing := v; text_eos := text_eos r;
     text_linked := text_linked r; have_pango_markup := have_pango_markup r;
     attach_compo_to_buffer := attach_compo_to_buffer r |}.
Definition set_text_eos (v : bool) (r : Flags) : Flags :=
  {| video_flushing := video_flushing r; video_eos := video_eos r;
     text_flushing := text_flushing r; text_eos := v;
     text_linked := text_linked r; have_pango_markup := have_pango_markup r;
     attach_compo_to_buffer := attach_compo_to_buffer r |}.
Definition set_text_linked (v : bool) (r : Flags) : Flags :=
  {| video_flushing := video_flushing r; video_eos := video_eos r;
     text_flushing := text_flushing r; text_eos := text_eos r;
     text_linked := v; have_pango_markup := have_pango_markup r;
     attach_compo_to_buffer := attach_compo_to_buffer r |}.
Definition set_have_pango_markup (v : bool) (r : Flags) : Flags :=
  {| video_flushing := video_flushing r; video_eos := video_eos r;
     text_flushing := text_flushing r; text_eos := text_eos r;
     text_linked := text_linked r; have_pango_markup := v;
     attach_compo_to_buffer := attach_compo_to_buffer r |}.
Definition set_attach_compo_to_buffer (v : bool) (r : Flags) : Flags :=
  {| video_flushing := video_flushing r; video_eos := video_eos r;
     text_flushing := text_flushing r; text_eos := text_eos r;
     text_linked := text_linked r; have_pango_markup := have_pango_markup r;
     attach_compo_to_buffer := v |}.

Definition set_default_text (v : option string) (r : Props) : Props :=
  {| default_text := v; want_shading := want_shading r;
     shading_value := shading_value r; halign := halign r;
     valign := valign r; xpad := xpad r; ypad := ypad r; deltax := deltax r;
     deltay := deltay r; xpos := xpos r; ypos := ypos r;
     wrap_mode := wrap_mode r; silent := silent r;
     line_align := line_align r; wait_text := wait_text r;
     auto_adjust_size := auto_adjust_size r;
     use_vertical_render := use_vertical_render r; color := color r;
     outline_color := outline_color r; layout := layout r |}.
Definition set_want_shading (v : bool) (r : Props) : Props :=
  {| default_text := default_text r; want_shading := v;
     shading_value := shading_value r; halign := halign r;
     valign := valign r; xpad := xpad r; ypad := ypad r; deltax := deltax r;
     deltay := deltay r; xpos := xpos r; ypos := ypos r;
     wrap_mode := wrap_mode r; silent := silent r;
     line_align := line_align r; wait_text := wait_text r;
     auto_adjust_size := auto_adjust_size r;
     use_vertical_render := use_vertical_render r; color := color r;
     outline_color := outline_color r; layout := layout r |}.
Definition set_shading_value (v : Z) (r : Props) : Props :=
  {| default_text := default_text r; want_shading := want_shading r;
     shading_value := v; halign := halign r; valign := valign r;
     xpad := xpad r; ypad := ypad r; deltax := deltax r; deltay := deltay r;
     xpos := xpos r; ypos := ypos r; wrap_mode := wrap_mode r;
     silent := silent r; line_align := line_align r;
     wait_text := wait_text r; auto_adjust_size := auto_adjust_size r;
     use_vertical_render := use_vertical_render r; color := color r;
     outline_color := outline_color r; layout := layout r |}.
Definition set_halign (v : GstBaseTextOverlayHAlign) (r : Props) : Props :=
  {| default_text := default_text r; want_shading := want_shading r;
     shading_value := shading_value r; halign := v; valign := valign r;
     xpad := xpad r; ypad := ypad r; deltax := deltax r; deltay := deltay r;
     xpos := xpos r; ypos := ypos r; wrap_mode := wrap_mode r;
     silent := silent r; line_align := line_align r;
     wait_text := wait_text r; auto_adjust_size := auto_adjust_size r;
     use_vertical_render := use_vertical_render r; color := color r;
     outline_color := outline_color r; layout := layout r |}.
Definition set_valign (v : GstBaseTextOverlayVAlign) (r : Props) : Props :=
  {| default_text := default_text r; want_shading := want_shading r;
     shading_value := shading_value r; halign := halign r; valign := v;
     xpad := xpad r; ypad := ypad r; deltax := deltax r; deltay := deltay r;
     xpos := xpos r; ypos := ypos r; wrap_mode := wrap_mode r;
     silent := silent r; line_align := line_align r;
     wait_text := wait_text r; auto_adjust_size := auto_adjust_size r;
     use_vertical_render := use_vertical_render r; color := color r;
     outline_color := outline_color r; layout := layout r |}.
Definition set_xpad (v : Z) (r : Props) : Props :=
  {| default_text := default_text r; want_shading := want_shading r;
     shading_value := shading_value r; halign := halign r;
     valign := valign r; xpad := v; ypad := ypad r; deltax := deltax r;
     deltay := deltay r; xpos := xpos r; ypos := ypos r;
     wrap_mode := wrap_mode r; silent := silent r;
     line_align := line_align r; wait_text := wait_text r;
     auto_adjust_size := auto_adjust_size r;
     use_vertical_render := use_vertical_render r; color := color r;
     outline_color := outline_color r; layout := layout r |}.
Definition set_ypad (v : Z) (r : Props) : Props :=
  {| default_text := default_text r; want_shading := want_shading r;
     shading_value := shading_value r; halign := halign r;
     valign := valign r; xpad := xpad r; ypad := v; deltax := deltax r;
     deltay := deltay r; xpos := xpos r; ypos := ypos r;
     wrap_mode := wrap_mode r; silent := silent r;
     line_align := line_align r; wait_text := wait_text r;
     auto_adjust_size := auto_adjust_size r;
     use_vertical_render := use_vertical_render r; color := color r;
     outline_color := outline_color r; layout := layout r |}.
Definition set_deltax (v : Z) (r : Props) : Props :=
  {| default_text := default_text r; want_shading := want_shading r;
     shading_value := shading_value r; halign := halign r;
     valign := valign r; xpad := xpad r; ypad := ypad r; deltax := v;
     deltay := deltay r; xpos := xpos r; ypos := ypos r;
     wrap_mode := wrap_mode r; silent := silent r;
     line_align := line_align r; wait_text := wait_text r;
     auto_adjust_size := auto_adjust_size r;
     use_vertical_render := use_vertical_render r; color := color r;
     outline_color := outline_color r; layout := layout r |}.
Definition set_deltay (v : Z) (r : Props) : Props :=
  {| default_text := default_text r; want_shading := want_shading r;
     shading_value := shading_value r; halign := halign r;
     valign := valign r; xpad := xpad r; ypad := ypad r; deltax := deltax r;
     deltay := v; xpos := xpos r; ypos := ypos r; wrap_mode := wrap_mode r;
     silent := silent r; line_align := line_align r;
     wait_text := wait_text r; auto_adjust_size := auto_adjust_size r;
     use_vertical_render := use_vertical_render r; color := color r;
     outline_color := outline_color r; layout := layout r |}.
Definition set_xpos (v : gdouble) (r : Props) : Props :=
  {| default_text := default_text r; want_shading := want_shading r;
     shading_value := shading_value r; halign := halign r;
     valign := valign r; xpad := xpad r; ypad := ypad r; deltax := deltax r;
     deltay := deltay r; xpos := v; ypos := ypos r; wrap_mode := wrap_mode r;
     silent := silent r; line_align := line_align r;
     wait_text := wait_text r; auto_adjust_size := auto_adjust_size r;
     use_vertical_render := use_vertical_render r; color := color r;
     outline_color := outline_color r; layout := layout r |}.
Definition set_ypos (v : gdouble) (r : Props) : Props :=
  {| default_text := default_text r; want_shading := want_shading r;
     shading_value := shading_value r; halign := halign r;
     valign := valign r; xpad := xpad r; ypad := ypad r; deltax := deltax r;
     deltay := deltay r; xpos := xpos r; ypos := v; wrap_mode := wrap_mode r;
     silent := silent r; line_align := line_align r;
     wait_text := wait_text r; auto_adjust_size := auto_adjust_size r;
     use_vertical_render := use_vertical_render r; color := color r;
     outline_color := outline_color r; layout := layout r |}.
Definition set_wrap_mode (v : GstBaseTextOverlayWrapMode) (r : Props) : Props :=
  {| default_text := default_text r; want_shading := want_shading r;
     shading_value := shading_value r; halign := halign r;
     valign := valign r; xpad := xpad r; ypad := ypad r; deltax := deltax r;
     deltay := deltay r; xpos := xpos r; ypos := ypos r; wrap_mode := v;
     silent := silent r; line_align := line_align r;
     wait_text := wait_text r; auto_adjust_size := auto_adjust_size r;
     use_vertical_render := use_vertical_render r; color := color r;
     outline_color := outline_color r; layout := layout r |}.
Definition set_silent (v : bool) (r : Props) : Props :=
  {| default_text := default_text r; want_shading := want_shading r;
     shading_value := shading_value r; halign := halign r;
     valign := valign r; xpad := xpad r; ypad := ypad r; deltax := deltax r;
     deltay := deltay r; xpos := xpos r; ypos := ypos r;
     wrap_mode := wrap_mode r; silent := v; line_align := line_align r;
     wait_text := wait_text r; auto_adjust_size := auto_adjust_size r;
     use_vertical_render := use_vertical_render r; color := color r;
     outline_color := outline_color r; layout := layout r |}.
Definition set_line_align (v : GstBaseTextOverlayLineAlign) (r : Props) : Props :=
  {| default_text := default_text r; want_shading := want_shading r;
     shading_value := shading_value r; halign := halign r;
     valign := valign r; xpad := xpad r; ypad := ypad r; deltax := deltax r;
     deltay := deltay r; xpos := xpos r; ypos := ypos r;
     wrap_mode := wrap_mode r; silent := silent r; line_align := v;
     wait_text := wait_text r; auto_adjust_size := auto_adjust_size r;
     use_vertical_render := use_vertical_render r; color := color r;
     outline_color := outline_color r; layout := layout r |}.
Definition set_wait_text (v : bool) (r : Props) : Props :=
  {| default_text := default_text r; want_shading := want_shading r;
     shading_value := shading_value r; halign := halign r;
     valign := valign r; xpad := xpad r; ypad := ypad r; deltax := deltax r;
     deltay := deltay r; xpos := xpos r; ypos := ypos r;
     wrap_mode := wrap_mode r; silent := silent r;
     line_align := line_align r; wait_text := v;
     auto_adjust_size := auto_adjust_size r;
     use_vertical_render := use_vertical_render r; color := color r;
     outline_color := outline_color r; layout := layout r |}.
Definition set_auto_adjust_size (v : bool) (r : Props) : Props :=
  {| default_text := default_text r; want_shading := want_shading r;
     shading_value := shading_value r; halign := halign r;
     valign := valign r; xpad := xpad r; ypad := ypad r; deltax := deltax r;
     deltay := deltay r; xpos := xpos r; ypos := ypos r;
     wrap_mode := wrap_mode r; silent := silent r;
     line_align := line_align r; wait_text := wait_text r;
     auto_adjust_size := v; use_vertical_render := use_vertical_render r;
     color := color r; outline_color := outline_color r;
     layout := layout r |}.
Definition set_use_vertical_render (v : bool) (r : Props) : Props :=
  {| default_text := default_text r; want_shading := want_shading r;
     shading_value := shading_value r; halign := halign r;
     valign := valign r; xpad := xpad r; ypad := ypad r; deltax := deltax r;
     deltay := deltay r; xpos := xpos r; ypos := ypos r;
     wrap_mode := wrap_mode r; silent := silent r;
     line_align := line_align r; wait_text := wait_text r;
     auto_adjust_size := auto_adjust_size r; use_vertical_render := v;
     color := color r; outline_color := outline_color r;
     layout := layout r |}.
Definition set_color (v : Z) (r : Props) : Props :=
  {| default_text := default_text r; want_shading := want_shading r;
     shading_value := shading_value r; halign := halign r;
     valign := valign r; xpad := xpad r; ypad := ypad r; deltax := deltax r;
     deltay := deltay r; xpos := xpos r; ypos := ypos r;
     wrap_mode := wrap_mode r; silent := silent r;
     line_align := line_align r; wait_text := wait_text r;
     auto_adjust_size := auto_adjust_size r;
     use_vertical_render := use_vertical_render r; color := v;
     outline_color := outline_color r; layout := layout r |}.
Definition set_outline_color (v : Z) (r : Props) : Props :=
  {| default_text := default_text r; want_shading := want_shading r;
     shading_value := shading_value r; halign := halign r;
     valign := valign r; xpad := xpad r; ypad := ypad r; deltax := deltax r;
     deltay := deltay r; xpos := xpos r; ypos := ypos r;
     wrap_mode := wrap_mode r; silent := silent r;
     line_align := line_align r; wait_text := wait_text r;
     auto_adjust_size := auto_adjust_size r;
     use_vertical_render := use_vertical_render r; color := color r;
     outline_color := v; layout := layout r |}.
Definition set_layout (v : PangoLayout) (r : Props) : Props :=
  {| default_text := default_text r; want_shading := want_shading r;
     shading_value := shading_value r; halign := halign r;
     valign := valign r; xpad := xpad r; ypad := ypad r; deltax := deltax r;
     deltay := deltay r; xpos := xpos r; ypos := ypos r;
     wrap_mode := wrap_mode r; silent := silent r;
     line_align := line_align r; wait_text := wait_text r;
     auto_adjust_size := auto_adjust_size r;
     use_vertical_render := use_vertical_render r; color := color r;
     outline_color := outline_color r; layout := v |}.

Definition set_need_render (v : bool) (r : RenderCache) : RenderCache :=
  {| need_render := v; text_image := text_image r;
     image_width := image_width r; image_height := image_height r;
     baseline_y := baseline_y r; composition := composition r |}.
Definition set_text_image (v : option Image) (r : RenderCache) : RenderCache :=
  {| need_render := need_render r; text_image := v;
     image_width := image_width r; image_height := image_height r;
     baseline_y := baseline_y r; composition := composition r |}.
Definition set_image_width (v : Z) (r : RenderCache) : RenderCache :=
  {| need_render := need_render r; text_image := text_image r;
     image_width := v; image_height := image_height r;
     baseline_y := baseline_y r; composition := composition r |}.
Definition set_image_height (v : Z) (r : RenderCache) : RenderCache :=
  {| need_render := need_render r; text_image := text_image r;
     image_width := image_width r; image_height := v;
     baseline_y := baseline_y r; composition := composition r |}.
Definition set_baseline_y (v : Z) (r : RenderCache) : RenderCache :=
  {| need_render := need_render r; text_image := text_image r;
     image_width := image_width r; image_height := image_height r;
     baseline_y := v; composition := composition r |}.
Definition set_composition (v : option Composition) (r : RenderCache) : RenderCache :=
  {| need_render := need_render r; text_image := text_image r;
     image_width := image_width r; image_height := image_height r;
     baseline_y := baseline_y r; composition := v |}.

Definition set_width (v : Z) (r : VideoInfo) : VideoInfo :=
  {| width := v; height := height r; fps_n := fps_n r; fps_d := fps_d r |}.
Definition set_height (v : Z) (r : VideoInfo) : VideoInfo :=
  {| width := width r; height := v; fps_n := fps_n r; fps_d := fps_d r |}.
Definition set_fps_n (v : Z) (r : VideoInfo) : VideoInfo :=
  {| width := width r; height := height r; fps_n := v; fps_d := fps_d r |}.
Definition set_fps_d (v : Z) (r : VideoInfo) : VideoInfo :=
  {| width := width r; height := height r; fps_n := fps_n r; fps_d := v |}.

Definition set_text_buffer (v : option GstBuffer) (r : Overlay) : Overlay :=
  {| text_buffer := v; segment := segment r; text_segment := text_segment r;
     flags := flags r; props := props r; cache := cache r; info := info r |}.
Definition set_segment (v : GstSegment) (r : Overlay) : Overlay :=
  {| text_buffer := text_buffer r; segment := v;
     text_segment := text_segment r; flags := flags r; props := props r;
     cache := cache r; info := info r |}.
Definition set_text_segment (v : GstSegment) (r : Overlay) : Overlay :=
  {| text_buffer := text_buffer r; segment := segment r; text_segment := v;
     flags := flags r; props := props r; cache := cache r; info := info r |}.
Definition set_flags (v : Flags) (r : Overlay) : Overlay :=
  {| text_buffer := text_buffer r; segment := segment r;
     text_segment := text_segment r; flags := v; props := props r;
     cache := cache r; info := info r |}.
Definition set_props (v : Props) (r : Overlay) : Overlay :=
  {| text_buffer := text_buffer r; segment := segment r;
     text_segment := text_segment r; flags := flags r; props := v;
     cache := cache r; info := info r |}.
Definition set_cache (v : RenderCache) (r : Overlay) : Overlay :=
  {| text_buffer := text_buffer r; segment := segment r;
     text_segment := text_segment r; flags := flags r; props := props r;
     cache := v; info := info r |}.
Definition set_info (v : VideoInfo) (r : Overlay) : Overlay :=
  {| text_buffer := text_buffer r; segment := segment r;
     text_segment := text_segment r; flags := flags r; props := props r;
     cache := cache r; info := v |}.

Definition upd_flags (f : Flags -> Flags) (o : Overlay) : Overlay :=
  set_flags (f (flags o)) o.
Definition upd_props (f : Props -> Props) (o : Overlay) : Overlay :=
  set_props (f (props o)) o.
Definition upd_cache (f : RenderCache -> RenderCache) (o : Overlay) : Overlay :=
  set_cache (f (cache o)) o.

(** ** What a critical section does besides updating the element *)

(** What reaches the source pad for one video frame. *)
Inductive Output : Type :=
| Unmodified (frame : GstBuffer)
    (* gst_pad_push of the frame itself *)
| WithOverlayMeta (frame : GstBuffer) (c : Composition)
    (* the composition attached as meta, pixels untouched *)
| Blended (frame : GstBuffer) (shade : option (Z * Z * Z * Z)) (c : Composition).
    (* the composition blended into the pixels, over an optional shaded box *)

Inductive Event : Type :=
| Broadcast                 (* GST_BASE_TEXT_OVERLAY_BROADCAST *)
| Pushed (out : Output)     (* gst_pad_push on the source pad *)
| Unref (b : GstBuffer)     (* gst_buffer_unref *)
| Rasterize (s : string).   (* gst_base_text_overlay_render_pangocairo *)

(** Events arriving on a sink pad.  CAPS events only drive format
    negotiation and are not represented; [GST_EVENT_OTHER] is any event
    type that reaches the default branch of the switch. *)
Inductive GstEvent : Type :=
| GST_EVENT_SEGMENT (s : GstSegment)
| GST_EVENT_GAP (start : Z) (dur : Z)
| GST_EVENT_FLUSH_START
| GST_EVENT_FLUSH_STOP
| GST_EVENT_EOS
| GST_EVENT_OTHER.

(** What the rasteriser leaves in the element. *)
Record Rendered : Type := {
  r_image : Image;
  r_width : Z;
  r_height : Z;
  r_baseline_y : Z;
  r_layout : PangoLayout
}.

(** ** Functions of GStreamer core, glib, Pango and the peer pads

    These are not part of the element; the embedding calls them where the C
    code does and the properties below hold for every implementation. *)

Class Collaborators : Type := {
  (* gstsegment.c; [None] is a FALSE return, which leaves the out
     parameters untouched *)
  gst_segment_init : GstFormat -> GstSegment;
  gst_segment_clip : GstSegment -> GstFormat -> Z -> Z -> option (Z * Z);
  gst_segment_to_running_time : GstSegment -> GstFormat -> Z -> Z;
  gst_util_uint64_scale_int : Z -> Z -> Z -> Z;
  (* the peer of the source pad *)
  gst_pad_push : Output -> GstFlowReturn;
  gst_pad_event_default : GstEvent -> bool;
  parent_change_state : GstStateChange -> bool;
  gst_pad_check_reconfigure : Overlay -> bool;
  negotiated_attach : Overlay -> bool;
  gst_video_frame_map : VideoInfo -> GstBuffer -> bool;
  (* glib; [g_utf8_validate] gives the offset of the first invalid byte *)
  g_utf8_validate : string -> option nat;
  g_markup_escape_text : string -> string;
  gint_of_scaled : Z -> gdouble -> Z;          (* (gint) (n * x) *)
  gdouble_zero : gdouble;
  DEFAULT_PROP_XPOS : gdouble;                 (* 0.5 *)
  DEFAULT_PROP_YPOS : gdouble;                 (* 0.5 *)
  (* Pango and cairo *)
  pango_layout_new : PangoLayout;
  pango_layout_set_width : Z -> PangoLayout -> PangoLayout;
  pango_layout_set_wrap :
    GstBaseTextOverlayWrapMode -> PangoLayout -> PangoLayout;
  pango_layout_set_alignment :
    GstBaseTextOverlayLineAlign -> PangoLayout -> PangoLayout;
  pango_layout_set_render_mode :
    bool -> GstBaseTextOverlayLineAlign -> PangoLayout -> PangoLayout;
  pango_layout_set_font_description : string -> PangoLayout -> PangoLayout;
  pango_cairo_render : Overlay -> string -> Rendered;
  (* the get_text virtual method of the class; [None] is a NULL pointer *)
  klass_get_text : option (Overlay -> GstBuffer -> option string)
}.

Context {C : Collaborators}.

(** ** C strings *)

Definition NUL : ascii := "000"%char.
Definition TAB : ascii := "009"%char.
Definition LF : ascii := "010"%char.
Definition CR : ascii := "013"%char.

(** The characters before the first NUL. *)
Fixpoint c_str (s : string) : string :=
  match s with
  | EmptyString => EmptyString
  | String c r => if Ascii.eqb c NUL then EmptyString else String c (c_str r)
  end.

Definition strlen (s : string) : Z := Z.of_nat (String.length (c_str s)).

Definition g_strndup (s : string) (n : Z) : string :=
  c_str (substring 0 (Z.to_nat n) s).

(** [g_strdelimit (string, "\r\t", ' ')]. *)
Fixpoint g_strdelimit_cr_tab (s : string) : string :=
  match s with
  | EmptyString => EmptyString
  | String c r =>
      String (if Ascii.eqb c CR || Ascii.eqb c TAB then " "%char else c)
             (g_strdelimit_cr_tab r)
  end.

(** The length left once trailing line feeds and carriage returns are
    dropped: the [while (text_len > 0 && ...) --text_len] loop. *)
Fixpoint stripped_length (s : string) : nat :=
  match s with
  | EmptyString => O
  | String c r =>
      let n := stripped_length r in
      if Nat.eqb n 0 && (Ascii.eqb c LF || Ascii.eqb c CR) then O else S n
  end.

Fixpoint set_char (i : nat) (c : ascii) (s : string) : string :=
  match s, i with
  | EmptyString, _ => EmptyString
  | String _ r, O => String c r
  | String a r, S j => String a (set_char j c r)
  end.

(** [while (!g_utf8_validate (in_text, in_size, &end) && end) *end = '*';]
    Each round overwrites one byte, so the length bounds the rounds. *)
Fixpoint replace_invalid (rounds : nat) (s : string) : string :=
  match rounds with
  | O => s
  | S n =>
      match g_utf8_validate s with
      | None => s
      | Some i => replace_invalid n (set_char i "*"%char s)
      end
  end.

(** [g_strndup] pads its copy with NUL up to the requested size. *)
Fixpoint nul_padded (n : nat) (s : string) : string :=
  match n with
  | O => EmptyString
  | S m =>
      match s with
      | EmptyString => String NUL (nul_padded m EmptyString)
      | String c r =>
          if Ascii.eqb c NUL then String NUL (nul_padded m EmptyString)
          else String c (nul_padded m r)
      end
  end.

(** ** Placement *)

Definition gst_base_text_overlay_get_pos (o : Overlay) : Z * Z :=
  let w := image_width (cache o) in
  let h := image_height (cache o) in
  let p := props o in
  let halign :=
    if use_vertical_render p then GST_BASE_TEXT_OVERLAY_HALIGN_RIGHT
    else halign p in
  let xpos0 :=
    match halign with
    | GST_BASE_TEXT_OVERLAY_HALIGN_LEFT => xpad p
    | GST_BASE_TEXT_OVERLAY_HALIGN_CENTER =>
        Z.quot (wrap32 (width (info o) - w)) 2
    | GST_BASE_TEXT_OVERLAY_HALIGN_RIGHT =>
        wrap32 (wrap32 (width (info o) - w) - xpad p)
    | GST_BASE_TEXT_OVERLAY_HALIGN_POS =>
        let x :=
          wrap32 (gint_of_scaled (width (info o)) (xpos p)
                  - Z.quot w 2) in
        let x := CLAMP x 0 (wrap32 (width (info o) - w)) in
        if x <? 0 then 0 else x
    | GST_BASE_TEXT_OVERLAY_HALIGN_OTHER => 0
    end in
  let valign :=
    if use_vertical_render p then GST_BASE_TEXT_OVERLAY_VALIGN_TOP
    else valign p in
  let ypos0 :=
    match valign with
    | GST_BASE_TEXT_OVERLAY_VALIGN_BOTTOM =>
        wrap32 (wrap32 (height (info o) - h) - ypad p)
    | GST_BASE_TEXT_OVERLAY_VALIGN_BASELINE =>
        wrap32 (height (info o) - wrap32 (h + ypad p))
    | GST_BASE_TEXT_OVERLAY_VALIGN_TOP => ypad p
    | GST_BASE_TEXT_OVERLAY_VALIGN_POS =>
        let y :=
          wrap32 (gint_of_scaled (height (info o)) (ypos p)
                  - Z.quot h 2) in
        CLAMP y 0 (wrap32 (height (info o) - h))
    | GST_BASE_TEXT_OVERLAY_VALIGN_CENTER =>
        Z.quot (wrap32 (height (info o) - h)) 2
    | GST_BASE_TEXT_OVERLAY_VALIGN_OTHER => ypad p
    end in
  (wrap32 (xpos0 + deltax p), wrap32 (ypos0 + deltay p)).

Definition gst_base_text_overlay_set_composition (o : Overlay) : Overlay :=
  let '(xpos, ypos) := gst_base_text_overlay_get_pos o in
  match text_image (cache o) with
  | Some img =>
      upd_cache
        (set_composition
           (Some {| comp_image := img; comp_x := xpos; comp_y := ypos;
                    comp_width := image_width (cache o);
                    comp_height := image_height (cache o) |})) o
  | None => upd_cache (set_composition None) o
  end.

(** ** Rendering *)

(** The rasteriser replaces the text image, records its size and baseline,
    and rebuilds the composition. *)
Definition gst_base_text_overlay_render_pangocairo (o : Overlay) (s : string)
  : Overlay * list Event :=
  let r := pango_cairo_render o s in
  let o := upd_props (set_layout (r_layout r)) o in
  let o := upd_cache (set_text_image (Some (r_image r))) o in
  let o := upd_cache (set_image_width (r_width r)) o in
  let o := upd_cache (set_image_height (r_height r)) o in
  let o := upd_cache (set_baseline_y (r_baseline_y r)) o in
  (gst_base_text_overlay_set_composition o, [Rasterize s]).

Definition gst_base_text_overlay_render_text
    (o : Overlay) (text : option string) (textlen : Z)
  : Overlay * list Event :=
  if negb (need_render (cache o)) then (o, [])
  else
    let textlen :=
      match text with
      | Some t => if textlen <? 0 then strlen t else textlen
      | None => textlen
      end in
    let s :=
      match text with
      | Some t => g_strndup t textlen
      | None => " "%string
      end in
    let s := g_strdelimit_cr_tab s in
    let '(o, evs) := gst_base_text_overlay_render_pangocairo o s in
    (upd_cache (set_need_render false) o, evs).

(** ** Pushing a frame *)

(** [gst_base_text_overlay_negotiate] as far as the element is concerned:
    it records whether downstream takes the composition as meta. *)
Definition gst_base_text_overlay_negotiate (o : Overlay) : Overlay :=
  upd_flags (set_attach_compo_to_buffer (negotiated_attach o)) o.

Definition gst_base_text_overlay_push_frame
    (o : Overlay) (video_frame : GstBuffer)
  : GstFlowReturn * Overlay * list Event :=
  match composition (cache o) with
  | None =>
      (gst_pad_push (Unmodified video_frame), o,
       [Pushed (Unmodified video_frame)])
  | Some c =>
      let o :=
        if gst_pad_check_reconfigure o then gst_base_text_overlay_negotiate o
        else o in
      if attach_compo_to_buffer (flags o) then
        (gst_pad_push (WithOverlayMeta video_frame c), o,
         [Pushed (WithOverlayMeta video_frame c)])
      else if negb (gst_video_frame_map (info o) video_frame) then
        (* invalid_frame *)
        (GST_FLOW_OK, o, [Unref video_frame])
      else
        let shade :=
          if want_shading (props o) then
            let '(xpos, ypos) := gst_base_text_overlay_get_pos o in
            Some (xpos, wrap32 (xpos + image_width (cache o)),
                  ypos, wrap32 (ypos + image_height (cache o)))
          else None in
        (gst_pad_push (Blended video_frame shade c), o,
         [Pushed (Blended video_frame shade c)])
  end.

(** ** The pending slot *)

(** Called with lock held. *)
Definition gst_base_text_overlay_pop_text (o : Overlay)
  : Overlay * list Event :=
  match text_buffer o with
  | Some b => (set_text_buffer None o, [Unref b; Broadcast])
  | None => (o, [Broadcast])
  end.

(** Where a call of the text chain function stands when it gives up the
    lock: it has returned, or it is parked in [GST_BASE_TEXT_OVERLAY_WAIT]
    holding its buffer and [clip_start]. *)
Inductive TextStep : Type :=
| TextReturn (ret : GstFlowReturn) (o : Overlay) (evs : list Event)
| TextWait (o : Overlay) (buffer : GstBuffer) (clip_start : Z).

(** The code after the wait loop. *)
Definition text_chain_store (o : Overlay) (buffer : GstBuffer) (clip_start : Z)
  : TextStep :=
  let o :=
    if GST_BUFFER_TIMESTAMP_IS_VALID buffer then
      set_text_segment (set_seg_position clip_start (text_segment o)) o
    else o in
  let o := set_text_buffer (Some buffer) o in
  let o := upd_cache (set_need_render true) o in
  TextReturn GST_FLOW_OK o [Broadcast].

(** The test of [while (overlay->text_buffer != NULL)]. *)
Definition text_chain_wait_loop
    (o : Overlay) (buffer : GstBuffer) (clip_start : Z) : TextStep :=
  match text_buffer o with
  | Some _ => TextWait o buffer clip_start
  | None => text_chain_store o buffer clip_start
  end.

(** The loop body after [GST_BASE_TEXT_OVERLAY_WAIT] has returned. *)
Definition text_chain_wake
    (o : Overlay) (buffer : GstBuffer) (clip_start : Z) : TextStep :=
  if text_flushing (flags o) then
    TextReturn GST_FLOW_FLUSHING o [Unref buffer]
  else text_chain_wait_loop o buffer clip_start.

Definition gst_base_text_overlay_text_chain (o : Overlay) (buffer : GstBuffer)
  : TextStep :=
  if text_flushing (flags o) then
    TextReturn GST_FLOW_FLUSHING o [Unref buffer]
  else if text_eos (flags o) then
    TextReturn GST_FLOW_EOS o [Unref buffer]
  else
    let '(in_seg, clip_start, clip_stop) :=
      if GST_BUFFER_TIMESTAMP_IS_VALID buffer then
        let stop :=
          if GST_BUFFER_DURATION_IS_VALID buffer then
            wrap64 (pts buffer + duration buffer)
          else GST_CLOCK_TIME_NONE in
        match gst_segment_clip (text_segment o) GST_FORMAT_TIME
                (pts buffer) stop with
        | Some (cstart, cstop) => (true, cstart, cstop)
        | None => (false, 0, 0)
        end
      else (true, 0, 0) in
    if in_seg then
      let buffer :=
        if GST_BUFFER_TIMESTAMP_IS_VALID buffer then set_pts clip_start buffer
        else if GST_BUFFER_DURATION_IS_VALID buffer then
          set_duration (wrap64 (clip_stop - clip_start)) buffer
        else buffer in
      text_chain_wait_loop o buffer clip_start
    else TextReturn GST_FLOW_OK o [Unref buffer].

(** ** The video chain function *)

(** The locals that survive the prologue. *)
Record VideoFrame : Type := {
  vf_buffer : GstBuffer;
  vf_start : Z;
  vf_stop : Z;
  vf_clip_start : Z
}.

Inductive VideoEntry : Type :=
| Discarded (ret : GstFlowReturn) (evs : list Event)
| Accepted (fr : VideoFrame).

(** From entry to the [wait_for_text_buf] label: timestamp check, clipping
    against the video segment and the estimate of a missing end time.
    [gst_object_sync_values] acts on controller bindings only; none are
    attached here. *)
Definition video_chain_enter (o : Overlay) (buffer : GstBuffer) : VideoEntry :=
  if negb (GST_BUFFER_TIMESTAMP_IS_VALID buffer) then
    Discarded GST_FLOW_OK [Unref buffer]                (* missing_timestamp *)
  else
    let start := pts buffer in
    let stop :=
      if negb (GST_BUFFER_DURATION_IS_VALID buffer) then GST_CLOCK_TIME_NONE
      else wrap64 (start + duration buffer) in
    if (stop =? GST_CLOCK_TIME_NONE) && (start <? seg_start (segment o)) then
      Discarded GST_FLOW_OK [Unref buffer]              (* out_of_segment *)
    else
      match gst_segment_clip (segment o) GST_FORMAT_TIME start stop with
      | None => Discarded GST_FLOW_OK [Unref buffer]    (* out_of_segment *)
      | Some (clip_start, clip_stop) =>
          let buffer :=
            if negb (clip_start =? start)
               || (negb (stop =? GST_CLOCK_TIME_NONE)
                   && negb (clip_stop =? stop))
            then
              let b := set_pts clip_start buffer in
              if negb (stop =? GST_CLOCK_TIME_NONE) then
                set_duration (wrap64 (clip_stop - clip_start)) b
              else b
            else buffer in
          let stop :=
            if stop =? GST_CLOCK_TIME_NONE then
              if negb (fps_n (info o) =? 0) && negb (fps_d (info o) =? 0) then
                wrap64 (start
                        + gst_util_uint64_scale_int GST_SECOND
                            (fps_d (info o)) (fps_n (info o)))
              else wrap64 (start + 1)
            else stop in
          Accepted {| vf_buffer := buffer; vf_start := start;
                      vf_stop := stop; vf_clip_start := clip_start |}
      end.

(** Where the video chain function stands when it leaves a pass that
    started at [wait_for_text_buf]: it has returned, it has released the
    lock and jumps back to the label, or it is parked in
    [GST_BASE_TEXT_OVERLAY_WAIT]. *)
Inductive VideoStep : Type :=
| VideoReturn (ret : GstFlowReturn) (o : Overlay) (evs : list Event)
| VideoRetry (o : Overlay) (evs : list Event)
| VideoWait (o : Overlay).

(** [overlay->segment.position = clip_start]. *)
Definition update_position (clip_start : Z) (o : Overlay) : Overlay :=
  set_segment (set_seg_position clip_start (segment o)) o.

(** The text of the pending buffer as it is handed to
    [gst_base_text_overlay_render_text]. *)
Definition render_text_buffer (o : Overlay) (tb : GstBuffer)
  : Overlay * list Event :=
  let in_text := data tb in
  let in_size := String.length in_text in
  if Nat.ltb 0 in_size then
    let in_text :=
      match g_utf8_validate in_text with
      | None => in_text
      | Some _ => replace_invalid in_size (nul_padded in_size in_text)
      end in
    let text :=
      if have_pango_markup (flags o) then g_strndup in_text (Z.of_nat in_size)
      else c_str (g_markup_escape_text in_text) in
    match text with
    | String _ _ =>
        gst_base_text_overlay_render_text o (Some text)
          (Z.of_nat (stripped_length text))
    | EmptyString =>
        gst_base_text_overlay_render_text o (Some " "%string) 1
    end
  else gst_base_text_overlay_render_text o (Some " "%string) 1.

(** One pass from [wait_for_text_buf] with no other thread in between.
    The frame push and the trailing pop of the text buffer happen after
    the lock is released; they are run here in program order.  What each
    of them does on the element as other threads may have left it is
    [video_chain_step] below. *)
Definition video_chain_pass (o : Overlay) (fr : VideoFrame) : VideoStep :=
  let buffer := vf_buffer fr in
  if video_flushing (flags o) then
    VideoReturn GST_FLOW_FLUSHING o [Unref buffer]
  else if video_eos (flags o) then
    VideoReturn GST_FLOW_EOS o [Unref buffer]
  else if silent (props o) then
    VideoReturn (gst_pad_push (Unmodified buffer))
      (update_position (vf_clip_start fr) o) [Pushed (Unmodified buffer)]
  else if negb (text_linked (flags o)) then
    (* Text pad not linked, rendering internal text *)
    let text :=
      match klass_get_text with
      | Some get_text => get_text o buffer
      | None => default_text (props o)
      end in
    match option_map c_str text with
    | Some (String a r) =>
        let '(o, evs1) :=
          gst_base_text_overlay_render_text o (Some (String a r)) (-1) in
        let '(ret, o, evs2) := gst_base_text_overlay_push_frame o buffer in
        VideoReturn ret (update_position (vf_clip_start fr) o) (evs1 ++ evs2)
    | _ =>
        VideoReturn (gst_pad_push (Unmodified buffer))
          (update_position (vf_clip_start fr) o) [Pushed (Unmodified buffer)]
    end
  else
    match text_buffer o with
    | Some tb =>
        let valid_text_time :=
          GST_BUFFER_TIMESTAMP_IS_VALID tb && GST_BUFFER_DURATION_IS_VALID tb in
        let text_start := pts tb in
        let text_end := wrap64 (text_start + duration tb) in
        let vid_running_time :=
          gst_segment_to_running_time (segment o) GST_FORMAT_TIME
            (vf_start fr) in
        let vid_running_time_end :=
          gst_segment_to_running_time (segment o) GST_FORMAT_TIME
            (vf_stop fr) in
        let text_running_time :=
          gst_segment_to_running_time (text_segment o) GST_FORMAT_TIME
            text_start in
        let text_running_time_end :=
          gst_segment_to_running_time (text_segment o) GST_FORMAT_TIME
            text_end in
        if valid_text_time && (text_running_time_end <=? vid_running_time)
        then
          (* text buffer too old, get rid of it and do nothing *)
          let '(o, evs) := gst_base_text_overlay_pop_text o in
          VideoRetry o evs
        else if valid_text_time
                && (vid_running_time_end <=? text_running_time)
        then
          (* text in future, pushing video buf *)
          VideoReturn (gst_pad_push (Unmodified buffer))
            (update_position (vf_clip_start fr) o)
            [Pushed (Unmodified buffer)]
        else
          let '(o, evs1) := render_text_buffer o tb in
          let '(ret, o, evs2) := gst_base_text_overlay_push_frame o buffer in
          let pop_text :=
            negb valid_text_time
            || (text_running_time_end <=? vid_running_time_end) in
          let '(o, evs3) :=
            if pop_text then gst_base_text_overlay_pop_text o else (o, []) in
          VideoReturn ret (update_position (vf_clip_start fr) o)
            (evs1 ++ evs2 ++ evs3)
    | None =>
        (* Text pad linked, but no text buffer available - what now? *)
        let wait_for_text_buf :=
          negb (text_eos (flags o)) && wait_text (props o) in
        let wait_for_text_buf :=
          if GstFormat_eqb (seg_format (text_segment o)) GST_FORMAT_TIME then
            let vid_running_time :=
              gst_segment_to_running_time (segment o) GST_FORMAT_TIME
                (pts buffer) in
            let text_start_running_time :=
              gst_segment_to_running_time (text_segment o) GST_FORMAT_TIME
                (seg_start (text_segment o)) in
            let text_position_running_time :=
              gst_segment_to_running_time (text_segment o) GST_FORMAT_TIME
                (seg_position (text_segment o)) in
            if (GST_CLOCK_TIME_IS_VALID text_start_running_time
                && (vid_running_time <? text_start_running_time))
               || (GST_CLOCK_TIME_IS_VALID text_position_running_time
                   && (vid_running_time <? text_position_running_time))
            then false
            else wait_for_text_buf
          else wait_for_text_buf in
        if wait_for_text_buf then VideoWait o
        else
          VideoReturn (gst_pad_push (Unmodified buffer))
            (update_position (vf_clip_start fr) o)
            [Pushed (Unmodified buffer)]
    end.

(** Waking from [GST_BASE_TEXT_OVERLAY_WAIT] unlocks and jumps to
    [wait_for_text_buf]: the next pass runs on the element as the other
    threads have left it. *)
Definition video_chain_wake (o : Overlay) (fr : VideoFrame) : VideoStep :=
  video_chain_pass o fr.

(** ** The video chain function between its critical sections

    From [wait_for_text_buf] on the chain function gives up the element
    lock several times before it returns, and pushes the frame and updates
    the segment position without holding it.  Where the thread stands
    each time it has finished with the element for the moment: *)
Inductive VideoThread : Type :=
| AtLabel                         (* at wait_for_text_buf, lock not held *)
| Parked                          (* in GST_BASE_TEXT_OVERLAY_WAIT *)
| RenderingText (text : string)   (* text pad not linked, lock released:
                                     render_text and push_frame to come *)
| PushingBuffer                   (* lock released: gst_pad_push of the
                                     buffer to come *)
| PushingFrame (pop_text : bool)  (* text rendered, lock released:
                                     push_frame to come *)
| Popping (ret : GstFlowReturn)   (* frame pushed, pop_text is TRUE: the
                                     lock is to be taken for pop_text *)
| Finishing (ret : GstFlowReturn) (* position update and return to come *)
| Returned (ret : GstFlowReturn).

(** The critical section that starts at [wait_for_text_buf]: from taking
    the lock to giving it up, by unlocking or by parking in the wait. *)
Definition video_chain_locked (o : Overlay) (fr : VideoFrame)
  : VideoThread * Overlay * list Event :=
  let buffer := vf_buffer fr in
  if video_flushing (flags o) then
    (Returned GST_FLOW_FLUSHING, o, [Unref buffer])
  else if video_eos (flags o) then
    (Returned GST_FLOW_EOS, o, [Unref buffer])
  else if silent (props o) then (PushingBuffer, o, [])
  else if negb (text_linked (flags o)) then
    (* Text pad not linked, rendering internal text *)
    let text :=
      match klass_get_text with
      | Some get_text => get_text o buffer
      | None => default_text (props o)
      end in
    match option_map c_str text with
    | Some (String a r) => (RenderingText (String a r), o, [])
    | _ => (PushingBuffer, o, [])
    end
  else
    match text_buffer o with
    | Some tb =>
        let valid_text_time :=
          GST_BUFFER_TIMESTAMP_IS_VALID tb && GST_BUFFER_DURATION_IS_VALID tb in
        let text_start := pts tb in
        let text_end := wrap64 (text_start + duration tb) in
        let vid_running_time :=
          gst_segment_to_running_time (segment o) GST_FORMAT_TIME
            (vf_start fr) in
        let vid_running_time_end :=
          gst_segment_to_running_time (segment o) GST_FORMAT_TIME
            (vf_stop fr) in
        let text_running_time :=
          gst_segment_to_running_time (text_segment o) GST_FORMAT_TIME
            text_start in
        let text_running_time_end :=
          gst_segment_to_running_time (text_segment o) GST_FORMAT_TIME
            text_end in
        if valid_text_time && (text_running_time_end <=? vid_running_time)
        then
          (* text buffer too old, get rid of it and do nothing *)
          let '(o, evs) := gst_base_text_overlay_pop_text o in
          (AtLabel, o, evs)
        else if valid_text_time
                && (vid_running_time_end <=? text_running_time)
        then
          (* text in future, pushing video buf *)
          (PushingBuffer, o, [])
        else
          let '(o, evs) := render_text_buffer o tb in
          let pop_text :=
            negb valid_text_time
            || (text_running_time_end <=? vid_running_time_end) in
          (PushingFrame pop_text, o, evs)
    | None =>
        (* Text pad linked, but no text buffer available - what now? *)
        let wait_for_text_buf :=
          negb (text_eos (flags o)) && wait_text (props o) in
        let wait_for_text_buf :=
          if GstFormat_eqb (seg_format (text_segment o)) GST_FORMAT_TIME then
            let vid_running_time :=
              gst_segment_to_running_time (segment o) GST_FORMAT_TIME
                (pts buffer) in
            let text_start_running_time :=
              gst_segment_to_running_time (text_segment o) GST_FORMAT_TIME
                (seg_start (text_segment o)) in
            let text_position_running_time :=
              gst_segment_to_running_time (text_segment o) GST_FORMAT_TIME
                (seg_position (text_segment o)) in
            if (GST_CLOCK_TIME_IS_VALID text_start_running_time
                && (vid_running_time <? text_start_running_time))
               || (GST_CLOCK_TIME_IS_VALID text_position_running_time
                   && (vid_running_time <? text_position_running_time))
            then false
            else wait_for_text_buf
          else wait_for_text_buf in
        if wait_for_text_buf then (Parked, o, [])
        else (PushingBuffer, o, [])
    end.

(** What the thread does next with the element [o] as it finds it: the
    critical section from the label; waking from the wait, which unlocks
    and jumps to the label; and, outside the lock, the rendering of the
    internal text, the pushes, the trailing [pop_text] under the lock
    taken again, and the position update before the return. *)
Definition video_chain_step (fr : VideoFrame) (th : VideoThread) (o : Overlay)
  : VideoThread * Overlay * list Event :=
  let buffer := vf_buffer fr in
  match th with
  | AtLabel => video_chain_locked o fr
  | Parked => (AtLabel, o, [])
  | RenderingText text =>
      let '(o, evs) := gst_base_text_overlay_render_text o (Some text) (-1) in
      (PushingFrame false, o, evs)
  | PushingBuffer =>
      (Finishing (gst_pad_push (Unmodified buffer)), o,
       [Pushed (Unmodified buffer)])
  | PushingFrame pop_text =>
      let '(ret, o, evs) := gst_base_text_overlay_push_frame o buffer in
      (if pop_text then Popping ret else Finishing ret, o, evs)
  | Popping ret =>
      let '(o, evs) := gst_base_text_overlay_pop_text o in
      (Finishing ret, o, evs)
  | Finishing ret =>
      (Returned ret, update_position (vf_clip_start fr) o, [])
  | Returned ret => (Returned ret, o, [])
  end.

(** The chain function against the other threads.  The thread takes its
    steps one after the other; between two steps the other threads have
    the element, and the next entry of [others] says what they make of
    it.  The run ends when the function has returned; when [others] is
    used up before that, it ends where the thread stands. *)
Inductive VideoResult : Type :=
| VideoDone (ret : GstFlowReturn) (o : Overlay) (evs : list Event)
| VideoStopped (th : VideoThread) (o : Overlay) (evs : list Event).

Fixpoint video_chain_run (others : list (Overlay -> Overlay))
    (fr : VideoFrame) (th : VideoThread) (o : Overlay) (done : list Event)
  : VideoResult :=
  let '(th', o', evs) := video_chain_step fr th o in
  match th' with
  | Returned ret => VideoDone ret o' (done ++ evs)
  | _ =>
      match others with
      | [] => VideoStopped th' o' (done ++ evs)
      | other :: rest =>
          video_chain_run rest fr th' (other o') (done ++ evs)
      end
  end.

(** The prologue reads the video segment and the frame rate without the
    lock; the first entry of [others] is what the other threads do
    before the lock is taken at the label. *)
Definition gst_base_text_overlay_video_chain
    (others : list (Overlay -> Overlay)) (o : Overlay) (buffer : GstBuffer)
  : VideoResult :=
  match video_chain_enter o buffer with
  | Discarded ret evs => VideoDone ret o evs
  | Accepted fr =>
      match others with
      | [] => VideoStopped AtLabel o []
      | other :: rest => video_chain_run rest fr AtLabel (other o) []
      end
  end.

(** ** Events on the sink pads *)

Definition gst_base_text_overlay_text_event (o : Overlay) (event : GstEvent)
  : bool * Overlay * list Event :=
  match event with
  | GST_EVENT_SEGMENT s =>
      let o := upd_flags (set_text_eos false) o in
      let o :=
        if GstFormat_eqb (seg_format s) GST_FORMAT_TIME then
          set_text_segment s o
        else o in
      (* wake up the video chain, it might be waiting for a text buffer or
         a text segment update *)
      (true, o, [Broadcast])
  | GST_EVENT_GAP start dur =>
      let start :=
        if GST_CLOCK_TIME_IS_VALID dur then wrap64 (start + dur) else start in
      (true, set_text_segment (set_seg_position start (text_segment o)) o,
       [Broadcast])
  | GST_EVENT_FLUSH_STOP =>
      let o := upd_flags (set_text_flushing false) o in
      let o := upd_flags (set_text_eos false) o in
      let '(o, evs) := gst_base_text_overlay_pop_text o in
      (true, set_text_segment (gst_segment_init GST_FORMAT_TIME) o, evs)
  | GST_EVENT_FLUSH_START =>
      (true, upd_flags (set_text_flushing true) o, [Broadcast])
  | GST_EVENT_EOS =>
      (true, upd_flags (set_text_eos true) o, [Broadcast])
  | GST_EVENT_OTHER => (gst_pad_event_default event, o, [])
  end.

Definition gst_base_text_overlay_video_event (o : Overlay) (event : GstEvent)
  : bool * Overlay * list Event :=
  match event with
  | GST_EVENT_SEGMENT s =>
      let o :=
        if GstFormat_eqb (seg_format s) GST_FORMAT_TIME then set_segment s o
        else o in
      (gst_pad_event_default event, o, [])
  | GST_EVENT_EOS =>
      (gst_pad_event_default event, upd_flags (set_video_eos true) o, [])
  | GST_EVENT_FLUSH_START =>
      (gst_pad_event_default event, upd_flags (set_video_flushing true) o,
       [Broadcast])
  | GST_EVENT_FLUSH_STOP =>
      let o := upd_flags (set_video_flushing false) o in
      let o := upd_flags (set_video_eos false) o in
      (gst_pad_event_default event,
       set_segment (gst_segment_init GST_FORMAT_TIME) o, [])
  | GST_EVENT_GAP _ _
  | GST_EVENT_OTHER => (gst_pad_event_default event, o, [])
  end.

(** ** State changes *)

Definition gst_base_text_overlay_change_state
    (o : Overlay) (transition : GstStateChange)
  : bool * Overlay * list Event :=
  let '(o, evs) :=
    match transition with
    | GST_STATE_CHANGE_PAUSED_TO_READY =>
        let o := upd_flags (set_text_flushing true) o in
        let o := upd_flags (set_video_flushing true) o in
        (* pop_text will broadcast on the GCond and thus also make the video
           chain exit if it's waiting for a text buffer *)
        gst_base_text_overlay_pop_text o
    | _ => (o, [])
    end in
  if negb (parent_change_state transition) then (false, o, evs)
  else
    match transition with
    | GST_STATE_CHANGE_READY_TO_PAUSED =>
        let o := upd_flags (set_text_flushing false) o in
        let o := upd_flags (set_video_flushing false) o in
        let o := upd_flags (set_video_eos false) o in
        let o := upd_flags (set_text_eos false) o in
        let o := set_segment (gst_segment_init GST_FORMAT_TIME) o in
        let o := set_text_segment (gst_segment_init GST_FORMAT_TIME) o in
        (true, o, evs)
    | _ => (true, o, evs)
    end.

(** ** Properties *)

Definition PANGO_SCALE : Z := 1024.
Definition DEFAULT_SCALE_BASIS : Z := 640.

Definition gst_base_text_overlay_update_wrap_mode (o : Overlay) : Overlay :=
  let p := props o in
  match wrap_mode p with
  | GST_BASE_TEXT_OVERLAY_WRAP_MODE_NONE =>
      upd_props (set_layout (pango_layout_set_width (-1) (layout p))) o
  | mode =>
      let w :=
        if auto_adjust_size p then
          let w := wrap32 (DEFAULT_SCALE_BASIS * PANGO_SCALE) in
          if use_vertical_render p then
            Z.quot
              (wrap32 (w * wrap32 (height (info o) - wrap32 (ypad p * 2))))
              (width (info o))
          else w
        else
          wrap32
            (wrap32
               ((if use_vertical_render p then height (info o)
                 else width (info o)) - deltax p)
             * PANGO_SCALE) in
      upd_props
        (set_layout
           (pango_layout_set_wrap mode
              (pango_layout_set_width w (layout p)))) o
  end.

Definition gst_base_text_overlay_update_render_mode (o : Overlay) : Overlay :=
  upd_props
    (set_layout
       (pango_layout_set_render_mode (use_vertical_render (props o))
          (line_align (props o)) (layout (props o)))) o.

(** A property identifier together with the value carried by the GValue.
    [PROP_OTHER] is any identifier outside the cases of the switch. *)
Inductive PropValue : Type :=
| PROP_TEXT (v : option string)
| PROP_SHADING (v : bool)
| PROP_SHADING_VALUE (v : Z)
| PROP_HALIGNMENT (v : GstBaseTextOverlayHAlign)
| PROP_VALIGNMENT (v : GstBaseTextOverlayVAlign)
| PROP_XPAD (v : Z)
| PROP_YPAD (v : Z)
| PROP_DELTAX (v : Z)
| PROP_DELTAY (v : Z)
| PROP_XPOS (v : gdouble)
| PROP_YPOS (v : gdouble)
| PROP_WRAP_MODE (v : GstBaseTextOverlayWrapMode)
| PROP_FONT_DESC (v : string)
| PROP_SILENT (v : bool)
| PROP_LINE_ALIGNMENT (v : GstBaseTextOverlayLineAlign)
| PROP_WAIT_TEXT (v : bool)
| PROP_AUTO_ADJUST_SIZE (v : bool)
| PROP_VERTICAL_RENDER (v : bool)
| PROP_COLOR (v : Z)
| PROP_OUTLINE_COLOR (v : Z)
| PROP_OTHER.

Definition gst_base_text_overlay_set_property (o : Overlay) (value : PropValue)
  : Overlay :=
  let o :=
    match value with
    | PROP_TEXT v =>
        upd_cache (set_need_render true) (upd_props (set_default_text v) o)
    | PROP_SHADING v => upd_props (set_want_shading v) o
    | PROP_XPAD v => upd_props (set_xpad v) o
    | PROP_YPAD v => upd_props (set_ypad v) o
    | PROP_DELTAX v => upd_props (set_deltax v) o
    | PROP_DELTAY v => upd_props (set_deltay v) o
    | PROP_XPOS v => upd_props (set_xpos v) o
    | PROP_YPOS v => upd_props (set_ypos v) o
    | PROP_VALIGNMENT v => upd_props (set_valign v) o
    | PROP_HALIGNMENT v => upd_props (set_halign v) o
    | PROP_WRAP_MODE v =>
        gst_base_text_overlay_update_wrap_mode
          (upd_props (set_wrap_mode v) o)
    | PROP_FONT_DESC v =>
        upd_props
          (set_layout
             (pango_layout_set_font_description v (layout (props o)))) o
    | PROP_COLOR v => upd_props (set_color v) o
    | PROP_OUTLINE_COLOR v => upd_props (set_outline_color v) o
    | PROP_SILENT v => upd_props (set_silent v) o
    | PROP_LINE_ALIGNMENT v =>
        let o := upd_props (set_line_align v) o in
        upd_props
          (set_layout (pango_layout_set_alignment v (layout (props o)))) o
    | PROP_WAIT_TEXT v => upd_props (set_wait_text v) o
    | PROP_AUTO_ADJUST_SIZE v =>
        upd_cache (set_need_render true)
          (upd_props (set_auto_adjust_size v) o)
    | PROP_VERTICAL_RENDER v =>
        upd_cache (set_need_render true)
          (gst_base_text_overlay_update_render_mode
             (upd_props (set_use_vertical_render v) o))
    | PROP_SHADING_VALUE v => upd_props (set_shading_value v) o
    | PROP_OTHER => o
    end in
  upd_cache (set_need_render true) o.

(** ** The element as [gst_base_text_overlay_init] leaves it

    Fields the function does not assign are zero, as GObject allocates
    instances zeroed. *)

Definition zeroed_segment : GstSegment :=
  {| seg_format := GST_FORMAT_UNDEFINED; seg_rate := gdouble_zero;
     seg_start := 0; seg_stop := 0; seg_time := 0; seg_position := 0;
     seg_base := 0; seg_offset := 0; seg_duration := 0 |}.

Definition gst_base_text_overlay_init : Overlay :=
  let o :=
    {| text_buffer := None;
       segment := gst_segment_init GST_FORMAT_TIME;
       text_segment := zeroed_segment;
       flags :=
         {| video_flushing := false; video_eos := false;
            text_flushing := false; text_eos := false; text_linked := false;
            have_pango_markup := false; attach_compo_to_buffer := false |};
       props :=
         {| default_text := Some EmptyString;
            want_shading := false;
            shading_value := 80;
            halign := GST_BASE_TEXT_OVERLAY_HALIGN_CENTER;
            valign := GST_BASE_TEXT_OVERLAY_VALIGN_BASELINE;
            xpad := 25; ypad := 25; deltax := 0; deltay := 0;
            xpos := DEFAULT_PROP_XPOS; ypos := DEFAULT_PROP_YPOS;
            wrap_mode := GST_BASE_TEXT_OVERLAY_WRAP_MODE_WORD_CHAR;
            silent := false;
            line_align := GST_BASE_TEXT_OVERLAY_LINE_ALIGN_CENTER;
            wait_text := true;
            auto_adjust_size := true;
            use_vertical_render := false;
            color := 4294967295;            (* 0xffffffff *)
            outline_color := 4278190080;    (* 0xff000000 *)
            layout := pango_layout_new |};
       cache :=
         {| need_render := true; text_image := None; image_width := 0;
            image_height := 0; baseline_y := 0; composition := None |};
       info := {| width := 0; height := 0; fps_n := 0; fps_d := 0 |} |} in
  gst_base_text_overlay_update_render_mode o.

Definition gst_base_text_overlay_text_pad_link (o : Overlay) : Overlay :=
  upd_flags (set_text_linked true) o.

Definition gst_base_text_overlay_text_pad_unlink (o : Overlay) : Overlay :=
  set_text_segment (gst_segment_init GST_FORMAT_UNDEFINED)
    (upd_flags (set_text_linked false) o).

(** ** Vocabulary of the properties *)

(** A pass gets as far as looking at the pending slot: neither video
    flushing nor video end-of-stream, not silent, text pad linked. *)
Definition slot_decision_reached (o : Overlay) : Prop :=
  video_flushing (flags o) = false /\ video_eos (flags o) = false
  /\ silent (props o) = false /\ text_linked (flags o) = true.

(** The running interval [vs, ve) of a video frame and [ts, te) of a text
    buffer, as the video chain function computes them. *)
Definition vs (o : Overlay) (fr : VideoFrame) : Z :=
  gst_segment_to_running_time (segment o) GST_FORMAT_TIME (vf_start fr).
Definition ve (o : Overlay) (fr : VideoFrame) : Z :=
  gst_segment_to_running_time (segment o) GST_FORMAT_TIME (vf_stop fr).
Definition ts (o : Overlay) (tb : GstBuffer) : Z :=
  gst_segment_to_running_time (text_segment o) GST_FORMAT_TIME (pts tb).
Definition te (o : Overlay) (tb : GstBuffer) : Z :=
  gst_segment_to_running_time (text_segment o) GST_FORMAT_TIME
    (wrap64 (pts tb + duration tb)).

Definition valid_text_time (tb : GstBuffer) : bool :=
  GST_BUFFER_TIMESTAMP_IS_VALID tb && GST_BUFFER_DURATION_IS_VALID tb.

(** The buffers pushed downstream and the strings rasterised, in order. *)
Fixpoint pushed (evs : list Event) : list Output :=
  match evs with
  | [] => []
  | Pushed out :: r => out :: pushed r
  | _ :: r => pushed r
  end.

Fixpoint rasterized (evs : list Event) : list string :=
  match evs with
  | [] => []
  | Rasterize s :: r => s :: rasterized r
  | _ :: r => rasterized r
  end.

Definition is_composited (out : Output) : bool :=
  match out with
  | Unmodified _ => false
  | WithOverlayMeta _ _ | Blended _ _ _ => true
  end.

Definition output_frame (out : Output) : GstBuffer :=
  match out with
  | Unmodified f | WithOverlayMeta f _ | Blended f _ _ => f
  end.

(** A clean render cache holds a composition. *)
Definition cache_consistent (o : Overlay) : Prop :=
  need_render (cache o) = false -> composition (cache o) <> None.

(** [gst_base_text_overlay_push_frame] does not take its [invalid_frame]
    exit: downstream takes the composition as meta, or the frame can be
    mapped for blending. *)
Definition frame_accepted (o : Overlay) (video_frame : GstBuffer) : bool :=
  let o :=
    if gst_pad_check_reconfigure o then gst_base_text_overlay_negotiate o
    else o in
  attach_compo_to_buffer (flags o) || gst_video_frame_map (info o) video_frame.

(** The [in_seg] local of the text chain function. *)
Definition in_segment (o : Overlay) (buffer : GstBuffer) : bool :=
  if GST_BUFFER_TIMESTAMP_IS_VALID buffer then
    let stop :=
      if GST_BUFFER_DURATION_IS_VALID buffer then
        wrap64 (pts buffer + duration buffer)
      else GST_CLOCK_TIME_NONE in
    match gst_segment_clip (text_segment o) GST_FORMAT_TIME
            (pts buffer) stop with
    | Some _ => true
    | None => false
    end
  else true.

(** The frame start the empty-slot branch compares against, and its test
    that text is known to lie ahead of it. *)
Definition text_known_ahead (o : Overlay) (fr : VideoFrame) : bool :=
  GstFormat_eqb (seg_format (text_segment o)) GST_FORMAT_TIME
  && (let v :=
        gst_segment_to_running_time (segment o) GST_FORMAT_TIME
          (pts (vf_buffer fr)) in
      let s :=
        gst_segment_to_running_time (text_segment o) GST_FORMAT_TIME
          (seg_start (text_segment o)) in
      let p :=
        gst_segment_to_running_time (text_segment o) GST_FORMAT_TIME
          (seg_position (text_segment o)) in
      (GST_CLOCK_TIME_IS_VALID s && (v <? s))
      || (GST_CLOCK_TIME_IS_VALID p && (v <? p))).

Definition no_wait (o : Overlay) (fr : VideoFrame) : bool :=
  text_eos (flags o) || negb (wait_text (props o)) || text_known_ahead o fr.

(** The same test against the end [ve] of the frame. *)
Definition no_wait_from_end (o : Overlay) (fr : VideoFrame) : bool :=
  let s :=
    gst_segment_to_running_time (text_segment o) GST_FORMAT_TIME
      (seg_start (text_segment o)) in
  let p :=
    gst_segment_to_running_time (text_segment o) GST_FORMAT_TIME
      (seg_position (text_segment o)) in
  text_eos (flags o) || negb (wait_text (props o))
  || (GST_CLOCK_TIME_IS_VALID s && (ve o fr <? s))
  || (GST_CLOCK_TIME_IS_VALID p && (ve o fr <? p)).

(** The pass returned after pushing the frame as it is, and nothing else. *)
Definition is_unmodified_return (st : VideoStep) : bool :=
  match st with
  | VideoReturn _ _ [Pushed (Unmodified _)] => true
  | _ => false
  end.

(** What a step of the text chain function may do to the slot: leave the
    element as it is, or fill the empty slot, mark the cache dirty and
    broadcast. *)
Definition stores_only_into_empty (o : Overlay) (st : TextStep) : Prop :=
  match st with
  | TextWait o' _ _ => o' = o
  | TextReturn ret o' evs =>
      o' = o
      \/ (text_buffer o = None
          /\ (exists b', text_buffer o' = Some b')
          /\ need_render (cache o') = true
          /\ ret = GST_FLOW_OK
          /\ evs = [Broadcast])
  end.

(** The placed image lies inside the frame. *)
Definition within_frame (o : Overlay) (pos : Z * Z) : Prop :=
  0 <= fst pos /\ fst pos + image_width (cache o) <= width (info o)
  /\ 0 <= snd pos /\ snd pos + image_height (cache o) <= height (info o).


(** No other thread touches the element. *)
Definition undisturbed (o : Overlay) : Overlay := o.

(** The string the rasteriser gets for a text buffer: the data up to its
    size, invalid UTF-8 replaced by stars, escaped unless the element
    takes markup, cut before trailing line breaks, carriage returns and
    tabs turned into spaces; a blank for an empty text. *)
Definition shown_text (o : Overlay) (tb : GstBuffer) : string :=
  let in_text := data tb in
  let in_size := String.length in_text in
  let text :=
    if Nat.ltb 0 in_size then
      let in_text :=
        match g_utf8_validate in_text with
        | None => in_text
        | Some _ => replace_invalid in_size (nul_padded in_size in_text)
        end in
      if have_pango_markup (flags o) then g_strndup in_text (Z.of_nat in_size)
      else c_str (g_markup_escape_text in_text)
    else EmptyString in
  match text with
  | String _ _ =>
      g_strdelimit_cr_tab (g_strndup text (Z.of_nat (stripped_length text)))
  | EmptyString => " "%string
  end.

(** The composition that travels with an output. *)
Definition output_composition (out : Output) : option Composition :=
  match out with
  | Unmodified _ => None
  | WithOverlayMeta _ c | Blended _ _ c => Some c
  end.

(** The events of [gst_base_text_overlay_pop_text]. *)
Definition popped (o : Overlay) : list Event :=
  match text_buffer o with
  | Some b => [Unref b; Broadcast]
  | None => [Broadcast]
  end.


End Element.

(** ** A reference implementation of the collaborators

    Used to run the element on concrete inputs.  Segments follow
    [gstsegment.c]; doubles are fractions; the rasteriser produces the text
    itself as its image, eight by sixteen pixels per character; a frame can
    be mapped when it is not empty; downstream accepts every
    buffer. *)

Module Reference.

Record Fraction : Type := { num : Z; den : positive }.

Definition platform : Platform :=
  {| gdouble := Fraction; PangoLayout := list string; Image := string |}.

#[local] Existing Instance platform.

Definition one : Fraction := {| num := 1; den := 1 |}.
Definition half : Fraction := {| num := 1; den := 2 |}.

Definition segment_init (fmt : GstFormat) : GstSegment :=
  {| seg_format := fmt; seg_rate := one; seg_start := 0;
     seg_stop := GST_CLOCK_TIME_NONE; seg_time := 0; seg_position := 0;
     seg_base := 0; seg_offset := 0; seg_duration := GST_CLOCK_TIME_NONE |}.

Definition segment_clip (s : GstSegment) (fmt : GstFormat) (start stop : Z)
  : option (Z * Z) :=
  if negb (GstFormat_eqb (seg_format s) fmt) then None
  else if negb (seg_stop s =? GST_CLOCK_TIME_NONE)
          && negb (start =? GST_CLOCK_TIME_NONE)
          && ((seg_stop s <? start)
              || (negb (seg_start s =? seg_stop s) && (start =? seg_stop s)))
  then None
  else if negb (stop =? GST_CLOCK_TIME_NONE)
          && ((stop <? seg_start s)
              || (negb (start =? stop) && (stop =? seg_start s)))
  then None
  else
    Some (if start =? GST_CLOCK_TIME_NONE then GST_CLOCK_TIME_NONE
          else Z.max start (seg_start s),
          if stop =? GST_CLOCK_TIME_NONE then seg_stop s
          else if seg_stop s =? GST_CLOCK_TIME_NONE then stop
          else Z.min stop (seg_stop s)).

Definition segment_to_running_time (s : GstSegment) (fmt : GstFormat)
    (position : Z) : Z :=
  if position =? GST_CLOCK_TIME_NONE then GST_CLOCK_TIME_NONE
  else if negb (GstFormat_eqb (seg_format s) fmt) then GST_CLOCK_TIME_NONE
  else
    let start :=
      if 0 <? seg_offset s then wrap64 (seg_start s + seg_offset s)
      else seg_start s in
    if position <? start then GST_CLOCK_TIME_NONE
    else
      let rate := seg_rate s in
      let scaled (x : Z) := x * Zpos (den rate) / Z.abs (num rate) in
      if 0 <? num rate then
        if negb (seg_stop s =? GST_CLOCK_TIME_NONE) && (seg_stop s <? position)
        then GST_CLOCK_TIME_NONE
        else wrap64 (scaled (position - start) + seg_base s)
      else if (seg_stop s =? GST_CLOCK_TIME_NONE) || (seg_stop s <? position)
      then GST_CLOCK_TIME_NONE
      else wrap64 (scaled (seg_stop s - position) + seg_base s).

Definition uint64_scale_int (val n d : Z) : Z :=
  if (n <? 0) || (d <=? 0) then G_MAXUINT64
  else Z.min G_MAXUINT64 (val * n / d).

(** Bytes 1 to 127 are valid. *)
Fixpoint utf8_validate (s : string) : option nat :=
  match s with
  | EmptyString => None
  | String c r =>
      if (Nat.ltb 0 (nat_of_ascii c) && Nat.ltb (nat_of_ascii c) 128)%bool
      then option_map S (utf8_validate r)
      else Some O
  end.

Fixpoint markup_escape_text (s : string) : string :=
  match s with
  | EmptyString => EmptyString
  | String c r =>
      let r' := markup_escape_text r in
      if Ascii.eqb c "&"%char then ("&amp;" ++ r')%string
      else if Ascii.eqb c "<"%char then ("&lt;" ++ r')%string
      else if Ascii.eqb c ">"%char then ("&gt;" ++ r')%string
      else String c r'
  end.

Definition cairo_render (o : Overlay) (s : string) : Rendered :=
  {| r_image := s;
     r_width := 8 * Z.of_nat (String.length s);
     r_height := 16;
     r_baseline_y := 12;
     r_layout := layout (props o) |}.

Definition collaborators : Collaborators :=
  {| gst_segment_init := segment_init;
     gst_segment_clip := segment_clip;
     gst_segment_to_running_time := segment_to_running_time;
     gst_util_uint64_scale_int := uint64_scale_int;
     gst_pad_push := fun _ => GST_FLOW_OK;
     gst_pad_event_default := fun _ => true;
     parent_change_state := fun _ => true;
     gst_pad_check_reconfigure := fun _ => false;
     negotiated_attach := fun _ => false;
     gst_video_frame_map :=
       fun _ b => Nat.ltb 0 (String.length (data b));
     g_utf8_validate := utf8_validate;
     g_markup_escape_text := markup_escape_text;
     gint_of_scaled := fun n x => Z.quot (n * num x) (Zpos (den x));
     gdouble_zero := {| num := 0; den := 1 |};
     DEFAULT_PROP_XPOS := half;
     DEFAULT_PROP_YPOS := half;
     pango_layout_new := [];
     pango_layout_set_width := fun _ l => l;
     pango_layout_set_wrap := fun _ l => l;
     pango_layout_set_alignment := fun _ l => l;
     pango_layout_set_render_mode := fun _ _ l => l;
     pango_layout_set_font_description := fun d l => d :: l;
     pango_cairo_render := cairo_render;
     klass_get_text := Some (fun o _ => default_text (props o)) |}.

#[local] Existing Instance collaborators.

Definition ms (n : Z) : Z := n * 1000000.

(** A video frame with the given timestamps. *)
Definition frame (start dur : Z) : GstBuffer :=
  {| pts := start; duration := dur; data := "00000000" |}.

Definition text (start dur : Z) (s : string) : GstBuffer :=
  {| pts := start; duration := dur; data := s |}.

(** The element after the text pad is linked, the element has gone from
    READY to PAUSED, and caps for 640 x 480 video at 25 frames per second
    have been set. *)
Definition playing : Overlay :=
  let '(_, o, _) :=
    gst_base_text_overlay_change_state
      (gst_base_text_overlay_text_pad_link gst_base_text_overlay_init)
      GST_STATE_CHANGE_READY_TO_PAUSED in
  set_info {| width := 640; height := 480; fps_n := 25; fps_d := 1 |} o.

(** The locals of the video chain function for a buffer the video segment
    lets through. *)
Definition entered (o : Overlay) (buffer : GstBuffer) : VideoFrame :=
  match video_chain_enter o buffer with
  | Accepted fr => fr
  | Discarded _ _ =>
      {| vf_buffer := buffer; vf_start := 0; vf_stop := 0;
         vf_clip_start := 0 |}
  end.

(** The element a step of the text chain function leaves behind. *)
Definition after_text (st : TextStep) : Overlay :=
  match st with
  | TextReturn _ o _ => o
  | TextWait o _ _ => o
  end.

(** [playing] with a text buffer pending. *)
Definition holding (tb : GstBuffer) : Overlay :=
  after_text (gst_base_text_overlay_text_chain playing tb).

(** [playing] after a gap event on the text pad that ends at 500 ms. *)
Definition after_gap : Overlay :=
  snd (fst (gst_base_text_overlay_text_event playing
              (GST_EVENT_GAP 0 (ms 500)))).

(** [playing] with the text segment set to 100 ms .. 200 ms. *)
Definition text_window : Overlay :=
  snd (fst (gst_base_text_overlay_text_event playing
              (GST_EVENT_SEGMENT
                 {| seg_format := GST_FORMAT_TIME; seg_rate := one;
                    seg_start := ms 100; seg_stop := ms 200;
                    seg_time := ms 100; seg_position := ms 100;
                    seg_base := 0; seg_offset := 0;
                    seg_duration := GST_CLOCK_TIME_NONE |}))).

(** [playing] once "hi" has been rendered for a frame and is still
    pending. *)
Definition rendered : Overlay :=
  match
    video_chain_pass (holding (text 0 (ms 5000) "hi"))
      (entered playing (frame 0 (ms 1000)))
  with
  | VideoReturn _ o _ => o
  | VideoRetry o _ => o
  | VideoWait o => o
  end.

(** Left alignment with a padding of 630 pixels. *)
Definition padded_left : Overlay :=
  gst_base_text_overlay_set_property
    (gst_base_text_overlay_set_property rendered
       (PROP_HALIGNMENT GST_BASE_TEXT_OVERLAY_HALIGN_LEFT))
    (PROP_XPAD 630).

(** Positional alignment at the centre of the frame. *)
Definition positional : Overlay :=
  gst_base_text_overlay_set_property
    (gst_base_text_overlay_set_property rendered
       (PROP_HALIGNMENT GST_BASE_TEXT_OVERLAY_HALIGN_POS))
    (PROP_VALIGNMENT GST_BASE_TEXT_OVERLAY_VALIGN_POS).

(** The same, shifted right by 400 pixels. *)
Definition positional_shifted : Overlay :=
  gst_base_text_overlay_set_property positional (PROP_DELTAX 400).

End Reference.

(** * More of the element *)

Section ElementReadBack.

Context {P : Platform} {C : Collaborators}.

(** ** Reading properties *)




(** ** Vocabulary for strings *)

Fixpoint has_char (c : ascii) (s : string) : bool :=
  match s with
  | EmptyString => false
  | String a r => Ascii.eqb a c || has_char c r
  end.

Fixpoint last_char (s : string) : option ascii :=
  match s with
  | EmptyString => None
  | String a EmptyString => Some a
  | String _ r => last_char r
  end.

(** The string ends in a line feed or a carriage return. *)
Definition ends_in_line_break (s : string) : bool :=
  match last_char s with
  | Some a => Ascii.eqb a LF || Ascii.eqb a CR
  | None => false
  end.

(** ** Vocabulary for events *)

(** The five synchronisation flags; the sixth and seventh fields of
    [Flags] are negotiation results. *)
Definition sync_flags (o : Overlay) : bool * bool * bool * bool * bool :=
  (video_flushing (flags o), video_eos (flags o),
   text_flushing (flags o), text_eos (flags o), text_linked (flags o)).

(** The event hands the frame on: it is pushed downstream, as it is or
    composited, or it is released. *)
Definition hands_on (fr : VideoFrame) (e : Event) : Prop :=
  (exists out, e = Pushed out /\ output_frame out = vf_buffer fr)
  \/ e = Unref (vf_buffer fr).

(** The events of a returning pass on the element [o]: at most one
    rasterisation, then the one event that hands the frame on, then at
    most the release of the text buffer of the slot with its broadcast. *)
Definition frame_consumed (o : Overlay) (fr : VideoFrame)
    (evs : list Event) : Prop :=
  exists pre e post,
    evs = pre ++ e :: post
    /\ (pre = [] \/ exists s, pre = [Rasterize s])
    /\ hands_on fr e
    /\ (post = []
        \/ exists tb, text_buffer o = Some tb /\ post = [Unref tb; Broadcast]).

(** Exactly one event of the trace hands the frame on. *)
Definition handed_on_once (fr : VideoFrame) (evs : list Event) : Prop :=
  exists pre e post,
    evs = pre ++ e :: post
    /\ hands_on fr e
    /\ Forall (fun e' => ~ hands_on fr e') (pre ++ post).

(** What a pass of the video chain function may do to the streams: the
    synchronisation flags, the text segment and the video info stay, the
    video segment changes in its position at most, and the slot stays or
    is emptied with its buffer released and a broadcast. *)
Definition streams_kept (o o' : Overlay) (clip_start : Z) (evs : list Event)
  : Prop :=
  sync_flags o' = sync_flags o
  /\ text_segment o' = text_segment o
  /\ info o' = info o
  /\ (segment o' = segment o
      \/ segment o' = set_seg_position clip_start (segment o))
  /\ (text_buffer o' = text_buffer o
      \/ (text_buffer o' = None
          /\ exists tb, text_buffer o = Some tb
                       /\ In (Unref tb) evs /\ In Broadcast evs)).

End ElementReadBack.

(** * Shading the background box *)

(** ** Bytes of a video plane

    A plane is its list of bytes.  Reading or writing outside the plane is
    undefined in C; here a read gives 0 and a write is dropped, and the
    properties of the shaded values are stated for planes that hold the
    whole frame. *)

Definition peek (m : list Z) (i : Z) : Z :=
  if i <? 0 then 0 else nth (Z.to_nat i) m 0.

Fixpoint poke_nat (m : list Z) (i : nat) (v : Z) : list Z :=
  match m, i with
  | [], _ => []
  | _ :: r, O => v :: r
  | a :: r, S j => a :: poke_nat r j v
  end.

Definition poke (m : list Z) (i : Z) (v : Z) : list Z :=
  if i <? 0 then m else poke_nat m (Z.to_nat i) v.

(** [body] run [n] times on a counter that starts at [i] and grows by
    [step]. *)
Fixpoint repeat_from {A : Type} (n : nat) (i step : Z)
    (body : Z -> A -> A) (a : A) : A :=
  match n with
  | O => a
  | S m => repeat_from m (i + step) step body (body i a)
  end.

(** [for (i = i0; i < i1; ++i)]. *)
Definition for_lt {A : Type} (i0 i1 : Z) (body : Z -> A -> A) (a : A) : A :=
  repeat_from (Z.to_nat (i1 - i0)) i0 1 body a.

(** [for (i = i0; i < i1; i += 2)]. *)
Definition for_lt_by2 {A : Type} (i0 i1 : Z) (body : Z -> A -> A) (a : A)
  : A :=
  repeat_from (Z.to_nat ((i1 - i0 + 1) / 2)) i0 2 body a.

(** What the shading functions read of a [GstVideoFrame]: plane 0 with its
    stride, and for component 0 its offset inside a pixel, its pixel
    stride and its subsampling shifts. *)
Record GstVideoFrame : Type := {
  plane0 : list Z;
  stride0 : Z;
  comp0_poffset : Z;
  comp0_pstride : Z;
  comp0_w_sub : Z;
  comp0_h_sub : Z
}.

Definition set_plane0 (m : list Z) (f : GstVideoFrame) : GstVideoFrame :=
  {| plane0 := m; stride0 := stride0 f; comp0_poffset := comp0_poffset f;
     comp0_pstride := comp0_pstride f; comp0_w_sub := comp0_w_sub f;
     comp0_h_sub := comp0_h_sub f |}.

(** [GST_VIDEO_FORMAT_INFO_SCALE_WIDTH] and [_SCALE_HEIGHT]:
    [(-((-(gint)(x)) >> sub))]. *)
Definition GST_VIDEO_SUB_SCALE (sub x : Z) : Z := - Z.shiftr (- x) sub.

(** The formats [gst_base_text_overlay_shade_background] tells apart;
    [GST_VIDEO_FORMAT_OTHER] is any format that reaches its default
    branch. *)
Inductive GstVideoFormat : Type :=
| GST_VIDEO_FORMAT_I420 | GST_VIDEO_FORMAT_YV12 | GST_VIDEO_FORMAT_NV12
| GST_VIDEO_FORMAT_NV21 | GST_VIDEO_FORMAT_Y41B | GST_VIDEO_FORMAT_Y42B
| GST_VIDEO_FORMAT_Y444 | GST_VIDEO_FORMAT_YUV9 | GST_VIDEO_FORMAT_YVU9
| GST_VIDEO_FORMAT_GRAY8 | GST_VIDEO_FORMAT_A420
| GST_VIDEO_FORMAT_AYUV | GST_VIDEO_FORMAT_UYVY | GST_VIDEO_FORMAT_YUY2
| GST_VIDEO_FORMAT_v308
| GST_VIDEO_FORMAT_xRGB | GST_VIDEO_FORMAT_xBGR | GST_VIDEO_FORMAT_BGRx
| GST_VIDEO_FORMAT_RGBx
| GST_VIDEO_FORMAT_ARGB | GST_VIDEO_FORMAT_ABGR | GST_VIDEO_FORMAT_RGBA
| GST_VIDEO_FORMAT_BGRA
| GST_VIDEO_FORMAT_BGR | GST_VIDEO_FORMAT_RGB
| GST_VIDEO_FORMAT_IYU1
| GST_VIDEO_FORMAT_OTHER.

Definition BOX_XPAD : Z := 6.
Definition BOX_YPAD : Z := 6.

Section Shading.

Context {P : Platform}.

(** [y = dest_ptr[k] - overlay->shading_value;
     dest_ptr[k] = CLAMP (y, 0, 255);]
    The subtraction is done on [guint] and lands in a [gint]. *)
Definition shade_byte (o : Overlay) (k : Z) (m : list Z) : list Z :=
  let y := wrap32 (peek m k - shading_value (props o)) in
  poke m k (CLAMP y 0 255).

(** [tmp = *p + shading_val; *p = CLAMP (tmp, 0, 255);] with
    [shading_val = -overlay->shading_value]. *)
Definition shade_byte_at (o : Overlay) (p : Z) (m : list Z) : list Z :=
  let shading_val := wrap32 (- shading_value (props o)) in
  let tmp := wrap32 (peek m p + shading_val) in
  poke m p (CLAMP tmp 0 255).

Definition gst_base_text_overlay_shade_planar_Y
    (o : Overlay) (dest : GstVideoFrame) (x0 x1 y0 y1 : Z) : GstVideoFrame :=
  let dest_stride := stride0 dest in
  set_plane0
    (for_lt y0 y1
       (fun i =>
          for_lt x0 x1
            (fun j => shade_byte o (wrap32 (i * dest_stride + j))))
       (plane0 dest))
    dest.

Definition gst_base_text_overlay_shade_packed_Y
    (o : Overlay) (dest : GstVideoFrame) (x0 x1 y0 y1 : Z) : GstVideoFrame :=
  let dest_stride := stride0 dest in
  let pixel_stride := comp0_pstride dest in
  let x0 :=
    if negb (x0 =? 0) then GST_VIDEO_SUB_SCALE (comp0_w_sub dest) x0 else x0 in
  let x1 :=
    if negb (x1 =? 0) then GST_VIDEO_SUB_SCALE (comp0_w_sub dest) x1 else x1 in
  let y0 :=
    if negb (y0 =? 0) then GST_VIDEO_SUB_SCALE (comp0_h_sub dest) y0 else y0 in
  let y1 :=
    if negb (y1 =? 0) then GST_VIDEO_SUB_SCALE (comp0_h_sub dest) y1 else y1 in
  set_plane0
    (for_lt y0 y1
       (fun i =>
          for_lt x0 x1
            (fun j =>
               let y_pos := wrap32 (i * dest_stride + j * pixel_stride) in
               shade_byte o (comp0_poffset dest + y_pos)))
       (plane0 dest))
    dest.

(** The body shared by [gst_base_text_overlay_shade_xRGB] and the
    functions that [ARGB_SHADE_FUNCTION] defines: bytes [first] to
    [first + count - 1] of every pixel of the box. *)
Definition shade_pixel_bytes (first count : Z)
    (o : Overlay) (dest : GstVideoFrame) (x0 x1 y0 y1 : Z) : GstVideoFrame :=
  set_plane0
    (for_lt y0 y1
       (fun i =>
          for_lt x0 x1
            (fun j =>
               let y_pos := wrap32 (i * 4 * width (info o) + j * 4) in
               for_lt first (first + count)
                 (fun k => shade_byte o (y_pos + k))))
       (plane0 dest))
    dest.

Definition gst_base_text_overlay_shade_xRGB := shade_pixel_bytes 0 4.
Definition gst_base_text_overlay_shade_BGRx := gst_base_text_overlay_shade_xRGB.
Definition gst_base_text_overlay_shade_RGBx := gst_base_text_overlay_shade_xRGB.
Definition gst_base_text_overlay_shade_xBGR := gst_base_text_overlay_shade_xRGB.

(** [ARGB_SHADE_FUNCTION (name, OFFSET)]: [k] runs from [OFFSET] to
    [3 + OFFSET - 1]. *)
Definition ARGB_SHADE_FUNCTION (OFFSET : Z) := shade_pixel_bytes OFFSET 3.
Definition gst_base_text_overlay_shade_ARGB := ARGB_SHADE_FUNCTION 1.
Definition gst_base_text_overlay_shade_ABGR := ARGB_SHADE_FUNCTION 1.
Definition gst_base_text_overlay_shade_RGBA := ARGB_SHADE_FUNCTION 0.
Definition gst_base_text_overlay_shade_BGRA := ARGB_SHADE_FUNCTION 0.

(** The pointer [p] is carried along with the plane. *)
Definition gst_base_text_overlay_shade_rgb24
    (o : Overlay) (frame : GstVideoFrame) (x0 x1 y0 y1 : Z) : GstVideoFrame :=
  let pstride := 3 in
  let stride := stride0 frame in
  set_plane0
    (for_lt y0 y1
       (fun y m =>
          let p := wrap32 (y * stride + x0 * pstride) in
          snd (for_lt x0 x1
                 (fun _ '(p, m) =>
                    let m := shade_byte_at o p m in
                    let m := shade_byte_at o (p + 1) m in
                    let m := shade_byte_at o (p + 2) m in
                    (p + 3, m))
                 (p, m)))
       (plane0 frame))
    frame.

Definition gst_base_text_overlay_shade_IYU1
    (o : Overlay) (frame : GstVideoFrame) (x0 x1 y0 y1 : Z) : GstVideoFrame :=
  let stride := stride0 frame in
  set_plane0
    (for_lt y0 y1
       (fun y m =>
          (* move to Y0 or Y1 *)
          let p := wrap32 (y * stride + Z.quot x0 2 * 3 + 1) in
          snd (for_lt_by2 x0 x1
                 (fun _ '(p, m) =>
                    let m := shade_byte_at o p m in
                    let m := shade_byte_at o (p + 1) m in
                    (* skip chroma *)
                    (p + 3, m))
                 (p, m)))
       (plane0 frame))
    frame.

(** [overlay->format] is handed in as [format]. *)
Definition gst_base_text_overlay_shade_background
    (o : Overlay) (format : GstVideoFormat) (frame : GstVideoFrame)
    (x0 x1 y0 y1 : Z) : GstVideoFrame :=
  let x0 := CLAMP (wrap32 (x0 - BOX_XPAD)) 0 (width (info o)) in
  let x1 := CLAMP (wrap32 (x1 + BOX_XPAD)) 0 (width (info o)) in
  let y0 := CLAMP (wrap32 (y0 - BOX_YPAD)) 0 (height (info o)) in
  let y1 := CLAMP (wrap32 (y1 + BOX_YPAD)) 0 (height (info o)) in
  match format with
  | GST_VIDEO_FORMAT_I420 | GST_VIDEO_FORMAT_YV12 | GST_VIDEO_FORMAT_NV12
  | GST_VIDEO_FORMAT_NV21 | GST_VIDEO_FORMAT_Y41B | GST_VIDEO_FORMAT_Y42B
  | GST_VIDEO_FORMAT_Y444 | GST_VIDEO_FORMAT_YUV9 | GST_VIDEO_FORMAT_YVU9
  | GST_VIDEO_FORMAT_GRAY8 | GST_VIDEO_FORMAT_A420 =>
      gst_base_text_overlay_shade_planar_Y o frame x0 x1 y0 y1
  | GST_VIDEO_FORMAT_AYUV | GST_VIDEO_FORMAT_UYVY | GST_VIDEO_FORMAT_YUY2
  | GST_VIDEO_FORMAT_v308 =>
      gst_base_text_overlay_shade_packed_Y o frame x0 x1 y0 y1
  | GST_VIDEO_FORMAT_xRGB =>
      gst_base_text_overlay_shade_xRGB o frame x0 x1 y0 y1
  | GST_VIDEO_FORMAT_xBGR =>
      gst_base_text_overlay_shade_xBGR o frame x0 x1 y0 y1
  | GST_VIDEO_FORMAT_BGRx =>
      gst_base_text_overlay_shade_BGRx o frame x0 x1 y0 y1
  | GST_VIDEO_FORMAT_RGBx =>
      gst_base_text_overlay_shade_RGBx o frame x0 x1 y0 y1
  | GST_VIDEO_FORMAT_ARGB =>
      gst_base_text_overlay_shade_ARGB o frame x0 x1 y0 y1
  | GST_VIDEO_FORMAT_ABGR =>
      gst_base_text_overlay_shade_ABGR o frame x0 x1 y0 y1
  | GST_VIDEO_FORMAT_RGBA =>
      gst_base_text_overlay_shade_RGBA o frame x0 x1 y0 y1
  | GST_VIDEO_FORMAT_BGRA =>
      gst_base_text_overlay_shade_BGRA o frame x0 x1 y0 y1
  | GST_VIDEO_FORMAT_BGR | GST_VIDEO_FORMAT_RGB =>
      gst_base_text_overlay_shade_rgb24 o frame x0 x1 y0 y1
  | GST_VIDEO_FORMAT_IYU1 =>
      gst_base_text_overlay_shade_IYU1 o frame x0 x1 y0 y1
  | GST_VIDEO_FORMAT_OTHER => frame
  end.

(** ** Vocabulary for shading *)

(** Every byte of the plane is a [guint8]. *)
Definition bytes (m : list Z) : Prop := Forall (fun b => 0 <= b <= 255) m.

(** The formats shaded by [gst_base_text_overlay_shade_planar_Y]. *)
Definition is_planar_Y (format : GstVideoFormat) : bool :=
  match format with
  | GST_VIDEO_FORMAT_I420 | GST_VIDEO_FORMAT_YV12 | GST_VIDEO_FORMAT_NV12
  | GST_VIDEO_FORMAT_NV21 | GST_VIDEO_FORMAT_Y41B | GST_VIDEO_FORMAT_Y42B
  | GST_VIDEO_FORMAT_Y444 | GST_VIDEO_FORMAT_YUV9 | GST_VIDEO_FORMAT_YVU9
  | GST_VIDEO_FORMAT_GRAY8 | GST_VIDEO_FORMAT_A420 => true
  | _ => false
  end.

(** The formats with pixels of four bytes, shaded by
    [gst_base_text_overlay_shade_xRGB] and by the functions that
    [ARGB_SHADE_FUNCTION] defines. *)
Definition is_pixel32 (format : GstVideoFormat) : bool :=
  match format with
  | GST_VIDEO_FORMAT_xRGB | GST_VIDEO_FORMAT_xBGR | GST_VIDEO_FORMAT_BGRx
  | GST_VIDEO_FORMAT_RGBx
  | GST_VIDEO_FORMAT_ARGB | GST_VIDEO_FORMAT_ABGR | GST_VIDEO_FORMAT_RGBA
  | GST_VIDEO_FORMAT_BGRA => true
  | _ => false
  end.

(** The bytes of plane 0 that the shading function takes the frame to
    occupy: [height] rows of [stride0] bytes for the planar formats,
    [height] rows of [4 * width] bytes for the formats with pixels of four
    bytes, whose offsets the code computes from the width. *)
Definition frame_bytes (o : Overlay) (format : GstVideoFormat)
    (frame : GstVideoFrame) : Z :=
  if is_planar_Y format then stride0 frame * height (info o)
  else if is_pixel32 format then 4 * width (info o) * height (info o)
  else 0.

(** Plane 0 holds the whole frame, so that no read or write of the shading
    function falls outside it: the case in which [peek] and [poke] are
    what the C code does.  Stated for the planar formats, the formats with
    pixels of four bytes, and the formats that are not shaded. *)
Definition plane_holds_frame (o : Overlay) (format : GstVideoFormat)
    (frame : GstVideoFrame) : Prop :=
  (is_planar_Y format = true \/ is_pixel32 format = true
   \/ format = GST_VIDEO_FORMAT_OTHER)
  /\ 0 <= width (info o) /\ 0 <= height (info o)
  /\ (is_planar_Y format = true -> width (info o) <= stride0 frame)
  /\ frame_bytes o format frame <= Z.of_nat (List.length (plane0 frame))
  /\ Z.of_nat (List.length (plane0 frame)) < 2 ^ 31.

(** Pixel ([row], [col]) lies in the box [x0, x1) x [y0, y1) widened by the
    box padding and cut to the frame. *)
Definition in_shaded_box (o : Overlay) (x0 x1 y0 y1 row col : Z) : bool :=
  (Z.max 0 (x0 - BOX_XPAD) <=? col)
  && (col <? Z.min (width (info o)) (x1 + BOX_XPAD))
  && (Z.max 0 (y0 - BOX_YPAD) <=? row)
  && (row <? Z.min (height (info o)) (y1 + BOX_YPAD)).

End Shading.

(** * The audio converter

    The construction of a converter: which processing chains it links
    together, what each chain may do in place, and where each chain gets
    its sample memory from. *)

Inductive GstAudioLayout : Type :=
| GST_AUDIO_LAYOUT_INTERLEAVED
| GST_AUDIO_LAYOUT_NON_INTERLEAVED.

Definition GstAudioLayout_eqb (a b : GstAudioLayout) : bool :=
  match a, b with
  | GST_AUDIO_LAYOUT_INTERLEAVED, GST_AUDIO_LAYOUT_INTERLEAVED
  | GST_AUDIO_LAYOUT_NON_INTERLEAVED, GST_AUDIO_LAYOUT_NON_INTERLEAVED => true
  | _, _ => false
  end.

(** The function a chain runs to make its samples. *)
Inductive AudioChainFunc : Type :=
| DO_UNPACK
| DO_CONVERT_IN
| DO_MIX
| DO_CONVERT_OUT
| DO_QUANTIZE.

(** The function a chain asks for sample memory. *)
Inductive AudioChainAllocFunc : Type :=
| GET_OUTPUT_SAMPLES
| GET_TEMP_SAMPLES.

(** The two conversions between the intermediate formats. *)
Inductive AudioConvertFunc : Type :=
| audio_orc_s32_to_double
| audio_orc_double_to_s32.

(** Types of the audio library and of GStreamer core that the converter
    only passes around. *)
Class AudioTypes : Type := {
  GstAudioFormat : Type;
  GstAudioFormat_eq_dec : forall a b : GstAudioFormat, {a = b} + {a <> b};
  GST_AUDIO_FORMAT_UNKNOWN : GstAudioFormat;
  GST_AUDIO_FORMAT_S32 : GstAudioFormat;
  GST_AUDIO_FORMAT_F64 : GstAudioFormat;
  GstAudioChannelPosition : Type;
  GstStructure : Type;
  GstStructureField : Type;
  GType : Type
}.

Section AudioConverter.

Context {T : AudioTypes}.

Definition GstAudioFormat_eqb (a b : GstAudioFormat) : bool :=
  if GstAudioFormat_eq_dec a b then true else false.

Record GstAudioFormatInfo : Type := {
  finfo_format : GstAudioFormat;
  finfo_is_integer : bool;          (* GST_AUDIO_FORMAT_INFO_IS_INTEGER *)
  finfo_width : Z;
  finfo_depth : Z;
  finfo_unpack_format : GstAudioFormat
}.

Record GstAudioInfo : Type := {
  ai_finfo : GstAudioFormatInfo;
  ai_layout : GstAudioLayout;
  ai_rate : Z;
  ai_channels : Z;
  ai_unpositioned : bool;           (* GST_AUDIO_INFO_IS_UNPOSITIONED *)
  ai_position : list GstAudioChannelPosition
}.

(** The arguments [gst_audio_channel_mix_new] is called with. *)
Record GstAudioChannelMix : Type := {
  mix_unpositioned_in : bool;
  mix_unpositioned_out : bool;
  mix_format : GstAudioFormat;
  mix_in_channels : Z;
  mix_in_position : list GstAudioChannelPosition;
  mix_out_channels : Z;
  mix_out_position : list GstAudioChannelPosition
}.

(** The arguments [gst_audio_quantize_new] is called with. *)
Record GstAudioQuantize : Type := {
  quant_dither : Z;
  quant_ns : Z;
  quant_flags : Z;
  quant_format : GstAudioFormat;
  quant_channels : Z;
  quant_quantizer : Z
}.

(** [struct _AudioChain].  The [prev] pointer is the rest of the list a
    chain sits in; [tmp] holds the block pointers as offsets into the
    allocation they point into.  [make_func_data] and [alloc_data] are
    always the converter and [make_func_notify] is always NULL; [samples]
    belongs to a conversion in flight. *)
Record AudioChain : Type := {
  make_func : option AudioChainFunc;
  stride : Z;
  inc : Z;
  blocks : Z;
  pass_alloc : bool;
  allow_ip : bool;
  alloc_func : option AudioChainAllocFunc;
  tmpsize : Z;
  tmp : list Z
}.

Definition set_make_func (v : option AudioChainFunc) (r : AudioChain) : AudioChain :=
  {| make_func := v; stride := stride r; inc := inc r; blocks := blocks r;
     pass_alloc := pass_alloc r; allow_ip := allow_ip r;
     alloc_func := alloc_func r; tmpsize := tmpsize r; tmp := tmp r |}.
Definition set_pass_alloc (v : bool) (r : AudioChain) : AudioChain :=
  {| make_func := make_func r; stride := stride r; inc := inc r;
     blocks := blocks r; pass_alloc := v; allow_ip := allow_ip r;
     alloc_func := alloc_func r; tmpsize := tmpsize r; tmp := tmp r |}.
Definition set_allow_ip (v : bool) (r : AudioChain) : AudioChain :=
  {| make_func := make_func r; stride := stride r; inc := inc r;
     blocks := blocks r; pass_alloc := pass_alloc r; allow_ip := v;
     alloc_func := alloc_func r; tmpsize := tmpsize r; tmp := tmp r |}.
Definition set_alloc_func (v : option AudioChainAllocFunc) (r : AudioChain) : AudioChain :=
  {| make_func := make_func r; stride := stride r; inc := inc r;
     blocks := blocks r; pass_alloc := pass_alloc r; allow_ip := allow_ip r;
     alloc_func := v; tmpsize := tmpsize r; tmp := tmp r |}.
Definition set_tmpsize (v : Z) (r : AudioChain) : AudioChain :=
  {| make_func := make_func r; stride := stride r; inc := inc r;
     blocks := blocks r; pass_alloc := pass_alloc r; allow_ip := allow_ip r;
     alloc_func := alloc_func r; tmpsize := v; tmp := tmp r |}.
Definition set_tmp (v : list Z) (r : AudioChain) : AudioChain :=
  {| make_func := make_func r; stride := stride r; inc := inc r;
     blocks := blocks r; pass_alloc := pass_alloc r; allow_ip := allow_ip r;
     alloc_func := alloc_func r; tmpsize := tmpsize r; tmp := v |}.

(** [struct _GstAudioConverter], without the flags and the sample
    pointers of a conversion in flight and without [unpack_ip], which
    nothing reads or writes.  [pack_chain] is the last chain followed by
    the chains reached from it through [prev]; the other chain pointers of
    the structure point into that list. *)
Record GstAudioConverter : Type := {
  conv_in : GstAudioInfo;
  conv_out : GstAudioInfo;
  config : GstStructure;
  current_format : GstAudioFormat;
  current_layout : GstAudioLayout;
  current_channels : Z;
  in_default : bool;
  convert_in : option AudioConvertFunc;
  mix_passthrough : bool;
  mix : option GstAudioChannelMix;
  convert_out : option AudioConvertFunc;
  quant : option GstAudioQuantize;
  out_default : bool;
  pack_chain : list AudioChain;
  passthrough : bool
}.

Definition set_config (v : GstStructure) (r : GstAudioConverter) : GstAudioConverter :=
  {| conv_in := conv_in r; conv_out := conv_out r; config := v;
     current_format := current_format r; current_layout := current_layout r;
     current_channels := current_channels r; in_default := in_default r;
     convert_in := convert_in r; mix_passthrough := mix_passthrough r;
     mix := mix r; convert_out := convert_out r; quant := quant r;
     out_default := out_default r; pack_chain := pack_chain r;
     passthrough := passthrough r |}.
Definition set_current_format (v : GstAudioFormat) (r : GstAudioConverter) : GstAudioConverter :=
  {| conv_in := conv_in r; conv_out := conv_out r; config := config r;
     current_format := v; current_layout := current_layout r;
     current_channels := current_channels r; in_default := in_default r;
     convert_in := convert_in r; mix_passthrough := mix_passthrough r;
     mix := mix r; convert_out := convert_out r; quant := quant r;
     out_default := out_default r; pack_chain := pack_chain r;
     passthrough := passthrough r |}.
Definition set_current_layout (v : GstAudioLayout) (r : GstAudioConverter) : GstAudioConverter :=
  {| conv_in := conv_in r; conv_out := conv_out r; config := config r;
     current_format := current_format r; current_layout := v;
     current_channels := current_channels r; in_default := in_default r;
     convert_in := convert_in r; mix_passthrough := mix_passthrough r;
     mix := mix r; convert_out := convert_out r; quant := quant r;
     out_default := out_default r; pack_chain := pack_chain r;
     passthrough := passthrough r |}.
Definition set_current_channels (v : Z) (r : GstAudioConverter) : GstAudioConverter :=
  {| conv_in := conv_in r; conv_out := conv_out r; config := config r;
     current_format := current_format r; current_layout := current_layout r;
     current_channels := v; in_default := in_default r;
     convert_in := convert_in r; mix_passthrough := mix_passthrough r;
     mix := mix r; convert_out := convert_out r; quant := quant r;
     out_default := out_default r; pack_chain := pack_chain r;
     passthrough := passthrough r |}.
Definition set_in_default (v : bool) (r : GstAudioConverter) : GstAudioConverter :=
  {| conv_in := conv_in r; conv_out := conv_out r; config := config r;
     current_format := current_format r; current_layout := current_layout r;
     current_channels := current_channels r; in_default := v;
     convert_in := convert_in r; mix_passthrough := mix_passthrough r;
     mix := mix r; convert_out := convert_out r; quant := quant r;
     out_default := out_default r; pack_chain := pack_chain r;
     passthrough := passthrough r |}.
Definition set_convert_in (v : option AudioConvertFunc) (r : GstAudioConverter) : GstAudioConverter :=
  {| conv_in := conv_in r; conv_out := conv_out r; config := config r;
     current_format := current_format r; current_layout := current_layout r;
     current_channels := current_channels r; in_default := in_default r;
     convert_in := v; mix_passthrough := mix_passthrough r; mix := mix r;
     convert_out := convert_out r; quant := quant r;
     out_default := out_default r; pack_chain := pack_chain r;
     passthrough := passthrough r |}.
Definition set_mix_passthrough (v : bool) (r : GstAudioConverter) : GstAudioConverter :=
  {| conv_in := conv_in r; conv_out := conv_out r; config := config r;
     current_format := current_format r; current_layout := current_layout r;
     current_channels := current_channels r; in_default := in_default r;
     convert_in := convert_in r; mix_passthrough := v; mix := mix r;
     convert_out := convert_out r; quant := quant r;
     out_default := out_default r; pack_chain := pack_chain r;
     passthrough := passthrough r |}.
Definition set_mix (v : option GstAudioChannelMix) (r : GstAudioConverter) : GstAudioConverter :=
  {| conv_in := conv_in r; conv_out := conv_out r; config := config r;
     current_format := current_format r; current_layout := current_layout r;
     current_channels := current_channels r; in_default := in_default r;
     convert_in := convert_in r; mix_passthrough := mix_passthrough r;
     mix := v; convert_out := convert_out r; quant := quant r;
     out_default := out_default r; pack_chain := pack_chain r;
     passthrough := passthrough r |}.
Definition set_convert_out (v : option AudioConvertFunc) (r : GstAudioConverter) : GstAudioConverter :=
  {| conv_in := conv_in r; conv_out := conv_out r; config := config r;
     current_format := current_format r; current_layout := current_layout r;
     current_channels := current_channels r; in_default := in_default r;
     convert_in := convert_in r; mix_passthrough := mix_passthrough r;
     mix := mix r; convert_out := v; quant := quant r;
     out_default := out_default r; pack_chain := pack_chain r;
     passthrough := passthrough r |}.
Definition set_quant (v : option GstAudioQuantize) (r : GstAudioConverter) : GstAudioConverter :=
  {| conv_in := conv_in r; conv_out := conv_out r; config := config r;
     current_format := current_format r; current_layout := current_layout r;
     current_channels := current_channels r; in_default := in_default r;
     convert_in := convert_in r; mix_passthrough := mix_passthrough r;
     mix := mix r; convert_out := convert_out r; quant := v;
     out_default := out_default r; pack_chain := pack_chain r;
     passthrough := passthrough r |}.
Definition set_out_default (v : bool) (r : GstAudioConverter) : GstAudioConverter :=
  {| conv_in := conv_in r; conv_out := conv_out r; config := config r;
     current_format := current_format r; current_layout := current_layout r;
     current_channels := current_channels r; in_default := in_default r;
     convert_in := convert_in r; mix_passthrough := mix_passthrough r;
     mix := mix r; convert_out := convert_out r; quant := quant r;
     out_default := v; pack_chain := pack_chain r;
     passthrough := passthrough r |}.
Definition set_pack_chain (v : list AudioChain) (r : GstAudioConverter) : GstAudioConverter :=
  {| conv_in := conv_in r; conv_out := conv_out r; config := config r;
     current_format := current_format r; current_layout := current_layout r;
     current_channels := current_channels r; in_default := in_default r;
     convert_in := convert_in r; mix_passthrough := mix_passthrough r;
     mix := mix r; convert_out := convert_out r; quant := quant r;
     out_default := out_default r; pack_chain := v;
     passthrough := passthrough r |}.
Definition set_passthrough (v : bool) (r : GstAudioConverter) : GstAudioConverter :=
  {| conv_in := conv_in r; conv_out := conv_out r; config := config r;
     current_format := current_format r; current_layout := current_layout r;
     current_channels := current_channels r; in_default := in_default r;
     convert_in := convert_in r; mix_passthrough := mix_passthrough r;
     mix := mix r; convert_out := convert_out r; quant := quant r;
     out_default := out_default r; pack_chain := pack_chain r;
     passthrough := v |}.

(** Functions and constants of the audio library and of GStreamer core. *)
Class AudioCollaborators : Type := {
  gst_audio_format_get_info : GstAudioFormat -> GstAudioFormatInfo;
  gst_audio_channel_mix_is_passthrough : GstAudioChannelMix -> bool;
  gst_structure_new_empty : string -> GstStructure;
  gst_structure_fields : GstStructure -> list GstStructureField;
  gst_structure_id_set_value :
    GstStructure -> GstStructureField -> GstStructure;
  gst_structure_get_enum : GstStructure -> string -> GType -> option Z;
  GST_AUDIO_CONVERTER_OPT_DITHER_METHOD : string;
  GST_AUDIO_CONVERTER_OPT_NOISE_SHAPING_METHOD : string;
  GST_TYPE_AUDIO_DITHER_METHOD : GType;
  GST_TYPE_AUDIO_NOISE_SHAPING_METHOD : GType;
  GST_AUDIO_DITHER_NONE : Z;
  GST_AUDIO_NOISE_SHAPING_NONE : Z;
  GST_AUDIO_NOISE_SHAPING_ERROR_FEEDBACK : Z;
  sizeof_gpointer : Z
}.

Context {A : AudioCollaborators}.

(** The chain put in front of [prev].  [g_slice_new0] zeroes what is not
    assigned. *)
Definition audio_chain_new (convert : GstAudioConverter) : AudioChain :=
  let '(inc, blocks) :=
    match current_layout convert with
    | GST_AUDIO_LAYOUT_NON_INTERLEAVED => (1, current_channels convert)
    | GST_AUDIO_LAYOUT_INTERLEAVED => (current_channels convert, 1)
    end in
  let finfo := gst_audio_format_get_info (current_format convert) in
  {| make_func := None;
     stride := Z.quot (wrap32 (finfo_width finfo * inc)) 8;
     inc := inc; blocks := blocks;
     pass_alloc := false; allow_ip := false; alloc_func := None;
     tmpsize := 0; tmp := [] |}.

Definition audio_chain_set_make_func
    (chain : AudioChain) (make_func : AudioChainFunc) : AudioChain :=
  set_make_func (Some make_func) chain.

Definition get_opt_enum
    (convert : GstAudioConverter) (opt : string) (type : GType) (def : Z) : Z :=
  match gst_structure_get_enum (config convert) opt type with
  | Some res => res
  | None => def
  end.

Definition DEFAULT_OPT_DITHER_METHOD : Z := GST_AUDIO_DITHER_NONE.
Definition DEFAULT_OPT_NOISE_SHAPING_METHOD : Z := GST_AUDIO_NOISE_SHAPING_NONE.

Definition GET_OPT_DITHER_METHOD (c : GstAudioConverter) : Z :=
  get_opt_enum c GST_AUDIO_CONVERTER_OPT_DITHER_METHOD
    GST_TYPE_AUDIO_DITHER_METHOD DEFAULT_OPT_DITHER_METHOD.

Definition GET_OPT_NOISE_SHAPING_METHOD (c : GstAudioConverter) : Z :=
  get_opt_enum c GST_AUDIO_CONVERTER_OPT_NOISE_SHAPING_METHOD
    GST_TYPE_AUDIO_NOISE_SHAPING_METHOD DEFAULT_OPT_NOISE_SHAPING_METHOD.

Definition copy_config (convert : GstAudioConverter)
    (field : GstStructureField) : GstAudioConverter :=
  set_config (gst_structure_id_set_value (config convert) field) convert.

(** [gst_structure_foreach (config, copy_config, convert)]; the return
    value is TRUE. *)
Definition gst_audio_converter_set_config
    (convert : GstAudioConverter) (new_config : GstStructure)
  : bool * GstAudioConverter :=
  (true, fold_left copy_config (gst_structure_fields new_config) convert).

Definition gst_audio_converter_get_config (convert : GstAudioConverter)
  : GstStructure :=
  config convert.

(** The chain builders take the converter and the chain built so far, and
    give both back. *)
Definition chain_unpack (convert : GstAudioConverter)
  : GstAudioConverter * list AudioChain :=
  let in_ := conv_in convert in
  let convert := set_current_format (finfo_unpack_format (ai_finfo in_)) convert in
  let convert := set_current_layout (ai_layout in_) convert in
  let convert := set_current_channels (ai_channels in_) convert in
  let convert :=
    set_in_default
      (GstAudioFormat_eqb (finfo_unpack_format (ai_finfo in_))
         (finfo_format (ai_finfo in_))) convert in
  let fup := gst_audio_format_get_info (finfo_unpack_format (ai_finfo in_)) in
  let prev := audio_chain_new convert in
  let prev :=
    set_allow_ip (finfo_width fup <=? finfo_width (ai_finfo in_)) prev in
  let prev := set_pass_alloc false prev in
  let prev := audio_chain_set_make_func prev DO_UNPACK in
  (convert, [prev]).

Definition chain_convert_in
    (convert : GstAudioConverter) (prev : list AudioChain)
  : GstAudioConverter * list AudioChain :=
  let in_int := finfo_is_integer (ai_finfo (conv_in convert)) in
  let out_int := finfo_is_integer (ai_finfo (conv_out convert)) in
  if in_int && negb out_int then
    let convert := set_convert_in (Some audio_orc_s32_to_double) convert in
    let convert := set_current_format GST_AUDIO_FORMAT_F64 convert in
    let chain := audio_chain_new convert in
    let chain := set_allow_ip false chain in
    let chain := set_pass_alloc false chain in
    let chain := audio_chain_set_make_func chain DO_CONVERT_IN in
    (convert, chain :: prev)
  else (convert, prev).

Definition chain_mix (convert : GstAudioConverter) (prev : list AudioChain)
  : GstAudioConverter * list AudioChain :=
  let in_ := conv_in convert in
  let out := conv_out convert in
  let format := current_format convert in
  let convert := set_current_channels (ai_channels out) convert in
  let m :=
    {| mix_unpositioned_in := ai_unpositioned in_;
       mix_unpositioned_out := ai_unpositioned out;
       mix_format := format;
       mix_in_channels := ai_channels in_;
       mix_in_position := ai_position in_;
       mix_out_channels := ai_channels out;
       mix_out_position := ai_position out |} in
  let convert := set_mix (Some m) convert in
  let convert :=
    set_mix_passthrough (gst_audio_channel_mix_is_passthrough m) convert in
  if negb (mix_passthrough convert) then
    let chain := audio_chain_new convert in
    (* we can only do in-place when in >= out, else we don't have enough
       memory. *)
    let chain := set_allow_ip (ai_channels out <=? ai_channels in_) chain in
    let chain := set_pass_alloc (ai_channels in_ <=? ai_channels out) chain in
    let chain := audio_chain_set_make_func chain DO_MIX in
    (convert, chain :: prev)
  else (convert, prev).

Definition chain_convert_out
    (convert : GstAudioConverter) (prev : list AudioChain)
  : GstAudioConverter * list AudioChain :=
  let in_int := finfo_is_integer (ai_finfo (conv_in convert)) in
  let out_int := finfo_is_integer (ai_finfo (conv_out convert)) in
  if negb in_int && out_int then
    let convert := set_convert_out (Some audio_orc_double_to_s32) convert in
    let convert := set_current_format GST_AUDIO_FORMAT_S32 convert in
    let chain := audio_chain_new convert in
    let chain := set_allow_ip true chain in
    let chain := set_pass_alloc false chain in
    let chain := audio_chain_set_make_func chain DO_CONVERT_OUT in
    (convert, chain :: prev)
  else (convert, prev).

Definition chain_quantize
    (convert : GstAudioConverter) (prev : list AudioChain)
  : GstAudioConverter * list AudioChain :=
  let in_ := conv_in convert in
  let out := conv_out convert in
  let dither := GET_OPT_DITHER_METHOD convert in
  let ns := GET_OPT_NOISE_SHAPING_METHOD convert in
  let in_depth := finfo_depth (ai_finfo in_) in
  let out_depth := finfo_depth (ai_finfo out) in
  let in_int := finfo_is_integer (ai_finfo in_) in
  let out_int := finfo_is_integer (ai_finfo out) in
  (* Don't dither or apply noise shaping if target depth is bigger than 20
     bits as DA converters only can do a SNR up to 20 bits in reality.
     Also don't dither or apply noise shaping if target depth is larger
     than source depth. *)
  let '(dither, ns) :=
    if (20 <? out_depth) || (in_int && (in_depth <=? out_depth)) then
      (GST_AUDIO_DITHER_NONE, GST_AUDIO_NOISE_SHAPING_NONE)
    else
      (* Use simple error feedback when output sample rate is smaller than
         32000 as the other methods might move the noise to audible
         ranges *)
      if (GST_AUDIO_NOISE_SHAPING_ERROR_FEEDBACK <? ns)
         && (ai_rate out <? 32000)
      then (dither, GST_AUDIO_NOISE_SHAPING_ERROR_FEEDBACK)
      else (dither, ns) in
  (* we still want to run the quantization step when reducing bits to get
     the rounding correct; [1U << (32 - out_depth)] is an unsigned 32-bit
     shift, which C leaves undefined for a depth of 0 or less *)
  if out_int && (out_depth <? 32) then
    let q :=
      {| quant_dither := dither; quant_ns := ns; quant_flags := 0;
         quant_format := current_format convert;
         quant_channels := ai_channels out;
         quant_quantizer := Z.shiftl 1 (32 - out_depth) mod 2 ^ 32 |} in
    let convert := set_quant (Some q) convert in
    let chain := audio_chain_new convert in
    let chain := set_allow_ip true chain in
    let chain := set_pass_alloc true chain in
    let chain := audio_chain_set_make_func chain DO_QUANTIZE in
    (convert, chain :: prev)
  else (convert, prev).

(** [None] when the [g_assert] fails. *)
Definition chain_pack (convert : GstAudioConverter) (prev : list AudioChain)
  : option (GstAudioConverter * list AudioChain) :=
  let out := conv_out convert in
  let format := current_format convert in
  let convert := set_current_format (finfo_format (ai_finfo out)) convert in
  if negb (GstAudioFormat_eqb (finfo_unpack_format (ai_finfo out)) format)
  then None
  else
    let convert :=
      set_out_default
        (GstAudioFormat_eqb format (finfo_format (ai_finfo out))) convert in
    Some (convert, prev).

(** The walk of [setup_allocators] from a chain backwards through
    [prev]. *)
Fixpoint setup_allocators_from
    (alloc : AudioChainAllocFunc) (allow : bool) (chains : list AudioChain)
  : list AudioChain :=
  match chains with
  | [] => []
  | chain :: prev =>
      let chain' :=
        set_allow_ip (allow && allow_ip chain)
          (set_alloc_func (Some alloc) chain) in
      let '(alloc, allow) :=
        if negb (pass_alloc chain) then
          (* can't pass allocator, make new temp line allocator *)
          (GET_TEMP_SAMPLES, true)
        else (alloc, allow) in
      chain' :: setup_allocators_from alloc allow prev
  end.

Definition setup_allocators (convert : GstAudioConverter)
  : GstAudioConverter :=
  (* start with using dest if we can directly write into it *)
  let '(alloc, allow) :=
    if out_default convert then (GET_OUTPUT_SAMPLES, false)
    else (GET_TEMP_SAMPLES, true) in
  (* now walk backwards, we try to write into the dest samples directly
     and keep track if the source needs to be writable *)
  set_pack_chain (setup_allocators_from alloc allow (pack_chain convert))
    convert.

(** How [gst_audio_converter_new] ends: with a converter, with NULL (from
    a failed [g_return_val_if_fail] or from [unpositioned]), or in the
    [g_assert] of [chain_pack]. *)
Inductive ConverterNew : Type :=
| NewConverter (convert : GstAudioConverter)
| NewNull
| NewAssertionFailed.

Definition gst_audio_converter_new
    (in_ out : GstAudioInfo) (new_config : option GstStructure)
  : ConverterNew :=
  if negb (ai_rate in_ =? ai_rate out) then NewNull
  else if negb (GstAudioLayout_eqb (ai_layout in_)
                  GST_AUDIO_LAYOUT_INTERLEAVED) then NewNull
  else if negb (GstAudioLayout_eqb (ai_layout in_) (ai_layout out))
  then NewNull
  else if negb (ai_channels in_ =? ai_channels out)
          && (ai_unpositioned in_ || ai_unpositioned out)
  then NewNull                                            (* unpositioned *)
  else
    let convert :=
      {| conv_in := in_; conv_out := out;
         (* default config *)
         config := gst_structure_new_empty "GstAudioConverter";
         current_format := GST_AUDIO_FORMAT_UNKNOWN;
         current_layout := GST_AUDIO_LAYOUT_INTERLEAVED;
         current_channels := 0;
         in_default := false; convert_in := None;
         mix_passthrough := false; mix := None; convert_out := None;
         quant := None; out_default := false; pack_chain := [];
         passthrough := false |} in
    let convert :=
      match new_config with
      | Some c => snd (gst_audio_converter_set_config convert c)
      | None => convert
      end in
    (* step 1, unpack *)
    let '(convert, prev) := chain_unpack convert in
    (* step 2, optional convert from S32 to F64 for channel mix *)
    let '(convert, prev) := chain_convert_in convert prev in
    (* step 3, channel mix *)
    let '(convert, prev) := chain_mix convert prev in
    (* step 4, optional convert for quantize *)
    let '(convert, prev) := chain_convert_out convert prev in
    (* step 5, optional quantize *)
    let '(convert, prev) := chain_quantize convert prev in
    (* step 6, pack *)
    match chain_pack convert prev with
    | None => NewAssertionFailed
    | Some (convert, prev) =>
        let convert := set_pack_chain prev convert in
        (* optimize *)
        let convert :=
          if GstAudioFormat_eqb (finfo_format (ai_finfo out))
               (finfo_format (ai_finfo in_))
             && mix_passthrough convert
          then set_passthrough true convert
          else convert in
        NewConverter (setup_allocators convert)
    end.

(** [get_temp_samples]: the block pointers and the chain afterwards.
    The pointers are offsets from the start of [chain->tmp]; the first
    [blocks] pointer slots come first, the data after them. *)
Definition get_temp_samples (chain : AudioChain) (samples : Z)
  : list Z * AudioChain :=
  (* first part contains the pointers, second part the data *)
  let needed :=
    wrap64 ((samples * stride chain + sizeof_gpointer) * blocks chain) in
  if tmpsize chain <? needed then
    (* jump to the data *)
    let s := blocks chain * sizeof_gpointer in
    (* set up the pointers *)
    let pointers :=
      map (fun i => s + wrap64 (Z.of_nat i * samples * stride chain))
        (seq 0 (Z.to_nat (blocks chain))) in
    let chain := set_tmp pointers (set_tmpsize needed chain) in
    (tmp chain, chain)
  else (tmp chain, chain).

(** ** Vocabulary for the converter *)

(** The converter [gst_audio_converter_new] has before it builds the
    chains. *)
Definition configured
    (in_ out : GstAudioInfo) (new_config : option GstStructure)
  : GstAudioConverter :=
  let convert :=
    {| conv_in := in_; conv_out := out;
       config := gst_structure_new_empty "GstAudioConverter";
       current_format := GST_AUDIO_FORMAT_UNKNOWN;
       current_layout := GST_AUDIO_LAYOUT_INTERLEAVED;
       current_channels := 0;
       in_default := false; convert_in := None;
       mix_passthrough := false; mix := None; convert_out := None;
       quant := None; out_default := false; pack_chain := [];
       passthrough := false |} in
  match new_config with
  | Some c => snd (gst_audio_converter_set_config convert c)
  | None => convert
  end.

(** An integer format unpacks to S32 and a float format to F64, as in the
    format table of the audio library. *)
Definition unpacks_to_intermediate (finfo : GstAudioFormatInfo) : Prop :=
  finfo_unpack_format finfo
  = if finfo_is_integer finfo then GST_AUDIO_FORMAT_S32
    else GST_AUDIO_FORMAT_F64.

(** The conditions under which [gst_audio_converter_new] gives up before
    building anything. *)
Definition infos_incompatible (in_ out : GstAudioInfo) : bool :=
  negb (ai_rate in_ =? ai_rate out)
  || negb (GstAudioLayout_eqb (ai_layout in_) GST_AUDIO_LAYOUT_INTERLEAVED)
  || negb (GstAudioLayout_eqb (ai_layout in_) (ai_layout out))
  || (negb (ai_channels in_ =? ai_channels out)
      && (ai_unpositioned in_ || ai_unpositioned out)).

(** The table at the head of the source: the make functions of the
    chains of a conversion, last chain first, for integer and float
    input and output.  The mix chain is there unless the mixer passes its
    input through ([mix_pass]), the quantize chain for integer output of
    less than 32 bits. *)
Definition expected_chain (in_ out : GstAudioInfo) (mix_pass : bool)
  : list (option AudioChainFunc) :=
  let mix := if mix_pass then [] else [Some DO_MIX] in
  let quantize :=
    if finfo_depth (ai_finfo out) <? 32 then [Some DO_QUANTIZE] else [] in
  match finfo_is_integer (ai_finfo in_), finfo_is_integer (ai_finfo out) with
  | true, true => quantize ++ mix ++ [Some DO_UNPACK]
  | true, false => mix ++ [Some DO_CONVERT_IN; Some DO_UNPACK]
  | false, true =>
      quantize ++ [Some DO_CONVERT_OUT] ++ mix ++ [Some DO_UNPACK]
  | false, false => mix ++ [Some DO_UNPACK]
  end.

(** The format the samples have when they reach [chain_pack]. *)
Definition packed_from (in_ out : GstAudioInfo) : GstAudioFormat :=
  if negb (finfo_is_integer (ai_finfo in_))
     && finfo_is_integer (ai_finfo out)
  then GST_AUDIO_FORMAT_S32
  else if finfo_is_integer (ai_finfo in_)
          && negb (finfo_is_integer (ai_finfo out))
  then GST_AUDIO_FORMAT_F64
  else finfo_unpack_format (ai_finfo in_).

(** The temp memory of a chain is laid out for [layout] samples per
    block: the pointer slots, then [blocks] blocks of [layout * stride]
    bytes each. *)
Definition temp_laid_out (chain : AudioChain) (layout : Z) : Prop :=
  0 <= layout
  /\ (layout * stride chain + sizeof_gpointer) * blocks chain < 2 ^ 64
  /\ tmpsize chain
     = (layout * stride chain + sizeof_gpointer) * blocks chain
  /\ tmp chain
     = map (fun i => blocks chain * sizeof_gpointer
                     + Z.of_nat i * layout * stride chain)
         (seq 0 (Z.to_nat (blocks chain))).

(** A chain as [audio_chain_new] leaves it, or after any number of
    requests for temp samples. *)
Definition temp_ready (chain : AudioChain) : Prop :=
  (tmpsize chain = 0 /\ tmp chain = [])
  \/ exists layout, temp_laid_out chain layout.

(** [pointers] give [chain] one block per pointer, each with room for
    [samples] samples behind the pointer slots and inside the allocation,
    and no two of them overlapping. *)
Definition blocks_usable
    (chain : AudioChain) (samples : Z) (pointers : list Z) : Prop :=
  List.length pointers = Z.to_nat (blocks chain)
  /\ forall i j p q,
       nth_error pointers i = Some p ->
       nth_error pointers j = Some q ->
       blocks chain * sizeof_gpointer <= p
       /\ p + samples * stride chain <= tmpsize chain
       /\ ((i < j)%nat -> p + samples * stride chain <= q).

(** What [setup_allocators] hands to the chain [n] places behind the
    pack chain: the allocator it started with as long as every chain
    before passes its allocator on, a temp allocator otherwise. *)
Definition allocator_at
    (convert : GstAudioConverter) (n : nat) : AudioChainAllocFunc :=
  if out_default convert
     && forallb pass_alloc (firstn n (pack_chain convert))
  then GET_OUTPUT_SAMPLES else GET_TEMP_SAMPLES.

End AudioConverter.

(** * Reference inputs for the shading functions and the converter *)

Module ReferenceFrame.

Import Reference.
#[local] Existing Instance platform.
#[local] Existing Instance collaborators.

(** An element for frames of 8 x 4 pixels, with a shading value of 80. *)
Definition small : Overlay :=
  gst_base_text_overlay_set_property
    (set_info {| width := 8; height := 4; fps_n := 25; fps_d := 1 |} playing)
    (PROP_SHADING_VALUE 80).

(** A plane of 4 rows of 8 bytes, every byte 200. *)
Definition grey : GstVideoFrame :=
  {| plane0 := repeat 200 32; stride0 := 8; comp0_poffset := 0;
     comp0_pstride := 1; comp0_w_sub := 0; comp0_h_sub := 0 |}.

(** A plane of 4 rows of 8 pixels of four bytes, every byte 200. *)
Definition argb : GstVideoFrame :=
  {| plane0 := repeat 200 128; stride0 := 32; comp0_poffset := 1;
     comp0_pstride := 4; comp0_w_sub := 0; comp0_h_sub := 0 |}.


End ReferenceFrame.

Module ReferenceAudio.

Inductive Format : Type := UNKNOWN | S16 | S32 | F32 | F64.

Definition Format_eq_dec (a b : Format) : {a = b} + {a <> b}.
Proof. decide equality. Defined.

Definition types : AudioTypes :=
  {| GstAudioFormat := Format;
     GstAudioFormat_eq_dec := Format_eq_dec;
     GST_AUDIO_FORMAT_UNKNOWN := UNKNOWN;
     GST_AUDIO_FORMAT_S32 := S32;
     GST_AUDIO_FORMAT_F64 := F64;
     GstAudioChannelPosition := Z;
     GstStructure := list (string * Z);
     GstStructureField := string * Z;
     GType := unit |}.

#[local] Existing Instance types.

Definition format_info (f : Format) : GstAudioFormatInfo :=
  match f with
  | UNKNOWN =>
      {| finfo_format := UNKNOWN; finfo_is_integer := false;
         finfo_width := 0; finfo_depth := 0;
         finfo_unpack_format := UNKNOWN |}
  | S16 =>
      {| finfo_format := S16; finfo_is_integer := true;
         finfo_width := 16; finfo_depth := 16;
         finfo_unpack_format := S32 |}
  | S32 =>
      {| finfo_format := S32; finfo_is_integer := true;
         finfo_width := 32; finfo_depth := 32;
         finfo_unpack_format := S32 |}
  | F32 =>
      {| finfo_format := F32; finfo_is_integer := false;
         finfo_width := 32; finfo_depth := 32;
         finfo_unpack_format := F64 |}
  | F64 =>
      {| finfo_format := F64; finfo_is_integer := false;
         finfo_width := 64; finfo_depth := 64;
         finfo_unpack_format := F64 |}
  end.

Fixpoint lookup (fields : list (string * Z)) (name : string) : option Z :=
  match fields with
  | [] => None
  | (n, v) :: rest => if String.eqb n name then Some v else lookup rest name
  end.

(** The mixer passes its input through when the channels and their
    positions are the same on both sides. *)
Definition mix_is_passthrough (m : GstAudioChannelMix) : bool :=
  (mix_in_channels m =? mix_out_channels m)
  && (if list_eq_dec Z.eq_dec (mix_in_position m) (mix_out_position m)
      then true else false).

Definition collaborators : AudioCollaborators :=
  {| gst_audio_format_get_info := format_info;
     gst_audio_channel_mix_is_passthrough := mix_is_passthrough;
     gst_structure_new_empty := fun _ => [];
     gst_structure_fields := fun s => s;
     gst_structure_id_set_value := fun s f => f :: s;
     gst_structure_get_enum := fun s name _ => lookup s name;
     GST_AUDIO_CONVERTER_OPT_DITHER_METHOD :=
       "GstAudioConverter.dither-method";
     GST_AUDIO_CONVERTER_OPT_NOISE_SHAPING_METHOD :=
       "GstAudioConverter.noise-shaping-method";
     GST_TYPE_AUDIO_DITHER_METHOD := tt;
     GST_TYPE_AUDIO_NOISE_SHAPING_METHOD := tt;
     GST_AUDIO_DITHER_NONE := 0;
     GST_AUDIO_NOISE_SHAPING_NONE := 0;
     GST_AUDIO_NOISE_SHAPING_ERROR_FEEDBACK := 1;
     sizeof_gpointer := 8 |}.

#[local] Existing Instance collaborators.

(** Interleaved audio at 44100 Hz, or at [rate]. *)
Definition audio_at (rate : Z) (f : Format) (positions : list Z)
  : GstAudioInfo :=
  {| ai_finfo := format_info f; ai_layout := GST_AUDIO_LAYOUT_INTERLEAVED;
     ai_rate := rate; ai_channels := Z.of_nat (List.length positions);
     ai_unpositioned := false; ai_position := positions |}.

Definition audio : Format -> list Z -> GstAudioInfo := audio_at 44100.

Definition stereo : list Z := [0; 1].
Definition mono : list Z := [2].

(** TPDF dither and high noise shaping asked for. *)
Definition dithered : GstStructure :=
  [("GstAudioConverter.dither-method"%string, 2);
   ("GstAudioConverter.noise-shaping-method"%string, 4)].

(** The converter [gst_audio_converter_new] gives, where it gives one. *)
Definition converter (in_ out : GstAudioInfo)
    (new_config : option GstStructure) : GstAudioConverter :=
  match gst_audio_converter_new in_ out new_config with
  | NewConverter convert => convert
  | _ => configured in_ out new_config
  end.

(** The chain [n] places behind the pack chain. *)
Definition chain_at (convert : GstAudioConverter) (n : nat) : AudioChain :=
  nth n (pack_chain convert) (audio_chain_new convert).

Definition quantizer (convert : GstAudioConverter) : GstAudioQuantize :=
  match quant convert with
  | Some q => q
  | None =>
      {| quant_dither := 0; quant_ns := 0; quant_flags := 0;
         quant_format := UNKNOWN; quant_channels := 0;
         quant_quantizer := 0 |}
  end.

(** A fresh chain for two planes of 32-bit samples. *)
Definition planar : AudioChain :=
  {| make_func := Some DO_UNPACK; stride := 4; inc := 1; blocks := 2;
     pass_alloc := false; allow_ip := false;
     alloc_func := Some GET_TEMP_SAMPLES; tmpsize := 0; tmp := [] |}.

End ReferenceAudio.

Ltac run := vm_compute; repeat split; try reflexivity; try discriminate.

(** * Properties *)

Section Properties.

Context {P : Platform} {C : Collaborators}.

Lemma pushed_app (a b : list Event) : pushed (a ++ b) = pushed a ++ pushed b.
Proof.
  induction a as [|e a IH]; simpl; [reflexivity|].
  destruct e; simpl; rewrite IH; reflexivity.
Qed.

Lemma rasterized_app (a b : list Event) :
  rasterized (a ++ b) = rasterized a ++ rasterized b.
Proof.
  induction a as [|e a IH]; simpl; [reflexivity|].
  destruct e; simpl; rewrite IH; reflexivity.
Qed.

(** The pass once the slot decision is reached with a buffer pending. *)
Lemma video_chain_pass_pending (o : Overlay) (fr : VideoFrame) (tb : GstBuffer) :
  slot_decision_reached o -> text_buffer o = Some tb ->
  video_chain_pass o fr =
  if valid_text_time tb && (te o tb <=? vs o fr) then
    let '(o, evs) := gst_base_text_overlay_pop_text o in VideoRetry o evs
  else if valid_text_time tb && (ve o fr <=? ts o tb) then
    VideoReturn (gst_pad_push (Unmodified (vf_buffer fr)))
      (update_position (vf_clip_start fr) o)
      [Pushed (Unmodified (vf_buffer fr))]
  else
    let '(o1, evs1) := render_text_buffer o tb in
    let '(ret, o2, evs2) :=
      gst_base_text_overlay_push_frame o1 (vf_buffer fr) in
    let '(o3, evs3) :=
      if negb (valid_text_time tb) || (te o tb <=? ve o fr)
      then gst_base_text_overlay_pop_text o2 else (o2, []) in
    VideoReturn ret (update_position (vf_clip_start fr) o3)
      (evs1 ++ evs2 ++ evs3).
Proof.
  intros (Hf & He & Hs & Hl) Hb.
  unfold video_chain_pass. rewrite Hf, He, Hs, Hl, Hb.
  reflexivity.
Qed.

(** ** Rendering and pushing leave the streams alone *)

Lemma render_text_spec (o : Overlay) (t : option string) (l : Z) :
  let r := gst_base_text_overlay_render_text o t l in
  text_buffer (fst r) = text_buffer o
  /\ segment (fst r) = segment o
  /\ text_segment (fst r) = text_segment o
  /\ flags (fst r) = flags o
  /\ info (fst r) = info o
  /\ need_render (cache (fst r)) = false
  /\ pushed (snd r) = []
  /\ (need_render (cache o) = false -> r = (o, []))
  /\ (need_render (cache o) = true ->
      composition (cache (fst r)) <> None
      /\ exists s, snd r = [Rasterize s]).
Proof.
  unfold gst_base_text_overlay_render_text.
  destruct (need_render (cache o)) eqn:Hn; cbn.
  all: repeat split; intros; try reflexivity; try assumption;
    try discriminate; try (eexists; reflexivity).
Qed.

Lemma render_text_buffer_calls_render_text (o : Overlay) (tb : GstBuffer) :
  exists t l,
    render_text_buffer o tb = gst_base_text_overlay_render_text o t l.
Proof.
  unfold render_text_buffer.
  destruct (Nat.ltb 0 (String.length (data tb))); [|eauto].
  match goal with |- context [match ?t with EmptyString => _ | String _ _ => _ end] =>
    destruct t end; eauto.
Qed.

Lemma push_frame_spec (o : Overlay) (f : GstBuffer) :
  let r := gst_base_text_overlay_push_frame o f in
  text_buffer (snd (fst r)) = text_buffer o
  /\ segment (snd (fst r)) = segment o
  /\ text_segment (snd (fst r)) = text_segment o
  /\ props (snd (fst r)) = props o
  /\ cache (snd (fst r)) = cache o
  /\ info (snd (fst r)) = info o
  /\ rasterized (snd r) = []
  /\ (composition (cache o) <> None -> frame_accepted o f = true ->
      exists out, snd r = [Pushed out] /\ is_composited out = true
                  /\ output_frame out = f).
Proof.
  unfold gst_base_text_overlay_push_frame, frame_accepted.
  destruct (composition (cache o)) as [c|] eqn:Hc; cbn.
  - destruct (gst_pad_check_reconfigure o); cbn.
    + destruct (negotiated_attach o); cbn.
      * repeat split; try reflexivity. intros _ _. eexists; repeat split.
      * destruct (gst_video_frame_map (info o) f); cbn;
          repeat split; try reflexivity; intros _ H; try discriminate.
        eexists; repeat split.
    + destruct (attach_compo_to_buffer (flags o)); cbn.
      * repeat split; try reflexivity. intros _ _. eexists; repeat split.
      * destruct (gst_video_frame_map (info o) f); cbn;
          repeat split; try reflexivity; intros _ H; try discriminate.
        eexists; repeat split.
  - repeat split; try reflexivity. intros H; contradiction H; reflexivity.
Qed.

Lemma render_text_buffer_spec (o : Overlay) (tb : GstBuffer) :
  let r := render_text_buffer o tb in
  text_buffer (fst r) = text_buffer o
  /\ segment (fst r) = segment o
  /\ text_segment (fst r) = text_segment o
  /\ flags (fst r) = flags o
  /\ info (fst r) = info o
  /\ need_render (cache (fst r)) = false
  /\ pushed (snd r) = []
  /\ (need_render (cache o) = false -> r = (o, []))
  /\ (need_render (cache o) = true ->
      composition (cache (fst r)) <> None
      /\ exists s, snd r = [Rasterize s]).
Proof.
  destruct (render_text_buffer_calls_render_text o tb) as (t & l & ->).
  apply render_text_spec.
Qed.

Lemma render_text_buffer_composition (o : Overlay) (tb : GstBuffer) :
  cache_consistent o ->
  composition (cache (fst (render_text_buffer o tb))) <> None.
Proof.
  intros Hc.
  destruct (render_text_buffer_spec o tb)
    as (_ & _ & _ & _ & _ & _ & _ & Hclean & Hdirty).
  destruct (need_render (cache o)) eqn:Hn.
  - apply Hdirty; reflexivity.
  - rewrite (Hclean eq_refl). cbn. apply Hc, Hn.
Qed.

(** The critical section from the label once the slot decision is reached
    with a buffer pending. *)
Lemma video_chain_locked_pending (o : Overlay) (fr : VideoFrame) (tb : GstBuffer) :
  slot_decision_reached o -> text_buffer o = Some tb ->
  video_chain_locked o fr =
  if valid_text_time tb && (te o tb <=? vs o fr) then
    let '(o, evs) := gst_base_text_overlay_pop_text o in (AtLabel, o, evs)
  else if valid_text_time tb && (ve o fr <=? ts o tb) then
    (PushingBuffer, o, [])
  else
    let '(o1, evs1) := render_text_buffer o tb in
    (PushingFrame (negb (valid_text_time tb) || (te o tb <=? ve o fr)),
     o1, evs1).
Proof.
  intros (Hf & He & Hs & Hl) Hb.
  unfold video_chain_locked. rewrite Hf, He, Hs, Hl, Hb.
  reflexivity.
Qed.

Lemma video_chain_run_unfold
    (others : list (Overlay -> Overlay)) (fr : VideoFrame) (th : VideoThread)
    (o : Overlay) (done : list Event) :
  video_chain_run others fr th o done
  = let '(th', o', evs) := video_chain_step fr th o in
    match th' with
    | Returned ret => VideoDone ret o' (done ++ evs)
    | _ =>
        match others with
        | [] => VideoStopped th' o' (done ++ evs)
        | other :: rest =>
            video_chain_run rest fr th' (other o') (done ++ evs)
        end
    end.
Proof. destruct others; reflexivity. Qed.

(** A pass is what the steps of the thread do when the other threads
    leave the element alone. *)
Lemma video_chain_pass_steps (o : Overlay) (fr : VideoFrame) :
  match video_chain_pass o fr with
  | VideoReturn ret o' evs =>
      video_chain_run [undisturbed; undisturbed; undisturbed] fr AtLabel o []
      = VideoDone ret o' evs
  | VideoRetry o' evs => video_chain_step fr AtLabel o = (AtLabel, o', evs)
  | VideoWait o' => video_chain_step fr AtLabel o = (Parked, o', [])
  end.
Proof.
  assert (Hplain :
    forall others,
      video_chain_run (undisturbed :: undisturbed :: others) fr
        PushingBuffer o []
      = VideoDone (gst_pad_push (Unmodified (vf_buffer fr)))
          (update_position (vf_clip_start fr) o)
          [Pushed (Unmodified (vf_buffer fr))]).
  { intros others. reflexivity. }
  assert (Hframe :
    forall p pop evs0,
      video_chain_run [undisturbed; undisturbed] fr (PushingFrame pop) p evs0
      = let '(ret, p1, evs1) :=
          gst_base_text_overlay_push_frame p (vf_buffer fr) in
        let '(p2, evs2) :=
          if pop then gst_base_text_overlay_pop_text p1 else (p1, []) in
        VideoDone ret (update_position (vf_clip_start fr) p2)
          (evs0 ++ evs1 ++ evs2)).
  { intros p pop evs0. cbn [video_chain_run video_chain_step].
    destruct (gst_base_text_overlay_push_frame p (vf_buffer fr))
      as [[ret p1] evs1].
    destruct pop; cbn [video_chain_run video_chain_step]; unfold undisturbed.
    - destruct (gst_base_text_overlay_pop_text p1) as [p2 evs2].
      cbn [video_chain_run video_chain_step].
      rewrite app_nil_r, <- app_assoc. reflexivity.
    - rewrite !app_nil_r. reflexivity. }
  assert (Hrun :
    forall th o1 evs,
      video_chain_locked o fr = (th, o1, evs) ->
      video_chain_run [undisturbed; undisturbed; undisturbed] fr AtLabel o []
      = match th with
        | Returned ret => VideoDone ret o1 evs
        | _ => video_chain_run [undisturbed; undisturbed] fr th o1 evs
        end).
  { intros th o1 evs H. cbn [video_chain_run video_chain_step].
    rewrite H. destruct th; reflexivity. }
  change (video_chain_step fr AtLabel o) with (video_chain_locked o fr).
  revert Hrun. unfold video_chain_pass, video_chain_locked.
  destruct (video_flushing (flags o));
    [intros Hrun; exact (Hrun _ _ _ eq_refl)|].
  destruct (video_eos (flags o));
    [intros Hrun; exact (Hrun _ _ _ eq_refl)|].
  destruct (silent (props o)).
  { intros Hrun. rewrite (Hrun _ _ _ eq_refl). reflexivity. }
  destruct (text_linked (flags o)); cbn [negb].
  - destruct (text_buffer o) as [tb|].
    + destruct (_ && (_ <=? _)).
      { destruct (gst_base_text_overlay_pop_text o) as [o1 evs1].
        reflexivity. }
      destruct (_ && (_ <=? _)).
      { intros Hrun. rewrite (Hrun _ _ _ eq_refl). reflexivity. }
      destruct (render_text_buffer o tb) as [o1 evs1].
      intros Hrun. rewrite (Hrun _ _ _ eq_refl), Hframe.
      destruct (gst_base_text_overlay_push_frame o1 (vf_buffer fr))
        as [[ret o2] evs2].
      destruct (negb _ || (_ <=? _));
        [destruct (gst_base_text_overlay_pop_text o2) as [o3 evs3]|];
        reflexivity.
    + match goal with
      | |- context [if ?c then VideoWait o else _] => destruct c
      end; [reflexivity|].
      intros Hrun. rewrite (Hrun _ _ _ eq_refl). reflexivity.
  - destruct (option_map c_str _) as [[|a r]|];
      intros Hrun; rewrite (Hrun _ _ _ eq_refl); try reflexivity.
    cbn [video_chain_run video_chain_step]. unfold undisturbed at 1.
    destruct (gst_base_text_overlay_render_text o (Some (String a r)) (-1))
      as [o1 evs1].
    cbn [video_chain_run video_chain_step]. unfold undisturbed at 1.
    destruct (gst_base_text_overlay_push_frame o1 (vf_buffer fr))
      as [[ret o2] evs2].
    cbn [video_chain_run video_chain_step]. unfold undisturbed.
    rewrite app_nil_r. reflexivity.
Qed.

(** ** The slot decision *)

(** C1. With a validly stamped text buffer [ts, te) pending and a video
    frame [vs, ve): the stale test [te <= vs] comes first.  When it holds
    the critical section releases the text buffer, pushes nothing and
    leaves the thread at the label again, whatever [ve <= ts] says; the
    next thing the chain function does is the critical section from the
    label for the same frame, on the element as the other threads have
    left it by then.  When the stale test fails and [ve <= ts] holds, the
    frame is pushed as it is and the thread returns without touching the
    slot: the same text buffer stays pending unless another thread takes
    it out. *)
Theorem stale_checked_before_future
    (o : Overlay) (fr : VideoFrame) (tb : GstBuffer) :
  slot_decision_reached o ->
  text_buffer o = Some tb ->
  valid_text_time tb = true ->
  (te o tb <= vs o fr ->
     video_chain_step fr AtLabel o
       = (AtLabel, set_text_buffer None o, [Unref tb; Broadcast])
     /\ video_chain_pass o fr
        = VideoRetry (set_text_buffer None o) [Unref tb; Broadcast]
     /\ pushed [Unref tb; Broadcast] = []
     /\ text_buffer (set_text_buffer None o) = None
     /\ (forall other done,
           video_chain_run [other] fr AtLabel o done
           = let '(th, o', evs) :=
               video_chain_locked (other (set_text_buffer None o)) fr in
             match th with
             | Returned ret =>
                 VideoDone ret o' ((done ++ [Unref tb; Broadcast]) ++ evs)
             | _ => VideoStopped th o' ((done ++ [Unref tb; Broadcast]) ++ evs)
             end)
     /\ (forall other rest done,
           video_chain_run (other :: rest) fr AtLabel o done
           = video_chain_run rest fr AtLabel
               (other (set_text_buffer None o))
               (done ++ [Unref tb; Broadcast])))
  /\ (~ te o tb <= vs o fr -> ve o fr <= ts o tb ->
     video_chain_step fr AtLabel o = (PushingBuffer, o, [])
     /\ video_chain_pass o fr
        = VideoReturn (gst_pad_push (Unmodified (vf_buffer fr)))
            (update_position (vf_clip_start fr) o)
            [Pushed (Unmodified (vf_buffer fr))]
     /\ text_buffer (update_position (vf_clip_start fr) o) = Some tb
     /\ (forall other1 other2 rest done,
           video_chain_run (other1 :: other2 :: rest) fr AtLabel o done
           = VideoDone (gst_pad_push (Unmodified (vf_buffer fr)))
               (update_position (vf_clip_start fr) (other2 (other1 o)))
               (done ++ [Pushed (Unmodified (vf_buffer fr))])
           /\ text_buffer
                (update_position (vf_clip_start fr) (other2 (other1 o)))
              = text_buffer (other2 (other1 o)))).
Proof.
  intros Hr Hb Hv. split.
  - intros Hstale.
    assert (Hstep : video_chain_step fr AtLabel o
                    = (AtLabel, set_text_buffer None o,
                       [Unref tb; Broadcast])).
    { cbn [video_chain_step].
      rewrite (video_chain_locked_pending o fr tb Hr Hb), Hv.
      apply Z.leb_le in Hstale. rewrite Hstale. cbn.
      unfold gst_base_text_overlay_pop_text. rewrite Hb. reflexivity. }
    assert (Hpass : video_chain_pass o fr
                    = VideoRetry (set_text_buffer None o) [Unref tb; Broadcast]).
    { rewrite (video_chain_pass_pending o fr tb Hr Hb), Hv.
      apply Z.leb_le in Hstale. rewrite Hstale. cbn.
      unfold gst_base_text_overlay_pop_text. rewrite Hb. reflexivity. }
    repeat split; try assumption; try reflexivity.
    + intros other done. cbn [video_chain_run]. rewrite Hstep.
      cbn [video_chain_step].
      destruct (video_chain_locked (other (set_text_buffer None o)) fr)
        as [[th o'] evs].
      destruct th; reflexivity.
    + intros other rest done. cbn [video_chain_run]. rewrite Hstep.
      reflexivity.
  - intros Hfresh Hfuture.
    apply Z.nle_gt, Z.leb_gt in Hfresh. apply Z.leb_le in Hfuture.
    assert (Hstep : video_chain_step fr AtLabel o = (PushingBuffer, o, [])).
    { cbn [video_chain_step].
      rewrite (video_chain_locked_pending o fr tb Hr Hb), Hv.
      rewrite Hfresh, Hfuture. reflexivity. }
    split; [exact Hstep|]. split.
    { rewrite (video_chain_pass_pending o fr tb Hr Hb), Hv.
      rewrite Hfresh, Hfuture. reflexivity. }
    split; [exact Hb|].
    intros other1 other2 rest done. split; [|reflexivity].
    cbn [video_chain_run]. rewrite Hstep.
    cbn [video_chain_run video_chain_step].
    rewrite video_chain_run_unfold. cbn [video_chain_step].
    rewrite !app_nil_r. reflexivity.
Qed.

(** ** Rendering the pending text and pushing the frame *)

(** What a dirty cache holds after the text of a buffer is rendered. *)
Lemma render_text_buffer_shown (o : Overlay) (tb : GstBuffer) :
  need_render (cache o) = true ->
  snd (render_text_buffer o tb) = [Rasterize (shown_text o tb)]
  /\ exists c,
       composition (cache (fst (render_text_buffer o tb))) = Some c
       /\ comp_image c = r_image (pango_cairo_render o (shown_text o tb))
       /\ comp_width c = r_width (pango_cairo_render o (shown_text o tb))
       /\ comp_height c = r_height (pango_cairo_render o (shown_text o tb)).
Proof.
  intros Hn.
  assert (Hrt : forall t n,
            let s := g_strdelimit_cr_tab (g_strndup t (Z.of_nat n)) in
            snd (gst_base_text_overlay_render_text o (Some t) (Z.of_nat n))
            = [Rasterize s]
            /\ exists c,
                 composition
                   (cache (fst (gst_base_text_overlay_render_text o (Some t)
                                  (Z.of_nat n)))) = Some c
                 /\ comp_image c = r_image (pango_cairo_render o s)
                 /\ comp_width c = r_width (pango_cairo_render o s)
                 /\ comp_height c = r_height (pango_cairo_render o s)).
  { intros t n. cbn zeta. unfold gst_base_text_overlay_render_text.
    rewrite Hn. cbn [negb].
    replace (Z.of_nat n <? 0) with false by (symmetry; apply Z.ltb_ge; lia).
    unfold gst_base_text_overlay_render_pangocairo,
      gst_base_text_overlay_set_composition.
    cbn [cache upd_cache upd_props set_cache set_props text_image
         set_text_image set_image_width set_image_height set_baseline_y].
    destruct (gst_base_text_overlay_get_pos _) as [xpos ypos].
    split; [reflexivity|]. eexists. split; [reflexivity|]. repeat split. }
  unfold render_text_buffer, shown_text.
  destruct (Nat.ltb 0 (String.length (data tb)));
    [|exact (Hrt " "%string 1%nat)].
  match goal with
  | |- context [match ?t with EmptyString => _ | String _ _ => _ end] =>
      destruct t as [|a r]
  end; [exact (Hrt " "%string 1%nat) | apply Hrt].
Qed.

(** The three ways out of [gst_base_text_overlay_push_frame]: no
    composition, the composition on the frame, the frame released. *)
Lemma push_frame_cases (p : Overlay) (f : GstBuffer) :
  let r := gst_base_text_overlay_push_frame p f in
  text_buffer (snd (fst r)) = text_buffer p
  /\ video_flushing (flags (snd (fst r))) = video_flushing (flags p)
  /\ video_eos (flags (snd (fst r))) = video_eos (flags p)
  /\ text_eos (flags (snd (fst r))) = text_eos (flags p)
  /\ text_linked (flags (snd (fst r))) = text_linked (flags p)
  /\ match composition (cache p) with
     | None =>
         r = (gst_pad_push (Unmodified f), p, [Pushed (Unmodified f)])
     | Some c =>
         if frame_accepted p f
         then exists out,
                snd r = [Pushed out] /\ fst (fst r) = gst_pad_push out
                /\ output_composition out = Some c /\ output_frame out = f
         else snd r = [Unref f] /\ fst (fst r) = GST_FLOW_OK
     end.
Proof.
  unfold gst_base_text_overlay_push_frame, frame_accepted.
  destruct (composition (cache p)) as [c|] eqn:Hc; cbn;
    [|repeat split].
  destruct (gst_pad_check_reconfigure p); cbn.
  - destruct (negotiated_attach p); cbn.
    + repeat split. eexists. repeat split.
    + destruct (gst_video_frame_map (info p) f); cbn; repeat split.
      eexists. repeat split.
  - destruct (attach_compo_to_buffer (flags p)); cbn.
    + repeat split. eexists. repeat split.
    + destruct (gst_video_frame_map (info p) f); cbn; repeat split.
      eexists. repeat split.
Qed.

(** The steps of the thread outside the critical section from the label,
    on whatever element they find. *)
Lemma video_chain_step_push (fr : VideoFrame) (p : Overlay) (pop : bool)
    (c : Composition) :
  composition (cache p) = Some c ->
  exists ret p' evs,
    video_chain_step fr (PushingFrame pop) p
    = (if pop then Popping ret else Finishing ret, p', evs)
    /\ text_buffer p' = text_buffer p
    /\ if frame_accepted p (vf_buffer fr)
       then exists out,
              evs = [Pushed out] /\ ret = gst_pad_push out
              /\ output_composition out = Some c
              /\ output_frame out = vf_buffer fr
       else evs = [Unref (vf_buffer fr)] /\ ret = GST_FLOW_OK.
Proof.
  intros Hc. cbn [video_chain_step].
  pose proof (push_frame_cases p (vf_buffer fr)) as H. cbn zeta in H.
  rewrite Hc in H.
  destruct (gst_base_text_overlay_push_frame p (vf_buffer fr))
    as [[ret p'] evs]. cbn [fst snd] in H.
  destruct H as (Hb & _ & _ & _ & _ & H).
  exists ret, p', evs. split; [reflexivity|]. split; [exact Hb|].
  destruct (frame_accepted p (vf_buffer fr)).
  - destruct H as (out & -> & -> & H1 & H2). exists out. repeat split; auto.
  - destruct H as (-> & ->). split; reflexivity.
Qed.

Lemma video_chain_step_pop (fr : VideoFrame) (q : Overlay)
    (ret : GstFlowReturn) :
  video_chain_step fr (Popping ret) q
  = (Finishing ret, set_text_buffer None q, popped q)
  /\ pushed (popped q) = [] /\ rasterized (popped q) = [].
Proof.
  cbn [video_chain_step]. unfold gst_base_text_overlay_pop_text, popped.
  destruct (text_buffer q) as [b|] eqn:Hb; repeat split.
  destruct q; cbn in *. subst. reflexivity.
Qed.

Lemma render_text_buffer_keeps_silent (o : Overlay) (tb : GstBuffer) :
  silent (props (fst (render_text_buffer o tb))) = silent (props o).
Proof.
  destruct (render_text_buffer_calls_render_text o tb) as (t & l & ->).
  unfold gst_base_text_overlay_render_text.
  destruct (need_render (cache o)); cbn [negb]; [|reflexivity].
  unfold gst_base_text_overlay_render_pangocairo,
    gst_base_text_overlay_set_composition.
  cbn [cache upd_cache upd_props set_cache set_props text_image
       set_text_image set_image_width set_image_height set_baseline_y].
  destruct (gst_base_text_overlay_get_pos _) as [xpos ypos].
  reflexivity.
Qed.

(** The branch that renders the pending text, for the frame that overlaps
    it and for a text without a valid time: the critical section, and the
    pass when no other thread comes in between. *)
Lemma render_branch (o : Overlay) (fr : VideoFrame) (tb : GstBuffer) :
  slot_decision_reached o ->
  text_buffer o = Some tb ->
  cache_consistent o ->
  valid_text_time tb && (te o tb <=? vs o fr) = false ->
  valid_text_time tb && (ve o fr <=? ts o tb) = false ->
  let pop := negb (valid_text_time tb) || (te o tb <=? ve o fr) in
  exists o1 c,
    video_chain_step fr AtLabel o
    = (PushingFrame pop, o1,
       if need_render (cache o) then [Rasterize (shown_text o tb)] else [])
    /\ need_render (cache o1) = false
    /\ composition (cache o1) = Some c
    /\ (need_render (cache o) = true ->
        comp_image c = r_image (pango_cairo_render o (shown_text o tb)))
    /\ (need_render (cache o) = false -> o1 = o)
    /\ text_buffer o1 = Some tb
    /\ exists ret o' evs,
         video_chain_pass o fr = VideoReturn ret o' evs
         /\ rasterized evs
            = (if need_render (cache o) then [shown_text o tb] else [])
         /\ (if frame_accepted o1 (vf_buffer fr)
             then exists out,
                    pushed evs = [out] /\ ret = gst_pad_push out
                    /\ output_composition out = Some c
                    /\ output_frame out = vf_buffer fr
             else pushed evs = [] /\ In (Unref (vf_buffer fr)) evs
                  /\ ret = GST_FLOW_OK)
         /\ text_buffer o' = (if pop then None else Some tb)
         /\ (pop = true -> In (Unref tb) evs)
         /\ slot_decision_reached o'.
Proof.
  intros Hr Hb Hc Hstale Hfuture pop.
  pose proof (render_text_buffer_spec o tb) as Hrender.
  pose proof (render_text_buffer_composition o tb Hc) as Hcomp.
  pose proof (render_text_buffer_shown o tb) as Hshown.
  assert (Hstep : video_chain_step fr AtLabel o
                  = (let '(o1, evs1) := render_text_buffer o tb in
                     (PushingFrame pop, o1, evs1))).
  { cbn [video_chain_step].
    rewrite (video_chain_locked_pending o fr tb Hr Hb), Hstale, Hfuture.
    reflexivity. }
  assert (Hpass : video_chain_pass o fr
                  = (let '(o1, evs1) := render_text_buffer o tb in
                     let '(ret, o2, evs2) :=
                       gst_base_text_overlay_push_frame o1 (vf_buffer fr) in
                     let '(o3, evs3) :=
                       if pop then gst_base_text_overlay_pop_text o2
                       else (o2, []) in
                     VideoReturn ret (update_position (vf_clip_start fr) o3)
                       (evs1 ++ evs2 ++ evs3))).
  { rewrite (video_chain_pass_pending o fr tb Hr Hb), Hstale, Hfuture.
    reflexivity. }
  rewrite Hstep, Hpass. clear Hstep Hpass.
  destruct Hr as (Hf & He & Hs & Hl).
  pose proof (render_text_buffer_keeps_silent o tb) as Hsil1.
  destruct (render_text_buffer o tb) as [o1 evs1]. cbn [fst snd] in *.
  destruct Hrender as (Hb1 & _ & _ & Hfl1 & _ & Hn1 & Hp1 & Hclean & Hdirty).
  destruct (composition (cache o1)) as [c|] eqn:Hc1; [|congruence].
  assert (Hevs1 : evs1 = if need_render (cache o)
                         then [Rasterize (shown_text o tb)] else []).
  { destruct (need_render (cache o)) eqn:Hn.
    - apply (Hshown eq_refl).
    - specialize (Hclean eq_refl). congruence. }
  exists o1, c. split; [rewrite Hevs1; reflexivity|].
  split; [exact Hn1|]. split; [exact Hc1|].
  split.
  { intros Hn. destruct (Hshown Hn) as (_ & c' & Hc' & Hi & _).
    congruence. }
  split; [intros Hn; specialize (Hclean Hn); congruence|].
  split; [congruence|].
  pose proof (push_frame_cases o1 (vf_buffer fr)) as Hpush.
  pose proof (push_frame_spec o1 (vf_buffer fr)) as Hspec.
  cbn zeta in Hpush, Hspec. rewrite Hc1 in Hpush.
  destruct (gst_base_text_overlay_push_frame o1 (vf_buffer fr))
    as [[ret o2] evs2]. cbn [fst snd] in Hpush, Hspec.
  destruct Hpush as (Hb2 & Hf2 & He2 & _ & Hl2 & Hout).
  destruct Hspec as (_ & _ & _ & Hpr2 & _ & _ & Hr2 & _).
  assert (Hslot2 : text_buffer o2 = Some tb) by congruence.
  assert (Hpop : exists o3 evs3,
             (if pop then gst_base_text_overlay_pop_text o2 else (o2, []))
             = (o3, evs3)
             /\ text_buffer o3 = (if pop then None else Some tb)
             /\ evs3 = (if pop then [Unref tb; Broadcast] else [])
             /\ flags o3 = flags o2 /\ props o3 = props o2).
  { destruct pop.
    - unfold gst_base_text_overlay_pop_text. rewrite Hslot2.
      do 2 eexists. repeat split.
    - do 2 eexists. repeat split. exact Hslot2. }
  destruct Hpop as (o3 & evs3 & -> & Hb3 & Hevs3 & Hfl3 & Hpr3).
  do 3 eexists. split; [reflexivity|].
  assert (Hp3 : pushed evs3 = [] /\ rasterized evs3 = []).
  { rewrite Hevs3. destruct pop; split; reflexivity. }
  destruct Hp3 as [Hp3 Hr3].
  split.
  { rewrite !rasterized_app, Hr2, Hr3, Hevs1.
    destruct (need_render (cache o)); reflexivity. }
  split.
  { destruct (frame_accepted o1 (vf_buffer fr)).
    - destruct Hout as (out & -> & -> & Ho1 & Ho2). exists out.
      rewrite !pushed_app, Hp1, Hp3. repeat split; assumption.
    - destruct Hout as (-> & ->).
      rewrite !pushed_app, Hp1, Hp3. repeat split.
      apply in_or_app. right. left. reflexivity. }
  split; [exact Hb3|].
  split.
  { intros Hpt. rewrite Hevs3, Hpt.
    apply in_or_app. right. apply in_or_app. right. left. reflexivity. }
  unfold slot_decision_reached. cbn [update_position flags props set_segment].
  rewrite Hfl3, Hpr3, Hpr2, Hf2, He2, Hl2, Hfl1, Hsil1.
  repeat split; assumption.
Qed.

(** C2, as the code has it.  When the pending text buffer [ts, te)
    overlaps the video frame [vs, ve), the critical section renders the
    text if the cache is dirty and gives up the lock.  The frame then goes
    to [gst_base_text_overlay_push_frame], which pushes it exactly once
    with the composition on it, unless the composition is not attached as
    meta and the frame cannot be mapped: then the frame is released and
    nothing is pushed.  After that, when [te <= ve], the lock is taken
    again and the slot is cleared, whatever it holds by then; when
    [te > ve] the thread returns without touching the slot.  With no other
    thread in between the slot is empty afterwards exactly when
    [te <= ve], and otherwise still holds the same buffer. *)
Theorem overlap_renders_and_composites
    (o : Overlay) (fr : VideoFrame) (tb : GstBuffer) :
  slot_decision_reached o ->
  text_buffer o = Some tb ->
  valid_text_time tb = true ->
  cache_consistent o ->
  ~ te o tb <= vs o fr ->
  ~ ve o fr <= ts o tb ->
  exists o1 c,
    video_chain_step fr AtLabel o
    = (PushingFrame (te o tb <=? ve o fr), o1,
       if need_render (cache o) then [Rasterize (shown_text o tb)] else [])
    /\ need_render (cache o1) = false
    /\ composition (cache o1) = Some c
    /\ (need_render (cache o) = true ->
        comp_image c = r_image (pango_cairo_render o (shown_text o tb)))
    /\ (need_render (cache o) = false -> o1 = o)
    /\ text_buffer o1 = Some tb
    /\ (forall p pop,
          composition (cache p) = Some c ->
          exists ret p' evs,
            video_chain_step fr (PushingFrame pop) p
            = (if pop then Popping ret else Finishing ret, p', evs)
            /\ text_buffer p' = text_buffer p
            /\ if frame_accepted p (vf_buffer fr)
               then exists out,
                      evs = [Pushed out] /\ ret = gst_pad_push out
                      /\ output_composition out = Some c
                      /\ output_frame out = vf_buffer fr
               else evs = [Unref (vf_buffer fr)] /\ ret = GST_FLOW_OK)
    /\ (forall q ret,
          video_chain_step fr (Popping ret) q
          = (Finishing ret, set_text_buffer None q, popped q)
          /\ pushed (popped q) = [] /\ rasterized (popped q) = [])
    /\ (forall q ret,
          video_chain_step fr (Finishing ret) q
          = (Returned ret, update_position (vf_clip_start fr) q, [])
          /\ text_buffer (update_position (vf_clip_start fr) q)
             = text_buffer q)
    /\ exists ret o' evs,
         video_chain_pass o fr = VideoReturn ret o' evs
         /\ video_chain_run [undisturbed; undisturbed; undisturbed] fr
              AtLabel o []
            = VideoDone ret o' evs
         /\ rasterized evs
            = (if need_render (cache o) then [shown_text o tb] else [])
         /\ (if frame_accepted o1 (vf_buffer fr)
             then exists out,
                    pushed evs = [out] /\ ret = gst_pad_push out
                    /\ output_composition out = Some c
                    /\ output_frame out = vf_buffer fr
             else pushed evs = [] /\ In (Unref (vf_buffer fr)) evs
                  /\ ret = GST_FLOW_OK)
         /\ (text_buffer o' = None <-> te o tb <= ve o fr)
         /\ (ve o fr < te o tb -> text_buffer o' = Some tb).
Proof.
  intros Hr Hb Hv Hc Hfresh Hnow.
  apply Z.nle_gt, Z.leb_gt in Hfresh. apply Z.nle_gt, Z.leb_gt in Hnow.
  destruct (render_branch o fr tb Hr Hb Hc) as
    (o1 & c & Hstep & Hn1 & Hc1 & Himg & Hclean & Hb1
     & ret & o' & evs & Hpass & Hras & Hpush & Hslot & _ & _).
  { rewrite Hv, Hfresh. reflexivity. }
  { rewrite Hv, Hnow. reflexivity. }
  rewrite Hv in Hstep, Hslot. cbn [negb orb] in Hstep, Hslot.
  exists o1, c. repeat (split; [assumption|]).
  split; [intros p pop Hp; apply (video_chain_step_push fr p pop c Hp)|].
  split; [intros q r; apply video_chain_step_pop|].
  split; [intros q r; split; reflexivity|].
  exists ret, o', evs. split; [exact Hpass|].
  split.
  { pose proof (video_chain_pass_steps o fr) as H.
    rewrite Hpass in H. exact H. }
  split; [exact Hras|]. split; [exact Hpush|].
  destruct (te o tb <=? ve o fr) eqn:Hend.
  - apply Z.leb_le in Hend. split; [tauto|]. intros Hlt. lia.
  - apply Z.leb_gt in Hend. split; [|intros _; exact Hslot].
    split; [congruence | lia].
Qed.

(** ** The text chain function *)

(** The text chain function past its flushing and end-of-stream checks,
    for a buffer with a valid timestamp. *)
Lemma text_chain_stamped (o : Overlay) (b : GstBuffer) :
  text_flushing (flags o) = false -> text_eos (flags o) = false ->
  GST_BUFFER_TIMESTAMP_IS_VALID b = true ->
  gst_base_text_overlay_text_chain o b =
  match gst_segment_clip (text_segment o) GST_FORMAT_TIME (pts b)
          (if GST_BUFFER_DURATION_IS_VALID b
           then wrap64 (pts b + duration b) else GST_CLOCK_TIME_NONE) with
  | Some (cstart, _) => text_chain_wait_loop o (set_pts cstart b) cstart
  | None => TextReturn GST_FLOW_OK o [Unref b]
  end.
Proof.
  intros Hf He Hv. unfold gst_base_text_overlay_text_chain.
  rewrite Hf, He, Hv.
  destruct (gst_segment_clip _ _ _ _) as [[cstart cstop]|]; reflexivity.
Qed.

(** The same for a buffer without a timestamp: the segment is not
    consulted. *)
Lemma text_chain_unstamped (o : Overlay) (b : GstBuffer) :
  text_flushing (flags o) = false -> text_eos (flags o) = false ->
  GST_BUFFER_TIMESTAMP_IS_VALID b = false ->
  gst_base_text_overlay_text_chain o b =
  text_chain_wait_loop o
    (if GST_BUFFER_DURATION_IS_VALID b then set_duration 0 b else b) 0.
Proof.
  intros Hf He Hv. unfold gst_base_text_overlay_text_chain.
  rewrite Hf, He, Hv. reflexivity.
Qed.

Lemma text_chain_wait_loop_cases (o : Overlay) (b : GstBuffer) (cs : Z) :
  (exists old, text_buffer o = Some old
               /\ text_chain_wait_loop o b cs = TextWait o b cs)
  \/ (text_buffer o = None
      /\ exists o',
           text_chain_wait_loop o b cs = TextReturn GST_FLOW_OK o' [Broadcast]
           /\ text_buffer o' = Some b
           /\ need_render (cache o') = true).
Proof.
  unfold text_chain_wait_loop, text_chain_store.
  destruct (text_buffer o) as [old|] eqn:Hb.
  - left. exists old. split; reflexivity.
  - right. split; [reflexivity|]. eexists. split; [reflexivity|].
    destruct (GST_BUFFER_TIMESTAMP_IS_VALID b); split; reflexivity.
Qed.

Lemma wait_loop_stores_only_into_empty (o : Overlay) (b : GstBuffer) (cs : Z) :
  stores_only_into_empty o (text_chain_wait_loop o b cs).
Proof.
  destruct (text_chain_wait_loop_cases o b cs)
    as [(old & _ & ->) | (Hb & o' & -> & Hs & Hn)]; cbn.
  - reflexivity.
  - right. repeat split; try assumption. exists b. assumption.
Qed.

Lemma text_chain_stores_only_into_empty (o : Overlay) (b : GstBuffer) :
  stores_only_into_empty o (gst_base_text_overlay_text_chain o b).
Proof.
  unfold gst_base_text_overlay_text_chain.
  destruct (text_flushing (flags o)); [left; reflexivity|].
  destruct (text_eos (flags o)); [left; reflexivity|].
  destruct (GST_BUFFER_TIMESTAMP_IS_VALID b).
  - destruct (gst_segment_clip _ _ _ _) as [[cstart cstop]|].
    + apply wait_loop_stores_only_into_empty.
    + left; reflexivity.
  - apply wait_loop_stores_only_into_empty.
Qed.

Lemma text_chain_wake_stores_only_into_empty
    (o : Overlay) (b : GstBuffer) (cs : Z) :
  stores_only_into_empty o (text_chain_wake o b cs).
Proof.
  unfold text_chain_wake.
  destruct (text_flushing (flags o)); [left; reflexivity|].
  apply wait_loop_stores_only_into_empty.
Qed.

(** C3. The slot never takes a second buffer.  A step of the text chain
    function, on entry or after a wake, stores only into an empty slot, and
    then marks the cache dirty and broadcasts; entered with an in-segment
    buffer while the slot is occupied it parks in the wait loop and the
    element is untouched; after every wake it returns flushing when the
    text flushing flag is set, and otherwise parks again while the slot is
    still occupied. *)
Theorem slot_holds_at_most_one :
  (forall o b, stores_only_into_empty o (gst_base_text_overlay_text_chain o b))
  /\ (forall o b cs, stores_only_into_empty o (text_chain_wake o b cs))
  /\ (forall o b old,
        text_flushing (flags o) = false -> text_eos (flags o) = false ->
        in_segment o b = true -> text_buffer o = Some old ->
        exists b' cs,
          gst_base_text_overlay_text_chain o b = TextWait o b' cs)
  /\ (forall o b cs,
        text_flushing (flags o) = true ->
        text_chain_wake o b cs = TextReturn GST_FLOW_FLUSHING o [Unref b])
  /\ (forall o b cs old,
        text_flushing (flags o) = false -> text_buffer o = Some old ->
        text_chain_wake o b cs = TextWait o b cs)
  /\ (forall o b cs,
        text_flushing (flags o) = false -> text_buffer o = None ->
        exists o',
          text_chain_wake o b cs = TextReturn GST_FLOW_OK o' [Broadcast]
          /\ text_buffer o' = Some b
          /\ need_render (cache o') = true).
Proof.
  split; [exact text_chain_stores_only_into_empty|].
  split; [exact text_chain_wake_stores_only_into_empty|].
  split; [|split; [|split]].
  - intros o b old Hf He Hin Hb.
    unfold in_segment in Hin.
    destruct (GST_BUFFER_TIMESTAMP_IS_VALID b) eqn:Hv.
    + rewrite (text_chain_stamped o b Hf He Hv).
      destruct (gst_segment_clip _ _ _ _) as [[cstart cstop]|];
        [|discriminate].
      unfold text_chain_wait_loop. rewrite Hb. eauto.
    + rewrite (text_chain_unstamped o b Hf He Hv).
      unfold text_chain_wait_loop. rewrite Hb. eauto.
  - intros o b cs Hf. unfold text_chain_wake. rewrite Hf. reflexivity.
  - intros o b cs old Hf Hb. unfold text_chain_wake, text_chain_wait_loop.
    rewrite Hf, Hb. reflexivity.
  - intros o b cs Hf Hb. unfold text_chain_wake. rewrite Hf.
    destruct (text_chain_wait_loop_cases o b cs)
      as [(old & Hold & _) | (_ & o' & Heq & Hs & Hn)]; [congruence|].
    exists o'. auto.
Qed.

(** C4. The text chain function returns flushing when the text flushing
    flag is set on entry, whatever the end-of-stream flag says; end of
    stream when only that flag is set; and for a stamped buffer that the
    text segment clips away it releases the buffer and returns OK with the
    element, slot included, as it was. *)
Theorem push_rejects_and_discards :
  (forall o b,
     text_flushing (flags o) = true ->
     gst_base_text_overlay_text_chain o b
     = TextReturn GST_FLOW_FLUSHING o [Unref b])
  /\ (forall o b,
        text_flushing (flags o) = false -> text_eos (flags o) = true ->
        gst_base_text_overlay_text_chain o b
        = TextReturn GST_FLOW_EOS o [Unref b])
  /\ (forall o b,
        text_flushing (flags o) = false -> text_eos (flags o) = false ->
        GST_BUFFER_TIMESTAMP_IS_VALID b = true ->
        in_segment o b = false ->
        gst_base_text_overlay_text_chain o b
        = TextReturn GST_FLOW_OK o [Unref b]).
Proof.
  repeat split.
  - intros o b Hf. unfold gst_base_text_overlay_text_chain.
    rewrite Hf. reflexivity.
  - intros o b Hf He. unfold gst_base_text_overlay_text_chain.
    rewrite Hf, He. reflexivity.
  - intros o b Hf He Hv Hout.
    rewrite (text_chain_stamped o b Hf He Hv).
    unfold in_segment in Hout. rewrite Hv in Hout.
    destruct (gst_segment_clip _ _ _ _) as [[cstart cstop]|];
      [discriminate | reflexivity].
Qed.

(** A stamped buffer the text segment lets through is stored with its
    timestamp moved to the clipped start and its duration as it came. *)
Lemma text_chain_keeps_duration
    (o : Overlay) (b : GstBuffer) (cstart cstop : Z) :
  text_flushing (flags o) = false -> text_eos (flags o) = false ->
  GST_BUFFER_TIMESTAMP_IS_VALID b = true ->
  gst_segment_clip (text_segment o) GST_FORMAT_TIME (pts b)
    (if GST_BUFFER_DURATION_IS_VALID b
     then wrap64 (pts b + duration b) else GST_CLOCK_TIME_NONE)
  = Some (cstart, cstop) ->
  text_buffer o = None ->
  exists o',
    gst_base_text_overlay_text_chain o b
    = TextReturn GST_FLOW_OK o' [Broadcast]
    /\ text_buffer o'
       = Some {| pts := cstart; duration := duration b; data := data b |}.
Proof.
  intros Hf He Hv Hclip Hb.
  rewrite (text_chain_stamped o b Hf He Hv), Hclip.
  destruct (text_chain_wait_loop_cases o (set_pts cstart b) cstart)
    as [(old & Hold & _) | (_ & o' & Heq & Hs & _)]; [congruence|].
  exists o'. split; assumption.
Qed.



(** ** The empty slot *)

(** C6, as the code has it.  With the text pad linked and the slot empty,
    the pass pushes the frame as it is without waiting exactly when text
    end-of-stream is set, or waiting for text is switched off, or the text
    segment is in time format and the running time of its start or of its
    position is valid and lies after the running time [vs] of the frame's
    timestamp; otherwise the thread parks, and a wake starts the pass
    again. *)
Theorem empty_slot_waits_unless_text_ahead (o : Overlay) (fr : VideoFrame) :
  slot_decision_reached o ->
  text_buffer o = None ->
  (no_wait o fr = true ->
     video_chain_pass o fr
     = VideoReturn (gst_pad_push (Unmodified (vf_buffer fr)))
         (update_position (vf_clip_start fr) o)
         [Pushed (Unmodified (vf_buffer fr))])
  /\ (no_wait o fr = false ->
        video_chain_pass o fr = VideoWait o
        /\ forall o', video_chain_wake o' fr = video_chain_pass o' fr)
  /\ (is_unmodified_return (video_chain_pass o fr) = true
      <-> no_wait o fr = true).
Proof.
  intros (Hf & He & Hs & Hl) Hb.
  assert (Hpass : video_chain_pass o fr =
            if no_wait o fr then
              VideoReturn (gst_pad_push (Unmodified (vf_buffer fr)))
                (update_position (vf_clip_start fr) o)
                [Pushed (Unmodified (vf_buffer fr))]
            else VideoWait o).
  { unfold video_chain_pass, no_wait, text_known_ahead.
    rewrite Hf, He, Hs, Hl, Hb. cbn [negb].
    destruct (text_eos (flags o)), (wait_text (props o)),
      (GstFormat_eqb (seg_format (text_segment o)) GST_FORMAT_TIME);
      cbn [negb andb orb]; try reflexivity.
    all: match goal with |- context [if ?c then false else ?x] =>
      destruct c end; reflexivity. }
  rewrite Hpass.
  destruct (no_wait o fr); cbn; repeat split; intros; try discriminate;
    reflexivity.
Qed.

(** ** Flushing *)

(** C5, as the code has it.  Flush start on a pad sets that pad's flushing
    flag and broadcasts; the thread parked in that pad's own chain function
    then returns flushing on its wake: the text chain function after text
    flush start, the video chain function after video flush start.  Flush
    stop on a pad clears that pad's flushing and end-of-stream flags and
    re-initialises that pad's segment in time format; the pending slot is
    emptied by text flush stop, and left as it is by video flush stop. *)
Theorem flush_wakes_own_stream :
  (forall o b cs,
     exists ret o',
       gst_base_text_overlay_text_event o GST_EVENT_FLUSH_START
       = (ret, o', [Broadcast])
       /\ text_chain_wake o' b cs
          = TextReturn GST_FLOW_FLUSHING o' [Unref b])
  /\ (forall o fr,
        exists ret o',
          gst_base_text_overlay_video_event o GST_EVENT_FLUSH_START
          = (ret, o', [Broadcast])
          /\ video_chain_wake o' fr
             = VideoReturn GST_FLOW_FLUSHING o' [Unref (vf_buffer fr)])
  /\ (forall o,
        let o' :=
          snd (fst (gst_base_text_overlay_text_event o GST_EVENT_FLUSH_STOP)) in
        text_flushing (flags o') = false
        /\ text_eos (flags o') = false
        /\ text_buffer o' = None
        /\ text_segment o' = gst_segment_init GST_FORMAT_TIME)
  /\ (forall o,
        let o' :=
          snd (fst (gst_base_text_overlay_video_event o GST_EVENT_FLUSH_STOP)) in
        video_flushing (flags o') = false
        /\ video_eos (flags o') = false
        /\ segment o' = gst_segment_init GST_FORMAT_TIME
        /\ text_buffer o' = text_buffer o).
Proof.
  split; [|split; [|split]].
  - intros o b cs. do 2 eexists. split; reflexivity.
  - intros o fr. do 2 eexists. split; reflexivity.
  - intros o. cbn. unfold gst_base_text_overlay_pop_text. cbn.
    destruct (text_buffer o) eqn:Hb; cbn; repeat split. exact Hb.
  - intros o. cbn. repeat split.
Qed.

(** ** The render cache *)


Lemma set_property_marks_dirty (o : Overlay) (value : PropValue) :
  need_render (cache (gst_base_text_overlay_set_property o value)) = true.
Proof.
  destruct value; reflexivity.
Qed.

Lemma pop_text_spec (o : Overlay) :
  let r := gst_base_text_overlay_pop_text o in
  cache (fst r) = cache o /\ rasterized (snd r) = []
  /\ text_buffer (fst r) = None.
Proof.
  unfold gst_base_text_overlay_pop_text.
  destruct (text_buffer o) eqn:Hb; cbn; repeat split. exact Hb.
Qed.



(** [cache_consistent] holds of the fresh element and is kept by every
    operation embedded here: whatever clears [need_render] has just built
    a composition, and nothing else removes one. *)
Lemma cache_consistent_invariant :
  cache_consistent gst_base_text_overlay_init
  /\ (forall o value,
        cache_consistent (gst_base_text_overlay_set_property o value))
  /\ (forall o b,
        cache_consistent o ->
        match gst_base_text_overlay_text_chain o b with
        | TextReturn _ o' _ | TextWait o' _ _ => cache_consistent o'
        end)
  /\ (forall o b cs,
        cache_consistent o ->
        match text_chain_wake o b cs with
        | TextReturn _ o' _ | TextWait o' _ _ => cache_consistent o'
        end)
  /\ (forall o ev,
        cache_consistent o ->
        cache_consistent
          (snd (fst (gst_base_text_overlay_text_event o ev)))
        /\ cache_consistent
             (snd (fst (gst_base_text_overlay_video_event o ev))))
  /\ (forall o fr,
        cache_consistent o ->
        match video_chain_pass o fr with
        | VideoReturn _ o' _ | VideoRetry o' _ | VideoWait o' =>
            cache_consistent o'
        end).
Proof.
  split; [discriminate|].
  split.
  { intros o value Hn.
    pose proof (set_property_marks_dirty o value). congruence. }
  split.
  { intros o b Hc. pose proof (text_chain_stores_only_into_empty o b) as H.
    destruct (gst_base_text_overlay_text_chain o b); cbn in H.
    - destruct H as [-> | (_ & _ & Hn & _)]; [exact Hc|].
      intros Hn'. congruence.
    - subst; exact Hc. }
  split.
  { intros o b cs Hc.
    pose proof (text_chain_wake_stores_only_into_empty o b cs) as H.
    destruct (text_chain_wake o b cs); cbn in H.
    - destruct H as [-> | (_ & _ & Hn & _)]; [exact Hc|].
      intros Hn'. congruence.
    - subst; exact Hc. }
  split.
  { intros o ev Hc. split.
    - destruct ev; cbn; try exact Hc.
      + destruct (GstFormat_eqb _ _); exact Hc.
      + unfold gst_base_text_overlay_pop_text; cbn.
        destruct (text_buffer o); exact Hc.
    - destruct ev; cbn; try exact Hc.
      destruct (GstFormat_eqb _ _); exact Hc. }
  intros o fr Hc.
  assert (Hcache : forall o1 o2, cache o2 = cache o1 ->
            cache_consistent o1 -> cache_consistent o2).
  { intros o1 o2 Heq. unfold cache_consistent. rewrite Heq. auto. }
  assert (Hpush : forall o1 f,
            cache_consistent o1 ->
            cache_consistent
              (snd (fst (gst_base_text_overlay_push_frame o1 f)))).
  { intros o1 f H1. apply (Hcache o1); [|exact H1].
    apply (push_frame_spec o1 f). }
  assert (Hpop : forall o1,
            cache_consistent o1 ->
            cache_consistent (fst (gst_base_text_overlay_pop_text o1))).
  { intros o1 H1. apply (Hcache o1); [|exact H1]. apply (pop_text_spec o1). }
  assert (Hrender : forall t l,
            cache_consistent
              (fst (gst_base_text_overlay_render_text o t l))).
  { intros t l. pose proof (render_text_spec o t l) as Hr. cbn zeta in Hr.
    destruct Hr as (_ & _ & _ & _ & _ & _ & _ & Hclean & Hdirty).
    destruct (need_render (cache o)) eqn:Hn.
    - intros _. apply Hdirty; reflexivity.
    - rewrite (Hclean eq_refl). exact Hc. }
  unfold video_chain_pass.
  destruct (video_flushing (flags o)); [exact Hc|].
  destruct (video_eos (flags o)); [exact Hc|].
  destruct (silent (props o)); [exact Hc|].
  destruct (text_linked (flags o)); cbn [negb].
  - destruct (text_buffer o) as [tb|].
    + destruct (_ && (_ <=? _)).
      { specialize (Hpop o Hc).
        destruct (gst_base_text_overlay_pop_text o); exact Hpop. }
      destruct (_ && (_ <=? _)); [exact Hc|].
      destruct (render_text_buffer_calls_render_text o tb) as (t & l & ->).
      specialize (Hrender t l).
      destruct (gst_base_text_overlay_render_text o t l) as [o1 evs1].
      specialize (Hpush o1 (vf_buffer fr) Hrender).
      destruct (gst_base_text_overlay_push_frame o1 (vf_buffer fr))
        as [[ret o2] evs2]. cbn [fst snd] in Hpush.
      destruct (_ || _); [|exact Hpush].
      specialize (Hpop o2 Hpush).
      destruct (gst_base_text_overlay_pop_text o2); exact Hpop.
    + match goal with |- context [if ?c then VideoWait _ else _] =>
        destruct c end; exact Hc.
  - destruct (option_map c_str _) as [[|a r]|]; try exact Hc.
    specialize (Hrender (Some (String a r)) (-1)).
    destruct (gst_base_text_overlay_render_text o _ _) as [o1 evs1].
    specialize (Hpush o1 (vf_buffer fr) Hrender).
    destruct (gst_base_text_overlay_push_frame o1 (vf_buffer fr))
      as [[ret o2] evs2]. exact Hpush.
Qed.

(** ** Placement *)

Lemma wrap32_small (x : Z) : - 2 ^ 31 <= x < 2 ^ 31 -> wrap32 x = x.
Proof.
  intros H. unfold wrap32. rewrite Z.mod_small; lia.
Qed.

Lemma CLAMP_bounds (x low high : Z) :
  low <= high -> low <= CLAMP x low high <= high.
Proof.
  intros H. unfold CLAMP.
  destruct (high <? x) eqn:E1; [lia|].
  destruct (x <? low) eqn:E2; [lia|].
  apply Z.ltb_ge in E1, E2. lia.
Qed.

Lemma quot2_bounds (a : Z) : 0 <= a -> 0 <= Z.quot a 2 <= a.
Proof.
  intros H. rewrite Z.quot_div_nonneg by lia.
  split; [apply Z.div_pos; lia|].
  apply Z.div_le_upper_bound; lia.
Qed.

(** C9, as the code has it.  Only the positional modes clamp, and the
    centred modes need no clamp: without vertical rendering, with
    horizontal and vertical alignment each positional or centred and an
    image no larger than the frame, the position is some point that keeps
    the image inside the frame, offset by the deltas afterwards; so the
    image lies inside the frame when both deltas are zero. *)
Theorem placement_within_frame_before_delta (o : Overlay) :
  use_vertical_render (props o) = false ->
  halign (props o) = GST_BASE_TEXT_OVERLAY_HALIGN_POS
  \/ halign (props o) = GST_BASE_TEXT_OVERLAY_HALIGN_CENTER ->
  valign (props o) = GST_BASE_TEXT_OVERLAY_VALIGN_POS
  \/ valign (props o) = GST_BASE_TEXT_OVERLAY_VALIGN_CENTER ->
  0 <= image_width (cache o) <= width (info o) ->
  width (info o) < 2 ^ 31 ->
  0 <= image_height (cache o) <= height (info o) ->
  height (info o) < 2 ^ 31 ->
  (exists x0 y0,
     gst_base_text_overlay_get_pos o
     = (wrap32 (x0 + deltax (props o)), wrap32 (y0 + deltay (props o)))
     /\ 0 <= x0 /\ x0 + image_width (cache o) <= width (info o)
     /\ 0 <= y0 /\ y0 + image_height (cache o) <= height (info o))
  /\ (deltax (props o) = 0 -> deltay (props o) = 0 ->
      within_frame o (gst_base_text_overlay_get_pos o)).
Proof.
  intros Hvert Hh Hv Hw HW Hht HH.
  assert (Hex : exists x0 y0,
     gst_base_text_overlay_get_pos o
     = (wrap32 (x0 + deltax (props o)), wrap32 (y0 + deltay (props o)))
     /\ 0 <= x0 /\ x0 + image_width (cache o) <= width (info o)
     /\ 0 <= y0 /\ y0 + image_height (cache o) <= height (info o)).
  { unfold gst_base_text_overlay_get_pos. rewrite Hvert.
    rewrite (wrap32_small (width (info o) - image_width (cache o))) by lia.
    rewrite (wrap32_small (height (info o) - image_height (cache o))) by lia.
    destruct Hh as [-> | ->], Hv as [-> | ->];
      do 2 eexists; (split; [reflexivity|]).
    all: repeat match goal with
      | |- context [CLAMP ?x 0 ?h] =>
          let H := fresh "Hc" in
          assert (H : 0 <= CLAMP x 0 h <= h) by (apply CLAMP_bounds; lia);
          generalize dependent (CLAMP x 0 h); intros
      | |- context [Z.quot ?a 2] =>
          let H := fresh "Hq" in
          assert (H : 0 <= Z.quot a 2 <= a) by (apply quot2_bounds; lia);
          generalize dependent (Z.quot a 2); intros
      end.
    all: repeat match goal with
      | |- context [if ?c then _ else _] => destruct c eqn:?
      end; lia. }
  split; [exact Hex|].
  intros Hdx Hdy. destruct Hex as (x0 & y0 & -> & Hx0 & Hx1 & Hy0 & Hy1).
  rewrite Hdx, Hdy, !Z.add_0_r.
  rewrite (wrap32_small x0), (wrap32_small y0) by lia.
  unfold within_frame; cbn. lia.
Qed.

End Properties.

(** * The element on concrete inputs *)

Section Runs.

Import Reference.
#[local] Existing Instance platform.
#[local] Existing Instance collaborators.

(** A text buffer [0, 500 ms) is stale for the frame [1000 ms, 2000 ms):
    it is released and the thread is at the label again; left alone it
    then parks on the empty slot, and when the text chain has stored
    "ho" for [1000 ms, 1500 ms) in the meantime it renders that for the
    same frame.  A text buffer [2000 ms, 3000 ms) is ahead of the frame
    [0, 1000 ms), which goes out as it is. *)
Lemma stale_checked_before_future_witness :
  (let tb := text 0 (ms 500) "hi" in
   let o := holding tb in
   let fr := entered o (frame (ms 1000) (ms 1000)) in
   let other :=
     fun o' =>
       after_text
         (gst_base_text_overlay_text_chain o' (text (ms 1000) (ms 500) "ho")) in
   te o tb <= vs o fr
   /\ video_chain_step fr AtLabel o
      = (AtLabel, set_text_buffer None o, [Unref tb; Broadcast])
   /\ video_chain_pass o fr
      = VideoRetry (set_text_buffer None o) [Unref tb; Broadcast]
   /\ video_chain_run [undisturbed] fr AtLabel o []
      = VideoStopped Parked (set_text_buffer None o) [Unref tb; Broadcast]
   /\ exists o',
        video_chain_run [other] fr AtLabel o []
        = VideoStopped (PushingFrame true) o'
            [Unref tb; Broadcast; Rasterize "ho"])
  /\ (let tb := text (ms 2000) (ms 1000) "hi" in
      let o := holding tb in
      let fr := entered o (frame 0 (ms 1000)) in
      ve o fr <= ts o tb
      /\ video_chain_pass o fr
         = VideoReturn GST_FLOW_OK (update_position 0 o)
             [Pushed (Unmodified (frame 0 (ms 1000)))]
      /\ text_buffer (update_position 0 o) = Some tb
      /\ video_chain_run [undisturbed; undisturbed] fr AtLabel o []
         = VideoDone GST_FLOW_OK (update_position 0 o)
             [Pushed (Unmodified (frame 0 (ms 1000)))]).
Proof.
  split.
  - intros tb o fr other.
    assert (Hstale : te o tb <= vs o fr) by run.
    assert (Hr : slot_decision_reached o) by run.
    assert (Hb : text_buffer o = Some tb) by run.
    assert (Hv : valid_text_time tb = true) by run.
    destruct (proj1 (stale_checked_before_future o fr tb Hr Hb Hv) Hstale)
      as (Hstep & Hpass & _ & _ & Hretry & _).
    split; [exact Hstale|]. split; [exact Hstep|]. split; [exact Hpass|].
    split.
    + rewrite (Hretry undisturbed []). vm_compute. reflexivity.
    + rewrite (Hretry other []). vm_compute. eexists. reflexivity.
  - intros tb o fr.
    assert (Hfuture : ve o fr <= ts o tb) by run.
    assert (Hfresh : ~ te o tb <= vs o fr) by (apply Z.nle_gt; run).
    assert (Hr : slot_decision_reached o) by run.
    assert (Hb : text_buffer o = Some tb) by run.
    assert (Hv : valid_text_time tb = true) by run.
    destruct (proj2 (stale_checked_before_future o fr tb Hr Hb Hv)
                Hfresh Hfuture) as (_ & Hpass & Hslot & Hrun).
    split; [exact Hfuture|]. split; [exact Hpass|]. split; [exact Hslot|].
    exact (proj1 (Hrun undisturbed undisturbed [] [])).
Defined.

(** Frame [0, 1000 ms) against text [500 ms, 700 ms): "hi" is rendered,
    one composited push, slot empty afterwards. *)
Lemma overlap_renders_and_composites_witness :
  let tb := text (ms 500) (ms 200) "hi" in
  let o := holding tb in
  let fr := entered o (frame 0 (ms 1000)) in
  (~ te o tb <= vs o fr) /\ (~ ve o fr <= ts o tb) /\ te o tb <= ve o fr
  /\ exists ret o' evs out,
       video_chain_pass o fr = VideoReturn ret o' evs
       /\ video_chain_run [undisturbed; undisturbed; undisturbed] fr
            AtLabel o []
          = VideoDone ret o' evs
       /\ rasterized evs = ["hi"%string]
       /\ pushed evs = [out]
       /\ is_composited out = true
       /\ output_frame out = vf_buffer fr
       /\ text_buffer o' = None.
Proof.
  intros tb o fr.
  assert (H1 : ~ te o tb <= vs o fr) by (apply Z.nle_gt; run).
  assert (H2 : ~ ve o fr <= ts o tb) by (apply Z.nle_gt; run).
  assert (H3 : te o tb <= ve o fr) by run.
  assert (Hr : slot_decision_reached o) by run.
  assert (Hb : text_buffer o = Some tb) by run.
  assert (Hv : valid_text_time tb = true) by run.
  assert (Hc : cache_consistent o) by run.
  split; [exact H1|]. split; [exact H2|]. split; [exact H3|].
  destruct (overlap_renders_and_composites o fr tb Hr Hb Hv Hc H1 H2)
    as (o1 & c & Hstep & _ & _ & _ & _ & _ & _ & _ & _
        & ret & o' & evs & Hpass & Hrun & Hras & Hpush & Hslot & _).
  assert (Ho1 : o1 = snd (fst (video_chain_step fr AtLabel o)))
    by (rewrite Hstep; reflexivity).
  rewrite Ho1 in Hpush.
  replace (frame_accepted (snd (fst (video_chain_step fr AtLabel o)))
             (vf_buffer fr)) with true in Hpush
    by (vm_compute; reflexivity).
  destruct Hpush as (out & Hout & _ & Hcomp & Hframe).
  exists ret, o', evs, out.
  split; [exact Hpass|]. split; [exact Hrun|].
  split; [exact Hras|]. split; [exact Hout|].
  split; [destruct out; [discriminate Hcomp | reflexivity | reflexivity]|].
  split; [exact Hframe|]. apply Hslot, H3.
Defined.

(** A second buffer arriving while "hi" is pending parks; woken with the
    slot still occupied it parks again; woken under flushing it returns. *)
Lemma slot_holds_at_most_one_witness :
  let o := holding (text 0 (ms 500) "hi") in
  let b := text (ms 500) (ms 500) "ho" in
  (exists b' cs, gst_base_text_overlay_text_chain o b = TextWait o b' cs)
  /\ text_chain_wake o b (ms 500) = TextWait o b (ms 500)
  /\ text_chain_wake (upd_flags (set_text_flushing true) o) b (ms 500)
     = TextReturn GST_FLOW_FLUSHING (upd_flags (set_text_flushing true) o)
         [Unref b]
  /\ stores_only_into_empty playing (gst_base_text_overlay_text_chain playing b).
Proof.
  intros o b.
  destruct slot_holds_at_most_one as (Hstore & _ & Hpark & Hflush & Hagain & _).
  split; [apply (Hpark o b (text 0 (ms 500) "hi")); run|].
  split; [apply (Hagain o b (ms 500) (text 0 (ms 500) "hi")); run|].
  split; [apply Hflush; run|].
  apply Hstore.
Defined.

(** With the text segment at 100 ms .. 200 ms a buffer [300 ms, 400 ms)
    is clipped away. *)
Lemma push_rejects_and_discards_witness :
  let b := text (ms 300) (ms 100) "hi" in
  gst_base_text_overlay_text_chain (upd_flags (set_text_flushing true)
                                      (upd_flags (set_text_eos true) playing)) b
  = TextReturn GST_FLOW_FLUSHING
      (upd_flags (set_text_flushing true)
         (upd_flags (set_text_eos true) playing)) [Unref b]
  /\ gst_base_text_overlay_text_chain (upd_flags (set_text_eos true) playing) b
     = TextReturn GST_FLOW_EOS (upd_flags (set_text_eos true) playing)
         [Unref b]
  /\ in_segment text_window b = false
  /\ gst_base_text_overlay_text_chain text_window b
     = TextReturn GST_FLOW_OK text_window [Unref b].
Proof.
  intros b.
  destruct push_rejects_and_discards as (Hflush & Heos & Hclip).
  split; [apply Hflush; run|].
  split; [apply Heos; run|].
  split; [run|].
  apply Hclip; run.
Defined.

(** The slot is empty: under text end-of-stream the frame goes out as it
    is; otherwise, with text waited for and the text position at the
    frame's start, the thread parks. *)
Lemma empty_slot_waits_unless_text_ahead_witness :
  (let o := upd_flags (set_text_eos true) playing in
   let fr := entered o (frame 0 (ms 1000)) in
   no_wait o fr = true
   /\ video_chain_pass o fr
      = VideoReturn GST_FLOW_OK (update_position 0 o)
          [Pushed (Unmodified (frame 0 (ms 1000)))])
  /\ (let fr := entered playing (frame 0 (ms 1000)) in
      no_wait playing fr = false
      /\ video_chain_pass playing fr = VideoWait playing).
Proof.
  split.
  - intros o fr.
    assert (Hnw : no_wait o fr = true) by run.
    split; [exact Hnw|].
    refine (proj1 (empty_slot_waits_unless_text_ahead o fr _ _) Hnw); run.
  - intros fr.
    assert (Hnw : no_wait playing fr = false) by run.
    split; [exact Hnw|].
    refine (proj1 (proj1 (proj2
              (empty_slot_waits_unless_text_ahead playing fr _ _)) Hnw));
      run.
Defined.


(** Positional alignment at the centre of a 640 x 480 frame puts the
    16 x 16 image at (312, 232). *)
Lemma placement_within_frame_before_delta_witness :
  gst_base_text_overlay_get_pos positional = (312, 232)
  /\ within_frame positional (gst_base_text_overlay_get_pos positional).
Proof.
  split; [run|].
  refine (proj2 (placement_within_frame_before_delta positional
                   _ _ _ _ _ _ _) _ _); try run.
  - left; run.
  - left; run.
Defined.


(** ** Where the code departs from the claims *)

(** C2.  The text [500 ms, 700 ms) overlaps the frame [0, 1000 ms), but
    the frame has no data and cannot be mapped for blending:
    [gst_base_text_overlay_push_frame] leaves through [invalid_frame],
    the frame is released, nothing is pushed, and the text is popped all
    the same. *)
Lemma overlap_with_unmappable_frame_emits_nothing :
  let tb := text (ms 500) (ms 200) "hi" in
  let o := holding tb in
  let unmappable := {| pts := 0; duration := ms 1000; data := "" |} in
  let fr := entered o unmappable in
  slot_decision_reached o /\ text_buffer o = Some tb
  /\ valid_text_time tb = true /\ cache_consistent o
  /\ (~ te o tb <= vs o fr) /\ (~ ve o fr <= ts o tb)
  /\ vf_buffer fr = unmappable
  /\ frame_accepted (snd (fst (video_chain_step fr AtLabel o))) unmappable
     = false
  /\ exists o',
       video_chain_pass o fr
       = VideoReturn GST_FLOW_OK o'
           [Rasterize "hi"; Unref unmappable; Unref tb; Broadcast]
       /\ video_chain_run [undisturbed; undisturbed; undisturbed] fr
            AtLabel o []
          = VideoDone GST_FLOW_OK o'
              [Rasterize "hi"; Unref unmappable; Unref tb; Broadcast]
       /\ pushed [Rasterize "hi"; Unref unmappable; Unref tb; Broadcast] = []
       /\ text_buffer o' = None.
Proof.
  intros tb o unmappable fr.
  split; [run|]. split; [run|]. split; [run|]. split; [run|].
  split; [apply Z.nle_gt; run|]. split; [apply Z.nle_gt; run|].
  split; [reflexivity|]. split; [vm_compute; reflexivity|].
  eexists. split; [vm_compute; reflexivity|].
  split; [vm_compute; reflexivity|]. split; reflexivity.
Qed.

(** C5.  The video chain function is parked waiting for text; text flush
    start wakes it, it finds its own flushing flag clear and parks again
    instead of returning flushing.  And video flush stop leaves a pending
    text buffer where it is. *)
Lemma text_flush_start_leaves_video_waiting :
  (let fr := entered playing (frame 0 (ms 1000)) in
   video_chain_pass playing fr = VideoWait playing
   /\ exists o',
        gst_base_text_overlay_text_event playing GST_EVENT_FLUSH_START
        = (true, o', [Broadcast])
        /\ video_chain_wake o' fr = VideoWait o'
        /\ video_chain_wake o' fr
           <> VideoReturn GST_FLOW_FLUSHING o' [Unref (vf_buffer fr)])
  /\ (let tb := text 0 (ms 500) "hi" in
      text_buffer
        (snd (fst (gst_base_text_overlay_video_event (holding tb)
                     GST_EVENT_FLUSH_STOP)))
      = Some tb).
Proof.
  split.
  - intros fr. split; [run|].
    eexists. split; [reflexivity|]. split; [run|].
    vm_compute. discriminate.
  - run.
Qed.

(** C6.  The text position is at 500 ms, inside the frame [0, 1000 ms):
    neither the text start nor the text position exceeds [ve], yet the
    frame is pushed at once. *)
Lemma text_inside_frame_is_not_waited_for :
  let o := after_gap in
  let fr := entered o (frame 0 (ms 1000)) in
  slot_decision_reached o /\ text_buffer o = None
  /\ ~ (is_unmodified_return (video_chain_pass o fr) = true
        <-> no_wait_from_end o fr = true).
Proof.
  intros o fr. split; [run|]. split; [run|].
  intros [Hcode _].
  assert (Hret : is_unmodified_return (video_chain_pass o fr) = true) by run.
  specialize (Hcode Hret). vm_compute in Hcode. discriminate.
Qed.

(** C7.  With the text segment at 100 ms .. 200 ms, the buffer
    [50 ms, 150 ms) clips to [100 ms, 150 ms); it is stored with
    timestamp 100 ms and its duration still 100 ms, not 50 ms. *)
Theorem text_duration_is_not_clipped :
  let b := text (ms 50) (ms 100) "hi" in
  gst_segment_clip (text_segment text_window) GST_FORMAT_TIME (ms 50) (ms 150)
  = Some (ms 100, ms 150)
  /\ exists o',
       gst_base_text_overlay_text_chain text_window b
       = TextReturn GST_FLOW_OK o' [Broadcast]
       /\ text_buffer o'
          = Some {| pts := ms 100; duration := ms 100; data := "hi" |}
       /\ ms 100 <> ms 150 - ms 100.
Proof.
  intros b. split; [run|].
  eexists. split; [run|]. split; [run|]. vm_compute. discriminate.
Qed.

(** C9.  Left alignment with a padding of 630 pixels puts the 16 pixel
    wide image at x = 630 in a 640 pixel wide frame; positional alignment
    shifted by a delta of 400 puts it at x = 712. *)
Lemma placement_can_leave_the_frame :
  gst_base_text_overlay_get_pos padded_left = (630, 439)
  /\ ~ within_frame padded_left (gst_base_text_overlay_get_pos padded_left)
  /\ gst_base_text_overlay_get_pos positional_shifted = (712, 232)
  /\ ~ within_frame positional_shifted
         (gst_base_text_overlay_get_pos positional_shifted).
Proof.
  split; [run|]. split.
  - intros (_ & H & _). vm_compute in H. apply H. reflexivity.
  - split; [run|].
    intros (_ & H & _). vm_compute in H. apply H. reflexivity.
Qed.

End Runs.

(** * More properties of the element *)

Section MoreProperties.

Context {P : Platform} {C : Collaborators}.

(** ** The video chain function as a whole *)

Lemma push_frame_events (o : Overlay) (f : GstBuffer) :
  let r := gst_base_text_overlay_push_frame o f in
  sync_flags (snd (fst r)) = sync_flags o
  /\ ((exists out, snd r = [Pushed out] /\ output_frame out = f)
      \/ snd r = [Unref f]).
Proof.
  unfold gst_base_text_overlay_push_frame, sync_flags.
  destruct (composition (cache o)) as [c|]; cbn.
  - destruct (gst_pad_check_reconfigure o); cbn.
    + destruct (negotiated_attach o); cbn.
      * split; [reflexivity|]. left. eexists. split; reflexivity.
      * destruct (gst_video_frame_map (info o) f); cbn.
        -- split; [reflexivity|]. left. eexists. split; reflexivity.
        -- split; [reflexivity|]. right. reflexivity.
    + destruct (attach_compo_to_buffer (flags o)); cbn.
      * split; [reflexivity|]. left. eexists. split; reflexivity.
      * destruct (gst_video_frame_map (info o) f); cbn.
        -- split; [reflexivity|]. left. eexists. split; reflexivity.
        -- split; [reflexivity|]. right. reflexivity.
  - split; [reflexivity|]. left. eexists. split; reflexivity.
Qed.

Lemma pop_text_events (o : Overlay) :
  let r := gst_base_text_overlay_pop_text o in
  pushed (snd r) = []
  /\ In Broadcast (snd r)
  /\ sync_flags (fst r) = sync_flags o
  /\ segment (fst r) = segment o
  /\ text_segment (fst r) = text_segment o
  /\ (forall tb, text_buffer o = Some tb -> In (Unref tb) (snd r))
  /\ (text_buffer o = None -> r = (o, [Broadcast])).
Proof.
  unfold gst_base_text_overlay_pop_text.
  destruct (text_buffer o) as [b|]; cbn; repeat split; auto.
  - intros tb [= <-]. auto.
  - discriminate.
  - discriminate.
Qed.

Lemma pop_text_releases (o : Overlay) (tb : GstBuffer) :
  text_buffer o = Some tb ->
  gst_base_text_overlay_pop_text o
  = (set_text_buffer None o, [Unref tb; Broadcast]).
Proof.
  intros Hb. unfold gst_base_text_overlay_pop_text. rewrite Hb. reflexivity.
Qed.

Lemma pop_text_keeps_info (o : Overlay) :
  info (fst (gst_base_text_overlay_pop_text o)) = info o.
Proof.
  unfold gst_base_text_overlay_pop_text.
  destruct (text_buffer o); reflexivity.
Qed.

Lemma render_text_events (o : Overlay) (t : option string) (l : Z) :
  snd (gst_base_text_overlay_render_text o t l) = []
  \/ exists s, snd (gst_base_text_overlay_render_text o t l) = [Rasterize s].
Proof.
  destruct (render_text_spec o t l) as (_ & _ & _ & _ & _ & _ & _ & Hc & Hd).
  cbn zeta in *.
  destruct (need_render (cache o)).
  - right. apply Hd. reflexivity.
  - left. rewrite (Hc eq_refl). reflexivity.
Qed.

(** A video chain pass, by the way it ends.  [Q] is asked of the branches
    that return after rendering and pushing, [R] of the retry. *)
Lemma video_chain_pass_cases (o : Overlay) (fr : VideoFrame) :
  let buffer := vf_buffer fr in
  let cs := vf_clip_start fr in
  video_chain_pass o fr = VideoReturn GST_FLOW_FLUSHING o [Unref buffer]
  \/ video_chain_pass o fr = VideoReturn GST_FLOW_EOS o [Unref buffer]
  \/ video_chain_pass o fr
     = VideoReturn (gst_pad_push (Unmodified buffer)) (update_position cs o)
         [Pushed (Unmodified buffer)]
  \/ video_chain_pass o fr = VideoWait o
  \/ (exists tb,
        text_buffer o = Some tb
        /\ video_chain_pass o fr
           = VideoRetry (fst (gst_base_text_overlay_pop_text o))
               (snd (gst_base_text_overlay_pop_text o)))
  \/ (exists t l (popped : bool),
        let r1 := gst_base_text_overlay_render_text o t l in
        let r2 := gst_base_text_overlay_push_frame (fst r1) buffer in
        let o2 := snd (fst r2) in
        let r3 :=
          if popped then gst_base_text_overlay_pop_text o2 else (o2, []) in
        video_chain_pass o fr
        = VideoReturn (fst (fst r2)) (update_position cs (fst r3))
            (snd r1 ++ snd r2 ++ snd r3)
        /\ (popped = true -> exists tb, text_buffer o = Some tb)).
Proof.
  cbn zeta. unfold video_chain_pass.
  destruct (video_flushing (flags o)); [auto|].
  destruct (video_eos (flags o)); [auto|].
  destruct (silent (props o)); [auto|].
  destruct (text_linked (flags o)); cbn [negb].
  - destruct (text_buffer o) as [tb|].
    + destruct (_ && (_ <=? _)).
      { do 4 right. left. exists tb. split; [reflexivity|].
        destruct (gst_base_text_overlay_pop_text o); reflexivity. }
      destruct (_ && (_ <=? _)); [auto|].
      do 5 right.
      destruct (render_text_buffer_calls_render_text o tb) as (t & l & ->).
      exists t, l.
      match goal with |- context [if ?c then gst_base_text_overlay_pop_text _
                                  else _] => exists c end.
      destruct (gst_base_text_overlay_render_text o t l) as [o1 evs1].
      cbn [fst snd].
      destruct (gst_base_text_overlay_push_frame o1 (vf_buffer fr))
        as [[ret o2] evs2]. cbn [fst snd].
      split; [|intros _; exists tb; reflexivity].
      destruct (_ || _); [|reflexivity].
      destruct (gst_base_text_overlay_pop_text o2); reflexivity.
    + match goal with |- context [if ?c then VideoWait _ else _] =>
        destruct c end; auto.
  - destruct (option_map c_str _) as [[|a r]|]; auto.
    do 5 right. exists (Some (String a r)), (-1), false.
    destruct (gst_base_text_overlay_render_text o _ _) as [o1 evs1].
    cbn [fst snd].
    destruct (gst_base_text_overlay_push_frame o1 (vf_buffer fr))
      as [[ret o2] evs2]. cbn [fst snd]. rewrite app_nil_r.
    split; [reflexivity | discriminate].
Qed.

Lemma frame_consumed_once (o : Overlay) (fr : VideoFrame) (evs : list Event) :
  frame_consumed o fr evs ->
  text_buffer o <> Some (vf_buffer fr) ->
  handed_on_once fr evs.
Proof.
  intros (pre & e & post & -> & Hpre & He & Hpost) Hdiff.
  exists pre, e, post. split; [reflexivity|]. split; [exact He|].
  apply Forall_app. split.
  - destruct Hpre as [-> | (s & ->)]; [constructor|].
    constructor; [|constructor].
    intros [(out & H & _) | H]; discriminate H.
  - destruct Hpost as [-> | (tb & Hb & ->)]; [constructor|].
    constructor; [|constructor; [|constructor]].
    + intros [(out & H & _) | H]; [discriminate H|].
      injection H as ->. exact (Hdiff Hb).
    + intros [(out & H & _) | H]; discriminate H.
Qed.

(** X1. With no other thread in between, a pass that returns hands the
    frame on exactly once.  Its events are, in this order: at most one
    rasterisation; one event that either pushes a buffer carrying the
    frame or releases the frame; and at most the release of the text
    buffer that the slot held, with its broadcast.  So, the text buffer
    being another buffer than the frame, exactly one event of the pass
    pushes or releases the frame: it is never both pushed and released,
    and never pushed or released twice.  A pass that retries emits the
    release of the text buffer of the slot and a broadcast, and nothing
    else. *)
Theorem pass_consumes_frame_once (o : Overlay) (fr : VideoFrame) :
  match video_chain_pass o fr with
  | VideoReturn _ _ evs =>
      frame_consumed o fr evs
      /\ (text_buffer o <> Some (vf_buffer fr) -> handed_on_once fr evs)
  | VideoRetry _ evs =>
      exists tb, text_buffer o = Some tb /\ evs = [Unref tb; Broadcast]
  | VideoWait _ => True
  end.
Proof.
  assert (H : match video_chain_pass o fr with
              | VideoReturn _ _ evs => frame_consumed o fr evs
              | VideoRetry _ evs =>
                  exists tb,
                    text_buffer o = Some tb /\ evs = [Unref tb; Broadcast]
              | VideoWait _ => True
              end);
    [|destruct (video_chain_pass o fr) as [ret o' evs|o' evs|o'];
      [split; [exact H | apply (frame_consumed_once o fr evs H)]
      | exact H | exact I]].
  destruct (video_chain_pass_cases o fr)
    as [-> | [-> | [-> | [-> | [(tb & Hb & ->)
                               | (t & l & popped & -> & Hpopped)]]]]];
    cbn zeta.
  - exists [], (Unref (vf_buffer fr)), [].
    repeat split; auto. right. reflexivity.
  - exists [], (Unref (vf_buffer fr)), [].
    repeat split; auto. right. reflexivity.
  - exists [], (Pushed (Unmodified (vf_buffer fr))), [].
    repeat split; auto. left. eexists. split; reflexivity.
  - exact I.
  - exists tb. rewrite (pop_text_releases o tb Hb). auto.
  - destruct (render_text_spec o t l) as (Hb1 & _). cbn zeta in Hb1.
    pose proof (render_text_events o t l) as Hpre.
    set (r1 := gst_base_text_overlay_render_text o t l) in *.
    destruct (push_frame_spec (fst r1) (vf_buffer fr)) as (Hb2 & _).
    cbn zeta in Hb2.
    destruct (push_frame_events (fst r1) (vf_buffer fr)) as (_ & He).
    cbn zeta in He.
    set (r2 := gst_base_text_overlay_push_frame (fst r1) (vf_buffer fr)) in *.
    assert (Hpost : snd (if popped
                         then gst_base_text_overlay_pop_text (snd (fst r2))
                         else (snd (fst r2), [])) = []
                    \/ exists tb, text_buffer o = Some tb
                                  /\ snd (if popped
                                          then gst_base_text_overlay_pop_text
                                                 (snd (fst r2))
                                          else (snd (fst r2), []))
                                     = [Unref tb; Broadcast]).
    { destruct popped; [|left; reflexivity].
      destruct (Hpopped eq_refl) as (tb & Hb). right. exists tb.
      split; [exact Hb|].
      rewrite (pop_text_releases (snd (fst r2)) tb); [reflexivity|].
      rewrite Hb2, Hb1. exact Hb. }
    set (post := snd (if popped
                      then gst_base_text_overlay_pop_text (snd (fst r2))
                      else (snd (fst r2), []))) in *.
    destruct He as [(out & He & Hout) | He]; rewrite He; cbn [app].
    + exists (snd r1), (Pushed out), post. repeat split; auto.
      left. exists out. split; [reflexivity | exact Hout].
    + exists (snd r1), (Unref (vf_buffer fr)), post. repeat split; auto.
      right. reflexivity.
Qed.

(** X2. A pass leaves the streams alone: it keeps the five synchronisation
    flags, the text segment and the video info, moves nothing in the video
    segment but its position, and never fills the slot; when it empties
    the slot it releases the text buffer and broadcasts.  A pass that
    parks changes nothing. *)
Theorem pass_keeps_streams (o : Overlay) (fr : VideoFrame) :
  match video_chain_pass o fr with
  | VideoReturn _ o' evs | VideoRetry o' evs =>
      streams_kept o o' (vf_clip_start fr) evs
  | VideoWait o' => o' = o
  end.
Proof.
  assert (Hpop : forall o1 evs0,
            streams_kept o1 (fst (gst_base_text_overlay_pop_text o1))
              (vf_clip_start fr)
              (evs0 ++ snd (gst_base_text_overlay_pop_text o1))).
  { intros o1 evs0.
    destruct (pop_text_events o1) as (_ & Hb & Hf & Hs & Ht & Hu & Hn).
    pose proof (pop_text_spec o1) as (_ & _ & Hnone).
    pose proof (pop_text_keeps_info o1) as Hi.
    unfold streams_kept. repeat split; auto.
    destruct (text_buffer o1) as [tb|] eqn:Hslot.
    - right. split; [exact Hnone|]. exists tb.
      split; [reflexivity|]. split; apply in_or_app; right; auto.
    - left. rewrite (Hn eq_refl). exact Hslot. }
  destruct (video_chain_pass_cases o fr)
    as [-> | [-> | [-> | [-> | [(tb & _ & ->)
                               | (t & l & popped & -> & _)]]]]];
    cbn zeta.
  - unfold streams_kept; auto 6.
  - unfold streams_kept; auto 6.
  - unfold streams_kept; cbn; auto 6.
  - reflexivity.
  - apply (Hpop o []).
  - destruct (render_text_spec o t l)
      as (Hb1 & Hs1 & Ht1 & Hf1 & Hi1 & _). cbn zeta in *.
    set (o1 := fst (gst_base_text_overlay_render_text o t l)) in *.
    set (evs1 := snd (gst_base_text_overlay_render_text o t l)).
    destruct (push_frame_spec o1 (vf_buffer fr))
      as (Hb2 & Hs2 & Ht2 & _ & _ & Hi2 & _). cbn zeta in *.
    destruct (push_frame_events o1 (vf_buffer fr)) as (Hf2 & _).
    cbn zeta in *.
    set (r2 := gst_base_text_overlay_push_frame o1 (vf_buffer fr)) in *.
    assert (Hk : streams_kept (snd (fst r2))
                   (fst (if popped
                         then gst_base_text_overlay_pop_text (snd (fst r2))
                         else (snd (fst r2), [])))
                   (vf_clip_start fr)
                   ((evs1 ++ snd r2)
                    ++ snd (if popped
                            then gst_base_text_overlay_pop_text (snd (fst r2))
                            else (snd (fst r2), [])))).
    { destruct popped; [apply Hpop|]. unfold streams_kept; cbn; auto 6. }
    rewrite <- app_assoc in Hk.
    set (r3 := if popped
               then gst_base_text_overlay_pop_text (snd (fst r2))
               else (snd (fst r2), [])) in *.
    destruct Hk as (Kf & Kt & Ki & Ks & Kb).
    assert (Hflags : sync_flags o1 = sync_flags o).
    { unfold sync_flags. rewrite Hf1. reflexivity. }
    unfold streams_kept.
    change (sync_flags (update_position (vf_clip_start fr) (fst r3)))
      with (sync_flags (fst r3)).
    change (text_segment (update_position (vf_clip_start fr) (fst r3)))
      with (text_segment (fst r3)).
    change (info (update_position (vf_clip_start fr) (fst r3)))
      with (info (fst r3)).
    change (text_buffer (update_position (vf_clip_start fr) (fst r3)))
      with (text_buffer (fst r3)).
    change (segment (update_position (vf_clip_start fr) (fst r3)))
      with (set_seg_position (vf_clip_start fr) (segment (fst r3))).
    split; [rewrite Kf, Hf2; exact Hflags|].
    split; [rewrite Kt, Ht2; exact Ht1|].
    split; [rewrite Ki, Hi2; exact Hi1|].
    split.
    { right. destruct Ks as [-> | ->]; rewrite Hs2, Hs1; reflexivity. }
    destruct Kb as [Kb | (Kb & tb & Kslot & Ku & Kbr)].
    + left. rewrite Kb, Hb2. exact Hb1.
    + right. split; [exact Kb|]. exists tb.
      split; [rewrite <- Hb1, <- Hb2; exact Kslot|].
      split; assumption.
Qed.

Lemma pass_on_empty_slot_settles (o : Overlay) (fr : VideoFrame) :
  text_buffer o = None ->
  forall o' evs, video_chain_pass o fr <> VideoRetry o' evs.
Proof.
  intros Hempty o' evs.
  destruct (video_chain_pass_cases o fr)
    as [-> | [-> | [-> | [-> | [(tb & Hb & _)
                               | (t & l & popped & -> & _)]]]]];
    cbn zeta; try discriminate.
  congruence.
Qed.

(** X3. The video chain function goes back to its label for one reason
    only: the slot holds a text buffer with valid times that ends at or
    before the start of the frame.  The retry releases exactly that
    buffer, broadcasts, leaves the slot empty and pushes nothing; the lock
    is released before the jump, so what the next pass finds is whatever
    the other threads leave.  A pass that finds the slot empty never
    retries: every retry uses up one text buffer that the text chain
    function stored. *)
Theorem retry_releases_stale_text (o : Overlay) (fr : VideoFrame) :
  (forall o' evs,
     video_chain_pass o fr = VideoRetry o' evs ->
     slot_decision_reached o
     /\ exists tb,
          text_buffer o = Some tb
          /\ valid_text_time tb = true
          /\ te o tb <= vs o fr
          /\ o' = set_text_buffer None o
          /\ evs = [Unref tb; Broadcast]
          /\ pushed evs = []
          /\ video_chain_step fr AtLabel o = (AtLabel, o', evs))
  /\ (text_buffer o = None ->
      (forall o' evs, video_chain_pass o fr <> VideoRetry o' evs)
      /\ fst (fst (video_chain_step fr AtLabel o)) <> AtLabel).
Proof.
  split.
  - intros o' evs H. pose proof H as H0.
    unfold video_chain_pass in H.
    destruct (video_flushing (flags o)) eqn:Hf; [discriminate|].
    destruct (video_eos (flags o)) eqn:He; [discriminate|].
    destruct (silent (props o)) eqn:Hs; [discriminate|].
    destruct (text_linked (flags o)) eqn:Hl; cbn [negb] in H.
    2:{ destruct (option_map c_str _) as [[|a r]|]; try discriminate.
        destruct (gst_base_text_overlay_render_text o _ _) as [o1 evs1].
        destruct (gst_base_text_overlay_push_frame o1 _) as [[ret o2] evs2].
        discriminate. }
    assert (Hr : slot_decision_reached o) by (repeat split; assumption).
    split; [exact Hr|].
    destruct (text_buffer o) as [tb|] eqn:Hb.
    2:{ exfalso. exact (pass_on_empty_slot_settles o fr Hb _ _ H0). }
    clear H. exists tb. split; [reflexivity|].
    rewrite (video_chain_pass_pending o fr tb Hr Hb) in H0.
    destruct (valid_text_time tb && (te o tb <=? vs o fr)) eqn:Hstale.
    + apply andb_true_iff in Hstale. destruct Hstale as (Hv & Hle).
      apply Z.leb_le in Hle.
      rewrite (pop_text_releases o tb Hb) in H0.
      injection H0 as <- <-.
      repeat split; try assumption; try reflexivity.
      cbn [video_chain_step].
      rewrite (video_chain_locked_pending o fr tb Hr Hb), Hv.
      apply Z.leb_le in Hle. rewrite Hle. cbn.
      rewrite (pop_text_releases o tb Hb). reflexivity.
    + exfalso.
      destruct (valid_text_time tb && (ve o fr <=? ts o tb));
        [discriminate|].
      destruct (render_text_buffer o tb) as [o1 evs1].
      destruct (gst_base_text_overlay_push_frame o1 _) as [[ret o2] evs2].
      destruct (negb (valid_text_time tb) || (te o tb <=? ve o fr)).
      * destruct (gst_base_text_overlay_pop_text o2). discriminate.
      * discriminate.
  - intros Hempty. split.
    + exact (pass_on_empty_slot_settles o fr Hempty).
    + cbn [video_chain_step]. unfold video_chain_locked.
      destruct (video_flushing (flags o)); [discriminate|].
      destruct (video_eos (flags o)); [discriminate|].
      destruct (silent (props o)); [discriminate|].
      destruct (text_linked (flags o)); cbn [negb].
      * rewrite Hempty.
        match goal with |- context [if ?c then _ else _] =>
          destruct c end; discriminate.
      * destruct (option_map c_str _) as [[|a r]|]; discriminate.
Qed.

(** X4. In silent mode, and with the text pad unlinked, a pass never waits
    and never touches the slot: short of video flushing and video
    end-of-stream it returns at once.  In silent mode the frame goes out as
    it is whatever the slot holds, and the render cache stays as it was. *)
Theorem silent_or_unlinked_never_waits (o : Overlay) (fr : VideoFrame) :
  video_flushing (flags o) = false ->
  video_eos (flags o) = false ->
  silent (props o) = true \/ text_linked (flags o) = false ->
  exists ret o' evs,
    video_chain_pass o fr = VideoReturn ret o' evs
    /\ text_buffer o' = text_buffer o
    /\ (silent (props o) = true ->
        evs = [Pushed (Unmodified (vf_buffer fr))] /\ cache o' = cache o).
Proof.
  intros Hf He Hmode. unfold video_chain_pass. rewrite Hf, He.
  destruct (silent (props o)) eqn:Hs.
  - do 3 eexists. split; [reflexivity|]. cbn. auto.
  - destruct Hmode as [Hm | Hl]; [discriminate|]. rewrite Hl. cbn [negb].
    destruct (option_map c_str _) as [[|a r]|].
    + do 3 eexists. split; [reflexivity|]. cbn. split; [reflexivity|].
      discriminate.
    + destruct (render_text_spec o (Some (String a r)) (-1)) as (Hb1 & _).
      cbn zeta in Hb1.
      destruct (gst_base_text_overlay_render_text o _ _) as [o1 evs1].
      cbn [fst] in Hb1.
      destruct (push_frame_spec o1 (vf_buffer fr)) as (Hb2 & _).
      cbn zeta in Hb2.
      destruct (gst_base_text_overlay_push_frame o1 (vf_buffer fr))
        as [[ret o2] evs2]. cbn [fst snd] in Hb2.
      do 3 eexists. split; [reflexivity|]. cbn.
      split; [congruence | discriminate].
    + do 3 eexists. split; [reflexivity|]. cbn. split; [reflexivity|].
      discriminate.
Qed.

(** ** State changes and end of stream *)

Lemma video_chain_enter_discards
    (o : Overlay) (b : GstBuffer) (ret : GstFlowReturn) (evs : list Event) :
  video_chain_enter o b = Discarded ret evs ->
  ret = GST_FLOW_OK /\ evs = [Unref b].
Proof.
  unfold video_chain_enter.
  destruct (negb (GST_BUFFER_TIMESTAMP_IS_VALID b)); [intros [= <- <-]; auto|].
  destruct (_ && _); [intros [= <- <-]; auto|].
  destruct (gst_segment_clip _ _ _ _) as [[cs ce]|];
    [discriminate | intros [= <- <-]; auto].
Qed.

(** X5. Going from PAUSED to READY drains the element whether or not the
    parent class goes along: the slot is empty, a broadcast has gone out,
    and from then on the text chain function and a parked text chain
    function that wakes return flushing and release their buffer.  The
    video chain function releases every frame and pushes none: a frame
    without a timestamp or outside the video segment is dropped on entry
    with OK, these checks coming before any flag is read; every other
    frame is released with flushing in the first critical section, so the
    call never parks. *)
Theorem paused_to_ready_drains (o : Overlay) :
  let r :=
    gst_base_text_overlay_change_state o GST_STATE_CHANGE_PAUSED_TO_READY in
  let o' := snd (fst r) in
  text_buffer o' = None
  /\ In Broadcast (snd r)
  /\ (forall b,
        gst_base_text_overlay_text_chain o' b
        = TextReturn GST_FLOW_FLUSHING o' [Unref b])
  /\ (forall b cs,
        text_chain_wake o' b cs = TextReturn GST_FLOW_FLUSHING o' [Unref b])
  /\ (forall fr,
        video_chain_pass o' fr
        = VideoReturn GST_FLOW_FLUSHING o' [Unref (vf_buffer fr)])
  /\ (forall others b,
        gst_base_text_overlay_video_chain (undisturbed :: others) o' b
        = match video_chain_enter o' b with
          | Discarded _ _ => VideoDone GST_FLOW_OK o' [Unref b]
          | Accepted fr =>
              VideoDone GST_FLOW_FLUSHING o' [Unref (vf_buffer fr)]
          end).
Proof.
  cbn zeta. unfold gst_base_text_overlay_change_state.
  set (o1 := upd_flags (set_video_flushing true)
               (upd_flags (set_text_flushing true) o)).
  pose proof (pop_text_spec o1) as (_ & _ & Hnone).
  pose proof (pop_text_events o1) as (_ & Hbr & Hflags & _).
  cbn zeta in *.
  destruct (gst_base_text_overlay_pop_text o1) as [o2 evs] eqn:Hpop.
  cbn [fst snd] in *.
  assert (Hres : snd (fst (if negb (parent_change_state
                                      GST_STATE_CHANGE_PAUSED_TO_READY)
                           then (false, o2, evs) else (true, o2, evs))) = o2
                 /\ snd (if negb (parent_change_state
                                    GST_STATE_CHANGE_PAUSED_TO_READY)
                         then (false, o2, evs) else (true, o2, evs)) = evs).
  { destruct (negb _); split; reflexivity. }
  destruct Hres as (-> & ->).
  assert (Htf : text_flushing (flags o2) = true).
  { unfold sync_flags in Hflags. injection Hflags as _ _ -> _ _. reflexivity. }
  assert (Hvf : video_flushing (flags o2) = true).
  { unfold sync_flags in Hflags. injection Hflags as -> _ _ _ _. reflexivity. }
  repeat split; try assumption.
  - intros b. unfold gst_base_text_overlay_text_chain. rewrite Htf.
    reflexivity.
  - intros b cs. unfold text_chain_wake. rewrite Htf. reflexivity.
  - intros fr. unfold video_chain_pass. rewrite Hvf. reflexivity.
  - intros others b. unfold gst_base_text_overlay_video_chain.
    destruct (video_chain_enter o2 b) as [ret evs0|fr] eqn:Hin.
    + pose proof (video_chain_enter_discards o2 b ret evs0 Hin) as (-> & ->).
      reflexivity.
    + rewrite video_chain_run_unfold. cbn [video_chain_step].
      unfold undisturbed, video_chain_locked. rewrite Hvf. reflexivity.
Qed.

(** X6. Going from READY to PAUSED re-opens the element when the parent
    class goes along: the four flushing and end-of-stream flags are clear
    and both segments are freshly initialised in time format, the slot and
    the render cache being left as they were; when the parent class fails
    the element is untouched. *)
Theorem ready_to_paused_reopens (o : Overlay) :
  let r :=
    gst_base_text_overlay_change_state o GST_STATE_CHANGE_READY_TO_PAUSED in
  let o' := snd (fst r) in
  (parent_change_state GST_STATE_CHANGE_READY_TO_PAUSED = true ->
     fst (fst r) = true
     /\ video_flushing (flags o') = false /\ video_eos (flags o') = false
     /\ text_flushing (flags o') = false /\ text_eos (flags o') = false
     /\ text_linked (flags o') = text_linked (flags o)
     /\ segment o' = gst_segment_init GST_FORMAT_TIME
     /\ text_segment o' = gst_segment_init GST_FORMAT_TIME
     /\ text_buffer o' = text_buffer o /\ cache o' = cache o
     /\ snd r = [])
  /\ (parent_change_state GST_STATE_CHANGE_READY_TO_PAUSED = false ->
        r = (false, o, [])).
Proof.
  cbn zeta. unfold gst_base_text_overlay_change_state.
  split; intros ->; cbn; repeat split.
Qed.

Lemma video_chain_pass_empty (o : Overlay) (fr : VideoFrame) :
  slot_decision_reached o ->
  text_buffer o = None ->
  video_chain_pass o fr
  = if no_wait o fr then
      VideoReturn (gst_pad_push (Unmodified (vf_buffer fr)))
        (update_position (vf_clip_start fr) o)
        [Pushed (Unmodified (vf_buffer fr))]
    else VideoWait o.
Proof.
  intros (Hf & He & Hs & Hl) Hb.
  unfold video_chain_pass, no_wait, text_known_ahead.
  rewrite Hf, He, Hs, Hl, Hb. cbn [negb].
  destruct (text_eos (flags o)), (wait_text (props o)),
    (GstFormat_eqb (seg_format (text_segment o)) GST_FORMAT_TIME);
    cbn [negb andb orb]; try reflexivity.
  all: match goal with |- context [if ?c then false else ?x] =>
    destruct c end; reflexivity.
Qed.

(** X7. Waiting for text can be called off.  Once the text pad has seen
    end-of-stream, and likewise once the wait-text property is switched
    off, a pass that finds the slot empty pushes the frame as it is instead
    of parking; the end-of-stream event broadcasts, so a video chain
    function parked at that moment is woken to do so, and the text chain
    function answers end-of-stream from then on. *)
Theorem waiting_for_text_called_off (o : Overlay) (fr : VideoFrame) :
  slot_decision_reached o ->
  text_buffer o = None ->
  (let r := gst_base_text_overlay_text_event o GST_EVENT_EOS in
   let o' := snd (fst r) in
   snd r = [Broadcast]
   /\ video_chain_wake o' fr
      = VideoReturn (gst_pad_push (Unmodified (vf_buffer fr)))
          (update_position (vf_clip_start fr) o')
          [Pushed (Unmodified (vf_buffer fr))]
   /\ (text_flushing (flags o) = false ->
       forall b,
         gst_base_text_overlay_text_chain o' b
         = TextReturn GST_FLOW_EOS o' [Unref b]))
  /\ (let o' := gst_base_text_overlay_set_property o (PROP_WAIT_TEXT false) in
      video_chain_pass o' fr
      = VideoReturn (gst_pad_push (Unmodified (vf_buffer fr)))
          (update_position (vf_clip_start fr) o')
          [Pushed (Unmodified (vf_buffer fr))]).
Proof.
  intros Hr Hb. split.
  - cbn zeta. cbn [gst_base_text_overlay_text_event fst snd].
    split; [reflexivity|]. split.
    + unfold video_chain_wake. rewrite video_chain_pass_empty.
      * reflexivity.
      * exact Hr.
      * exact Hb.
    + intros Hf b. unfold gst_base_text_overlay_text_chain. cbn.
      rewrite Hf. reflexivity.
  - cbn zeta. rewrite video_chain_pass_empty.
    + unfold no_wait. cbn.
      rewrite Bool.orb_true_r. reflexivity.
    + exact Hr.
    + exact Hb.
Qed.

(** ** Entering the video chain function *)

Lemma wrap64_small (x : Z) : 0 <= x < 2 ^ 64 -> wrap64 x = x.
Proof.
  intros H. unfold wrap64. apply Z.mod_small. exact H.
Qed.

(** X8. A video buffer without a timestamp is released and OK returned.  A
    buffer with timestamp and duration that the video segment lets through
    goes on with both stamps clipped: its timestamp is the clipped start
    and its duration is clipped stop minus clipped start, the bytes being
    untouched; the frame start used for matching stays the timestamp the
    buffer came with. *)
Theorem video_chain_enter_fixes_stamps (o : Overlay) (b : GstBuffer) :
  (GST_BUFFER_TIMESTAMP_IS_VALID b = false ->
     video_chain_enter o b = Discarded GST_FLOW_OK [Unref b])
  /\ (forall fr,
        0 <= pts b -> 0 <= duration b ->
        pts b + duration b < 2 ^ 64 - 1 ->
        video_chain_enter o b = Accepted fr ->
        exists cstart cstop,
          gst_segment_clip (segment o) GST_FORMAT_TIME (pts b)
            (pts b + duration b) = Some (cstart, cstop)
          /\ pts (vf_buffer fr) = cstart
          /\ duration (vf_buffer fr) = wrap64 (cstop - cstart)
          /\ data (vf_buffer fr) = data b
          /\ vf_clip_start fr = cstart
          /\ vf_start fr = pts b
          /\ vf_stop fr = pts b + duration b).
Proof.
  split.
  - intros Hv. unfold video_chain_enter. rewrite Hv. reflexivity.
  - intros fr Hp Hd Hsum. unfold video_chain_enter.
    destruct (GST_BUFFER_TIMESTAMP_IS_VALID b); cbn [negb]; [|discriminate].
    assert (Hdv : GST_BUFFER_DURATION_IS_VALID b = true).
    { unfold GST_BUFFER_DURATION_IS_VALID, GST_CLOCK_TIME_IS_VALID,
        GST_CLOCK_TIME_NONE, G_MAXUINT64.
      apply Bool.negb_true_iff, Z.eqb_neq. lia. }
    rewrite Hdv. cbn [negb].
    rewrite (wrap64_small (pts b + duration b)) by lia.
    assert (Hstop : (pts b + duration b =? GST_CLOCK_TIME_NONE) = false).
    { apply Z.eqb_neq. unfold GST_CLOCK_TIME_NONE, G_MAXUINT64. lia. }
    rewrite Hstop. cbn [andb negb].
    destruct (gst_segment_clip _ _ _ _) as [[cstart cstop]|];
      [|discriminate].
    intros [= <-]. exists cstart, cstop. cbn.
    split; [reflexivity|].
    destruct (cstart =? pts b) eqn:Hcs; cbn [negb orb].
    + apply Z.eqb_eq in Hcs. subst cstart.
      destruct (cstop =? pts b + duration b) eqn:Hce; cbn [negb].
      * apply Z.eqb_eq in Hce. subst cstop.
        replace (pts b + duration b - pts b) with (duration b) by lia.
        rewrite wrap64_small by lia. repeat split.
      * repeat split.
    + repeat split.
Qed.

(** ** The text chain function as a whole *)

(** X9. A buffer handed to the text chain function ends up in exactly one
    place.  When the call returns, the buffer is in the slot with its bytes
    as they came, the return value being OK with a broadcast, or it has
    been released and the element is untouched; when the call parks, it
    still holds the buffer and the element is untouched. *)
Theorem text_chain_places_buffer (o : Overlay) (b : GstBuffer) :
  match gst_base_text_overlay_text_chain o b with
  | TextReturn ret o' evs =>
      (exists b', text_buffer o' = Some b' /\ data b' = data b
                  /\ text_buffer o = None
                  /\ ret = GST_FLOW_OK /\ evs = [Broadcast])
      \/ (o' = o /\ evs = [Unref b] /\ ret <> GST_FLOW_NOT_LINKED)
  | TextWait o' b' _ => o' = o /\ data b' = data b
  end.
Proof.
  assert (Hloop : forall b' cs,
            data b' = data b ->
            match text_chain_wait_loop o b' cs with
            | TextReturn ret o' evs =>
                (exists b'', text_buffer o' = Some b'' /\ data b'' = data b
                             /\ text_buffer o = None
                             /\ ret = GST_FLOW_OK /\ evs = [Broadcast])
                \/ (o' = o /\ evs = [Unref b] /\ ret <> GST_FLOW_NOT_LINKED)
            | TextWait o' b'' _ => o' = o /\ data b'' = data b
            end).
  { intros b' cs Hdata.
    destruct (text_chain_wait_loop_cases o b' cs)
      as [(old & _ & ->) | (Hb & o' & -> & Hs & _)].
    - split; [reflexivity | exact Hdata].
    - left. exists b'. auto. }
  unfold gst_base_text_overlay_text_chain.
  destruct (text_flushing (flags o)).
  { right. repeat split. discriminate. }
  destruct (text_eos (flags o)).
  { right. repeat split. discriminate. }
  destruct (GST_BUFFER_TIMESTAMP_IS_VALID b).
  - destruct (gst_segment_clip _ _ _ _) as [[cstart cstop]|].
    + apply Hloop. reflexivity.
    + right. repeat split. discriminate.
  - apply Hloop. destruct (GST_BUFFER_DURATION_IS_VALID b); reflexivity.
Qed.

(** X10. The text segment position follows the stored buffer: when the text
    chain function stores a buffer whose timestamp is valid, the position
    of the text segment is that timestamp afterwards and nothing else in
    the text segment has moved; the video segment and the flags are left
    alone. *)
Theorem text_store_moves_position
    (o o' : Overlay) (b b' : GstBuffer) (ret : GstFlowReturn) :
  gst_base_text_overlay_text_chain o b = TextReturn ret o' [Broadcast] ->
  text_buffer o' = Some b' ->
  segment o' = segment o
  /\ flags o' = flags o
  /\ (GST_BUFFER_TIMESTAMP_IS_VALID b' = true ->
      text_segment o' = set_seg_position (pts b') (text_segment o))
  /\ (GST_BUFFER_TIMESTAMP_IS_VALID b' = false ->
      text_segment o' = text_segment o).
Proof.
  assert (Hloop : forall b0 cs,
            (GST_BUFFER_TIMESTAMP_IS_VALID b0 = true -> pts b0 = cs) ->
            text_chain_wait_loop o b0 cs = TextReturn ret o' [Broadcast] ->
            text_buffer o' = Some b' ->
            segment o' = segment o
            /\ flags o' = flags o
            /\ (GST_BUFFER_TIMESTAMP_IS_VALID b' = true ->
                text_segment o' = set_seg_position (pts b') (text_segment o))
            /\ (GST_BUFFER_TIMESTAMP_IS_VALID b' = false ->
                text_segment o' = text_segment o)).
  { intros b0 cs Hcs. unfold text_chain_wait_loop, text_chain_store.
    destruct (text_buffer o); [discriminate|].
    destruct (GST_BUFFER_TIMESTAMP_IS_VALID b0) eqn:Hv;
      intros [= _ <-]; cbn; intros [= <-]; rewrite Hv.
    - rewrite (Hcs eq_refl). repeat split; intros; discriminate.
    - repeat split; intros; discriminate. }
  unfold gst_base_text_overlay_text_chain.
  destruct (text_flushing (flags o)); [discriminate|].
  destruct (text_eos (flags o)); [discriminate|].
  destruct (GST_BUFFER_TIMESTAMP_IS_VALID b) eqn:Hv.
  - destruct (gst_segment_clip _ _ _ _) as [[cstart cstop]|];
      [|discriminate].
    apply Hloop. reflexivity.
  - apply Hloop.
    destruct (GST_BUFFER_DURATION_IS_VALID b); intros H;
      [change (GST_BUFFER_TIMESTAMP_IS_VALID b = true) in H|]; congruence.
Qed.

Lemma text_chain_places_buffer_aux (o : Overlay) (b : GstBuffer) :
  text_flushing (flags o) = false -> text_eos (flags o) = false ->
  text_buffer o = None -> in_segment o b = true ->
  exists o' b',
    gst_base_text_overlay_text_chain o b
    = TextReturn GST_FLOW_OK o' [Broadcast]
    /\ text_buffer o' = Some b'
    /\ data b' = data b
    /\ need_render (cache o') = true.
Proof.
  intros Hf He Hb Hin.
  assert (Hloop : forall b0 cs,
            data b0 = data b ->
            exists o' b',
              text_chain_wait_loop o b0 cs
              = TextReturn GST_FLOW_OK o' [Broadcast]
              /\ text_buffer o' = Some b'
              /\ data b' = data b
              /\ need_render (cache o') = true).
  { intros b0 cs Hdata.
    destruct (text_chain_wait_loop_cases o b0 cs)
      as [(old & Hold & _) | (_ & o' & -> & Hs & Hn)]; [congruence|].
    exists o', b0. auto. }
  unfold in_segment in Hin.
  destruct (GST_BUFFER_TIMESTAMP_IS_VALID b) eqn:Hv.
  - rewrite (text_chain_stamped o b Hf He Hv).
    destruct (gst_segment_clip _ _ _ _) as [[cstart cstop]|];
      [|discriminate].
    apply Hloop. reflexivity.
  - rewrite (text_chain_unstamped o b Hf He Hv).
    apply Hloop. destruct (GST_BUFFER_DURATION_IS_VALID b); reflexivity.
Qed.

(** X11. Flush stop on the text pad makes room: whatever the slot held and
    whatever the text flags were, the next buffer that the re-initialised
    text segment lets through is stored at once, without parking. *)
Theorem text_flush_stop_makes_room (o : Overlay) (b : GstBuffer) :
  let o1 :=
    snd (fst (gst_base_text_overlay_text_event o GST_EVENT_FLUSH_STOP)) in
  in_segment o1 b = true ->
  exists o2 b',
    gst_base_text_overlay_text_chain o1 b
    = TextReturn GST_FLOW_OK o2 [Broadcast]
    /\ text_buffer o2 = Some b'
    /\ data b' = data b
    /\ need_render (cache o2) = true.
Proof.
  cbn zeta. intros Hin.
  set (o1 := snd (fst (gst_base_text_overlay_text_event o
                         GST_EVENT_FLUSH_STOP))) in *.
  assert (Hstate : text_flushing (flags o1) = false
                   /\ text_eos (flags o1) = false
                   /\ text_buffer o1 = None).
  { subst o1. cbn. unfold gst_base_text_overlay_pop_text. cbn.
    destruct (text_buffer o) eqn:Hb; cbn; repeat split. exact Hb. }
  destruct Hstate as (Hf & He & Hb).
  pose proof (text_chain_places_buffer_aux o1 b) as Haux.
  exact (Haux Hf He Hb Hin).
Qed.

(** ** What reaches the rasteriser *)

Lemma has_char_c_str (c : ascii) (s : string) :
  has_char c s = false -> has_char c (c_str s) = false.
Proof.
  induction s as [|a r IH]; cbn; [reflexivity|].
  intros H. apply Bool.orb_false_iff in H. destruct H as (Ha & Hr).
  destruct (Ascii.eqb a NUL); cbn; [reflexivity|].
  rewrite Ha, (IH Hr). reflexivity.
Qed.

Lemma c_str_no_nul (s : string) : has_char NUL (c_str s) = false.
Proof.
  induction s as [|a r IH]; cbn; [reflexivity|].
  destruct (Ascii.eqb a NUL) eqn:E; cbn; [reflexivity|].
  rewrite E, IH. reflexivity.
Qed.

Lemma c_str_fixed (s : string) : has_char NUL s = false -> c_str s = s.
Proof.
  induction s as [|a r IH]; cbn; [reflexivity|].
  intros H. apply Bool.orb_false_iff in H. destruct H as (-> & Hr).
  rewrite (IH Hr). reflexivity.
Qed.

Lemma has_char_substring (c : ascii) (n : nat) (s : string) :
  has_char c s = false -> has_char c (substring 0 n s) = false.
Proof.
  revert n. induction s as [|a r IH]; intros [|n]; cbn; try reflexivity.
  intros H. apply Bool.orb_false_iff in H. destruct H as (-> & Hr).
  rewrite (IH n Hr). reflexivity.
Qed.

Lemma g_strdelimit_clean (s : string) :
  has_char CR (g_strdelimit_cr_tab s) = false
  /\ has_char TAB (g_strdelimit_cr_tab s) = false
  /\ (has_char NUL s = false ->
      has_char NUL (g_strdelimit_cr_tab s) = false).
Proof.
  induction s as [|a r (IH1 & IH2 & IH3)]; cbn; [auto|].
  rewrite IH1, IH2.
  destruct (Ascii.eqb a CR) eqn:Ecr; cbn.
  - repeat split. intros H. apply Bool.orb_false_iff in H.
    apply IH3, H.
  - destruct (Ascii.eqb a TAB) eqn:Etab; cbn.
    + repeat split. intros H. apply Bool.orb_false_iff in H. apply IH3, H.
    + rewrite Ecr, Etab. repeat split.
      intros H. apply Bool.orb_false_iff in H. destruct H as (-> & Hr).
      rewrite (IH3 Hr). reflexivity.
Qed.

Lemma last_char_g_strdelimit (s : string) :
  last_char (g_strdelimit_cr_tab s)
  = option_map
      (fun c => if Ascii.eqb c CR || Ascii.eqb c TAB then " "%char else c)
      (last_char s).
Proof.
  induction s as [|a r IH]; cbn; [reflexivity|].
  destruct r as [|b r']; [reflexivity|].
  cbn in IH |- *. exact IH.
Qed.

Lemma g_strdelimit_keeps_ending (s : string) :
  ends_in_line_break s = false ->
  ends_in_line_break (g_strdelimit_cr_tab s) = false.
Proof.
  unfold ends_in_line_break. rewrite last_char_g_strdelimit.
  destruct (last_char s) as [a|]; cbn; [|reflexivity].
  intros H. apply Bool.orb_false_iff in H. destruct H as (Hlf & Hcr).
  rewrite Hcr. cbn.
  destruct (Ascii.eqb a TAB); [reflexivity|].
  rewrite Hlf, Hcr. reflexivity.
Qed.

Lemma stripped_length_le (s : string) :
  (stripped_length s <= String.length s)%nat.
Proof.
  induction s as [|a r IH]; cbn; [lia|].
  destruct (Nat.eqb _ 0 && _); lia.
Qed.

Lemma last_char_cons (a : ascii) (r : string) :
  r <> EmptyString -> last_char (String a r) = last_char r.
Proof.
  destruct r; [congruence | reflexivity].
Qed.

Lemma substring_nonempty (n : nat) (s : string) :
  (0 < n <= String.length s)%nat -> substring 0 n s <> EmptyString.
Proof.
  destruct n, s; cbn; try lia; discriminate.
Qed.

(** The loop that drops trailing line breaks stops at a character that is
    none, or at the start of the string. *)
Lemma stripped_prefix_ending (s : string) :
  ends_in_line_break (substring 0 (stripped_length s) s) = false.
Proof.
  induction s as [|a r IH]; [reflexivity|].
  cbn [stripped_length].
  destruct (Nat.eqb (stripped_length r) 0) eqn:E0; cbn [andb].
  - destruct (Ascii.eqb a LF || Ascii.eqb a CR) eqn:Enl; [reflexivity|].
    apply Nat.eqb_eq in E0. rewrite E0. cbn.
    destruct r; unfold ends_in_line_break; cbn; exact Enl.
  - apply Nat.eqb_neq in E0.
    cbn [substring]. unfold ends_in_line_break in *.
    rewrite last_char_cons; [exact IH|].
    apply substring_nonempty. pose proof (stripped_length_le r). lia.
Qed.

Lemma render_text_rasterizes (o : Overlay) (t : string) (l : Z) (s : string) :
  In s (rasterized (snd (gst_base_text_overlay_render_text o (Some t) l))) ->
  s = g_strdelimit_cr_tab (g_strndup t (if l <? 0 then strlen t else l)).
Proof.
  unfold gst_base_text_overlay_render_text.
  destruct (need_render (cache o)); cbn; [|contradiction].
  intros [<- | []]. reflexivity.
Qed.

(** X12. The text of a buffer reaches the rasteriser cleaned up: whatever
    the bytes of the text buffer and whatever the escaping and validation
    functions return, a string that [render_text_buffer] has rasterised
    holds no carriage return, no tab and no NUL, and does not end in a line
    feed. *)
Theorem buffer_text_reaches_rasteriser_clean
    (o : Overlay) (tb : GstBuffer) (s : string) :
  In s (rasterized (snd (render_text_buffer o tb))) ->
  has_char CR s = false
  /\ has_char TAB s = false
  /\ has_char NUL s = false
  /\ ends_in_line_break s = false.
Proof.
  assert (Hblank : forall s0,
            In s0 (rasterized
                     (snd (gst_base_text_overlay_render_text o
                             (Some " "%string) 1))) ->
            has_char CR s0 = false /\ has_char TAB s0 = false
            /\ has_char NUL s0 = false /\ ends_in_line_break s0 = false).
  { intros s0 H. apply render_text_rasterizes in H. subst s0.
    cbn. repeat split. }
  unfold render_text_buffer.
  destruct (Nat.ltb 0 (String.length (data tb))); [|apply Hblank].
  match goal with
  | |- context [match ?t with EmptyString => _ | String _ _ => _ end] =>
      assert (Hnul : has_char NUL t = false);
      [ destruct (have_pango_markup (flags o)); apply c_str_no_nul
      | destruct t as [|a r] eqn:Ht; [apply Hblank|] ]
  end.
  intros H. apply render_text_rasterizes in H. subst s.
  assert (Hlen : (Z.of_nat (stripped_length (String a r)) <? 0) = false)
    by (apply Z.ltb_ge; lia).
  rewrite Hlen. unfold g_strndup. rewrite Nat2Z.id.
  rewrite c_str_fixed by (apply has_char_substring; exact Hnul).
  destruct (g_strdelimit_clean
              (substring 0 (stripped_length (String a r)) (String a r)))
    as (Hcr & Htab & Hn).
  repeat split; try assumption.
  - apply Hn, has_char_substring, Hnul.
  - apply g_strdelimit_keeps_ending, stripped_prefix_ending.
Qed.

(** ** Properties *)



End MoreProperties.

(** * Properties of the shading functions *)

Section ShadingProperties.

Context {P : Platform}.

Lemma length_poke_nat (m : list Z) (i : nat) (v : Z) :
  List.length (poke_nat m i v) = List.length m.
Proof.
  revert i. induction m as [|a r IH]; intros [|i]; cbn; auto.
Qed.

Lemma length_poke (m : list Z) (k v : Z) : List.length (poke m k v) = List.length m.
Proof.
  unfold poke. destruct (k <? 0); [reflexivity | apply length_poke_nat].
Qed.

Lemma nth_poke_nat (m : list Z) (i j : nat) (v : Z) :
  nth j (poke_nat m i v) 0
  = if Nat.eqb j i && Nat.ltb i (List.length m) then v else nth j m 0.
Proof.
  revert i j. induction m as [|a r IH]; intros [|i] [|j]; cbn; try reflexivity.
  - destruct (Nat.eqb j i); reflexivity.
  - rewrite IH. reflexivity.
Qed.

Lemma peek_poke (m : list Z) (k k' v : Z) :
  peek (poke m k v) k'
  = if (k' =? k) && (0 <=? k) && (k <? Z.of_nat (List.length m)) then v
    else peek m k'.
Proof.
  unfold peek, poke.
  destruct (k <? 0) eqn:Hk.
  - apply Z.ltb_lt in Hk.
    replace (0 <=? k) with false by (symmetry; apply Z.leb_gt; lia).
    rewrite Bool.andb_false_r. reflexivity.
  - apply Z.ltb_ge in Hk.
    replace (0 <=? k) with true by (symmetry; apply Z.leb_le; lia).
    rewrite Bool.andb_true_r.
    destruct (k' <? 0) eqn:Hk'.
    + apply Z.ltb_lt in Hk'.
      replace (k' =? k) with false by (symmetry; apply Z.eqb_neq; lia).
      reflexivity.
    + apply Z.ltb_ge in Hk'. rewrite nth_poke_nat.
      destruct (k' =? k) eqn:E.
      * apply Z.eqb_eq in E. subst k'. rewrite Nat.eqb_refl. cbn [andb].
        destruct (k <? Z.of_nat (List.length m)) eqn:Hl.
        -- apply Z.ltb_lt in Hl.
           replace (Nat.ltb (Z.to_nat k) (List.length m)) with true
             by (symmetry; apply Nat.ltb_lt; lia).
           reflexivity.
        -- apply Z.ltb_ge in Hl.
           replace (Nat.ltb (Z.to_nat k) (List.length m)) with false
             by (symmetry; apply Nat.ltb_ge; lia).
           reflexivity.
      * apply Z.eqb_neq in E.
        replace (Nat.eqb (Z.to_nat k') (Z.to_nat k)) with false
          by (symmetry; apply Nat.eqb_neq; lia).
        reflexivity.
Qed.

Lemma bytes_poke_nat (m : list Z) (i : nat) (v : Z) :
  bytes m -> 0 <= v <= 255 -> bytes (poke_nat m i v).
Proof.
  unfold bytes. intros Hm Hv. revert i.
  induction Hm as [|a r Ha Hr IH]; intros [|i]; cbn; constructor; auto.
Qed.

Lemma bytes_poke (m : list Z) (k v : Z) :
  bytes m -> 0 <= v <= 255 -> bytes (poke m k v).
Proof.
  intros Hm Hv. unfold poke.
  destruct (k <? 0); [exact Hm | apply bytes_poke_nat; assumption].
Qed.

Lemma bytes_peek (m : list Z) (k : Z) : bytes m -> 0 <= peek m k <= 255.
Proof.
  intros Hm. unfold peek. destruct (k <? 0); [lia|].
  destruct (Nat.ltb (Z.to_nat k) (List.length m)) eqn:E.
  - apply Nat.ltb_lt in E.
    exact (proj1 (Forall_forall _ m) Hm _ (nth_In m 0 E)).
  - apply Nat.ltb_ge in E. rewrite nth_overflow by exact E. lia.
Qed.

Lemma CLAMP_byte (x : Z) : 0 <= CLAMP x 0 255 <= 255.
Proof.
  unfold CLAMP. destruct (255 <? x) eqn:E1; [lia|].
  destruct (x <? 0) eqn:E2; [lia|].
  apply Z.ltb_ge in E1, E2. lia.
Qed.

(** An invariant of the bodies, run with the counters
    [i0, i0 + step, ...], is an invariant of the loop. *)
Lemma repeat_from_invariant {A : Type} (I : A -> Prop)
    (body : Z -> A -> A) (step : Z) :
  forall (n : nat) (i0 : Z) (a : A),
    (forall t a', (t < n)%nat ->
                  I a' -> I (body (i0 + step * Z.of_nat t) a')) ->
    I a -> I (repeat_from n i0 step body a).
Proof.
  induction n as [|n IH]; intros i0 a Hbody Ha; cbn; [exact Ha|].
  apply IH.
  - intros t a' Ht Ha'.
    replace (i0 + step + step * Z.of_nat t)
      with (i0 + step * Z.of_nat (S t)) by lia.
    apply Hbody; [lia | exact Ha'].
  - replace i0 with (i0 + step * Z.of_nat 0) at 1 by lia.
    apply Hbody; [lia | exact Ha].
Qed.

Lemma shade_byte_keeps (o : Overlay) (k : Z) (m : list Z) :
  (bytes m -> bytes (shade_byte o k m))
  /\ List.length (shade_byte o k m) = List.length m
  /\ (bytes m -> bytes (shade_byte_at o k m))
  /\ List.length (shade_byte_at o k m) = List.length m.
Proof.
  unfold shade_byte, shade_byte_at. repeat split.
  - intros Hm. apply bytes_poke; [exact Hm | apply CLAMP_byte].
  - apply length_poke.
  - intros Hm. apply bytes_poke; [exact Hm | apply CLAMP_byte].
  - apply length_poke.
Qed.

(** The invariant carried through all the shading loops. *)
Lemma shading_loops_keep (o : Overlay) (L : nat) :
  let I := fun m : list Z => bytes m /\ List.length m = L in
  (forall k m, I m -> I (shade_byte o k m))
  /\ (forall k m, I m -> I (shade_byte_at o k m)).
Proof.
  cbn zeta. split; intros k m (Hb & Hl);
    destruct (shade_byte_keeps o k m) as (H1 & H2 & H3 & H4);
    split; auto; congruence.
Qed.

(** A byte that no iteration of the loops addresses is left as it was. *)
Lemma shade_planar_Y_elsewhere
    (o : Overlay) (dest : GstVideoFrame) (x0 x1 y0 y1 k : Z) :
  (forall i j, y0 <= i < y1 -> x0 <= j < x1 ->
               k <> wrap32 (i * stride0 dest + j)) ->
  peek (plane0 (gst_base_text_overlay_shade_planar_Y o dest x0 x1 y0 y1)) k
  = peek (plane0 dest) k.
Proof.
  intros Hk. cbn. unfold for_lt.
  apply (repeat_from_invariant (fun m => peek m k = peek (plane0 dest) k));
    [|reflexivity].
  intros ti m Hti Hm.
  apply (repeat_from_invariant (fun m => peek m k = peek (plane0 dest) k));
    [|exact Hm].
  intros tj m' Htj Hm'.
  unfold shade_byte. rewrite peek_poke.
  match goal with |- context [k =? ?idx] =>
    replace (k =? idx) with false; [exact Hm'|]
  end.
  symmetry. apply Z.eqb_neq. apply Hk; lia.
Qed.

Lemma shade_pixel_bytes_elsewhere
    (first count : Z) (o : Overlay) (dest : GstVideoFrame)
    (x0 x1 y0 y1 k : Z) :
  (forall i j c, y0 <= i < y1 -> x0 <= j < x1 ->
                 first <= c < first + count ->
                 k <> wrap32 (i * 4 * width (info o) + j * 4) + c) ->
  peek (plane0 (shade_pixel_bytes first count o dest x0 x1 y0 y1)) k
  = peek (plane0 dest) k.
Proof.
  intros Hk. cbn. unfold for_lt.
  apply (repeat_from_invariant (fun m => peek m k = peek (plane0 dest) k));
    [|reflexivity].
  intros ti m Hti Hm.
  apply (repeat_from_invariant (fun m => peek m k = peek (plane0 dest) k));
    [|exact Hm].
  intros tj m' Htj Hm'.
  apply (repeat_from_invariant (fun m => peek m k = peek (plane0 dest) k));
    [|exact Hm'].
  intros tc m'' Htc Hm''.
  unfold shade_byte. rewrite peek_poke.
  match goal with |- context [k =? ?idx] =>
    replace (k =? idx) with false; [exact Hm''|]
  end.
  symmetry. apply Z.eqb_neq. apply Hk; lia.
Qed.

(** The offsets of the pixels of a frame of [W] x [H] pixels in rows of
    [S] bytes lie inside the [S * H] bytes of the frame. *)
Lemma pixel_offset_in_frame (S W H i j : Z) :
  0 <= W <= S -> 0 <= i < H -> 0 <= j < W ->
  0 <= i * S + j < S * H.
Proof.
  intros HW Hi Hj.
  assert (0 <= i * S) by (apply Z.mul_nonneg_nonneg; lia).
  assert ((i + 1) * S <= H * S) by (apply Z.mul_le_mono_nonneg_r; lia).
  lia.
Qed.

(** X15. Shading stays inside the frame.  For the planar formats and the
    formats with pixels of four bytes, with plane 0 holding the whole
    frame, [gst_base_text_overlay_shade_background] returns a plane of the
    same length whose bytes are all between 0 and 255, touches nothing of
    the frame but plane 0, and leaves every byte beyond the rows of the
    frame as it was, whatever the box; a format it does not know is left
    as it is. *)
Theorem shade_background_keeps_bytes
    (o : Overlay) (format : GstVideoFormat) (frame : GstVideoFrame)
    (x0 x1 y0 y1 : Z) :
  plane_holds_frame o format frame ->
  bytes (plane0 frame) ->
  let frame' :=
    gst_base_text_overlay_shade_background o format frame x0 x1 y0 y1 in
  bytes (plane0 frame')
  /\ List.length (plane0 frame') = List.length (plane0 frame)
  /\ set_plane0 (plane0 frame) frame' = frame
  /\ (forall k, ~ 0 <= k < frame_bytes o format frame ->
                peek (plane0 frame') k = peek (plane0 frame) k)
  /\ (format = GST_VIDEO_FORMAT_OTHER -> frame' = frame).
Proof.
  intros (Hfmt & HW & HH & HS & Hfit & HL) Hb. cbn zeta.
  set (I := fun m : list Z =>
              bytes m /\ List.length m = List.length (plane0 frame)).
  destruct (shading_loops_keep o (List.length (plane0 frame))) as (Hs & Hat).
  fold I in Hs, Hat.
  assert (HI : I (plane0 frame)) by (split; [exact Hb | reflexivity]).
  unfold gst_base_text_overlay_shade_background.
  pose proof (CLAMP_bounds (wrap32 (x0 - BOX_XPAD)) 0 (width (info o)) HW)
    as HX0.
  pose proof (CLAMP_bounds (wrap32 (x1 + BOX_XPAD)) 0 (width (info o)) HW)
    as HX1.
  pose proof (CLAMP_bounds (wrap32 (y0 - BOX_YPAD)) 0 (height (info o)) HH)
    as HY0.
  pose proof (CLAMP_bounds (wrap32 (y1 + BOX_YPAD)) 0 (height (info o)) HH)
    as HY1.
  set (X0 := CLAMP (wrap32 (x0 - BOX_XPAD)) 0 (width (info o))) in *.
  set (X1 := CLAMP (wrap32 (x1 + BOX_XPAD)) 0 (width (info o))) in *.
  set (Y0 := CLAMP (wrap32 (y0 - BOX_YPAD)) 0 (height (info o))) in *.
  set (Y1 := CLAMP (wrap32 (y1 + BOX_YPAD)) 0 (height (info o))) in *.
  assert (Hplanar : I (plane0 (gst_base_text_overlay_shade_planar_Y o frame
                                 X0 X1 Y0 Y1))).
  { cbn. unfold for_lt. apply repeat_from_invariant; [|exact HI].
    intros i m _ Hm. apply repeat_from_invariant; [|exact Hm].
    intros j m' _ Hm'. apply Hs, Hm'. }
  assert (Hpix : forall first count,
            I (plane0 (shade_pixel_bytes first count o frame X0 X1 Y0 Y1))).
  { intros first count. cbn. unfold for_lt.
    apply repeat_from_invariant; [|exact HI].
    intros i m _ Hm. apply repeat_from_invariant; [|exact Hm].
    intros j m' _ Hm'. apply repeat_from_invariant; [|exact Hm'].
    intros k m'' _ Hm''. apply Hs, Hm''. }
  assert (Hplanar_out :
            is_planar_Y format = true ->
            forall k, ~ 0 <= k < frame_bytes o format frame ->
              peek (plane0 (gst_base_text_overlay_shade_planar_Y o frame
                              X0 X1 Y0 Y1)) k
              = peek (plane0 frame) k).
  { intros Hp k Hk. unfold frame_bytes in Hk, Hfit. rewrite Hp in Hk, Hfit.
    specialize (HS Hp).
    apply shade_planar_Y_elsewhere. intros i j Hi Hj.
    pose proof (pixel_offset_in_frame (stride0 frame) (width (info o))
                  (height (info o)) i j) as Hin.
    rewrite wrap32_small by lia. lia. }
  assert (Hpix_out :
            is_planar_Y format = false -> is_pixel32 format = true ->
            forall first count, 0 <= first -> first + count <= 4 ->
            forall k, ~ 0 <= k < frame_bytes o format frame ->
              peek (plane0 (shade_pixel_bytes first count o frame
                              X0 X1 Y0 Y1)) k
              = peek (plane0 frame) k).
  { intros Hnp Hp first count Hfirst Hcount k Hk.
    unfold frame_bytes in Hk, Hfit. rewrite Hnp, Hp in Hk, Hfit.
    apply shade_pixel_bytes_elsewhere. intros i j c Hi Hj Hc.
    pose proof (pixel_offset_in_frame (width (info o)) (width (info o))
                  (height (info o)) i j) as Hin.
    replace (i * 4 * width (info o) + j * 4)
      with (4 * (i * width (info o) + j)) by lia.
    rewrite wrap32_small by lia. lia. }
  destruct frame as [m s po ps ws hs].
  destruct format;
    try (destruct Hfmt as [Hfmt | [Hfmt | Hfmt]]; discriminate Hfmt);
    try (split; [apply Hplanar|]; split; [apply Hplanar|];
         split; [reflexivity|];
         split; [apply Hplanar_out; reflexivity | discriminate]);
    try (split; [apply Hpix|]; split; [apply Hpix|];
         split; [reflexivity|];
         split; [apply Hpix_out; try reflexivity; lia | discriminate]).
  split; [exact Hb|]. repeat split.
Qed.

(** ** Which bytes are shaded *)

Lemma wrap32_mod4 (x : Z) : wrap32 x mod 4 = x mod 4.
Proof.
  unfold wrap32. rewrite (Z.mod_eq (x + 2 ^ 31) (2 ^ 32)) by lia.
  replace (x + 2 ^ 31 - 2 ^ 32 * ((x + 2 ^ 31) / 2 ^ 32) - 2 ^ 31)
    with (x + (- (2 ^ 30) * ((x + 2 ^ 31) / 2 ^ 32)) * 4) by lia.
  apply Z_mod_plus_full.
Qed.

Lemma shade_pixel_bytes_spares
    (first : Z) (o : Overlay) (dest : GstVideoFrame) (x0 x1 y0 y1 k : Z) :
  (forall c, first <= c < first + 3 -> k mod 4 <> c mod 4) ->
  peek (plane0 (shade_pixel_bytes first 3 o dest x0 x1 y0 y1)) k
  = peek (plane0 dest) k.
Proof.
  intros Hk. cbn. unfold for_lt.
  apply (repeat_from_invariant (fun m => peek m k = peek (plane0 dest) k));
    [|reflexivity].
  intros ti m _ Hm.
  apply (repeat_from_invariant (fun m => peek m k = peek (plane0 dest) k));
    [|exact Hm].
  intros tj m' _ Hm'.
  apply (repeat_from_invariant (fun m => peek m k = peek (plane0 dest) k));
    [|exact Hm'].
  intros tc m'' Htc Hm''.
  replace (first + 3 - first) with 3 in Htc by lia.
  unfold shade_byte. rewrite peek_poke.
  match goal with |- context [k =? ?idx] =>
    replace (k =? idx) with false; [exact Hm''|]
  end.
  symmetry. apply Z.eqb_neq. intros Heq.
  apply (Hk (first + 1 * Z.of_nat tc)).
  - change (Z.to_nat 3) with 3%nat in Htc. lia.
  - rewrite Heq.
    rewrite <- Zplus_mod_idemp_l, wrap32_mod4.
    replace ((y0 + 1 * Z.of_nat ti) * 4 * width (info o)
             + (x0 + 1 * Z.of_nat tj) * 4)
      with (0 + ((y0 + 1 * Z.of_nat ti) * width (info o)
                 + (x0 + 1 * Z.of_nat tj)) * 4) by lia.
    rewrite Z_mod_plus_full. reflexivity.
Qed.

(** X16. Shading a frame with an alpha channel spares the alpha bytes.
    With plane 0 holding the whole frame of [4 * width * height] bytes:
    for ARGB and ABGR no byte at an offset that is a multiple of four
    changes, for RGBA and BGRA no byte at an offset of three modulo four,
    whatever the box and the shading value. *)
Theorem shading_spares_alpha
    (o : Overlay) (format : GstVideoFormat) (frame : GstVideoFrame)
    (x0 x1 y0 y1 k : Z) :
  plane_holds_frame o format frame ->
  (format = GST_VIDEO_FORMAT_ARGB \/ format = GST_VIDEO_FORMAT_ABGR ->
   k mod 4 = 0 ->
   peek (plane0 (gst_base_text_overlay_shade_background o format frame
                   x0 x1 y0 y1)) k
   = peek (plane0 frame) k)
  /\ (format = GST_VIDEO_FORMAT_RGBA \/ format = GST_VIDEO_FORMAT_BGRA ->
      k mod 4 = 3 ->
      peek (plane0 (gst_base_text_overlay_shade_background o format frame
                      x0 x1 y0 y1)) k
      = peek (plane0 frame) k).
Proof.
  intros _.
  assert (Hmod : forall c, 0 <= c < 4 -> c mod 4 = c).
  { intros c Hc. apply Z.mod_small. lia. }
  split.
  - intros Hfmt Hk0.
    assert (H : forall a b c d,
              peek (plane0 (shade_pixel_bytes 1 3 o frame a b c d)) k
              = peek (plane0 frame) k).
    { intros a b c d. apply shade_pixel_bytes_spares.
      intros e He. rewrite Hk0, Hmod by lia. lia. }
    destruct Hfmt as [-> | ->]; apply H.
  - intros Hfmt Hk3.
    assert (H : forall a b c d,
              peek (plane0 (shade_pixel_bytes 0 3 o frame a b c d)) k
              = peek (plane0 frame) k).
    { intros a b c d. apply shade_pixel_bytes_spares.
      intros e He. rewrite Hk3, Hmod by lia. lia. }
    destruct Hfmt as [-> | ->]; apply H.
Qed.

(** One row of [gst_base_text_overlay_shade_planar_Y]: the [n] bytes from
    column [a] on. *)
Lemma shade_row_spec (o : Overlay) (S i : Z) (L : nat) :
  forall (n : nat) (a : Z) (m : list Z),
    List.length m = L ->
    0 <= i * S + a ->
    i * S + a + Z.of_nat n <= Z.of_nat L ->
    Z.of_nat L < 2 ^ 31 ->
    let m' :=
      repeat_from n a 1 (fun j => shade_byte o (wrap32 (i * S + j))) m in
    List.length m' = L
    /\ forall k,
         peek m' k
         = if (i * S + a <=? k) && (k <? i * S + a + Z.of_nat n)
           then CLAMP (wrap32 (peek m k - shading_value (props o))) 0 255
           else peek m k.
Proof.
  induction n as [|n IH]; intros a m Hl H0 H1 HL; cbn zeta.
  - cbn. split; [exact Hl|]. intros k.
    destruct (i * S + a <=? k) eqn:E1; [|reflexivity].
    destruct (k <? i * S + a + 0) eqn:E2; [|reflexivity].
    apply Z.leb_le in E1. apply Z.ltb_lt in E2. lia.
  - cbn [repeat_from].
    set (m1 := shade_byte o (wrap32 (i * S + a)) m).
    assert (Hl1 : List.length m1 = L).
    { unfold m1, shade_byte. rewrite length_poke. exact Hl. }
    destruct (IH (a + 1) m1 Hl1) as (Hlen & Hpeek); try lia.
    cbn zeta in Hlen, Hpeek.
    split; [exact Hlen|]. intros k. rewrite Hpeek.
    assert (Hm1 : forall k',
              peek m1 k'
              = if k' =? i * S + a
                then CLAMP (wrap32 (peek m (i * S + a)
                                    - shading_value (props o))) 0 255
                else peek m k').
    { intros k'. unfold m1, shade_byte. rewrite peek_poke.
      rewrite wrap32_small by lia. rewrite Hl.
      replace (0 <=? i * S + a) with true by (symmetry; apply Z.leb_le; lia).
      replace (i * S + a <? Z.of_nat L) with true
        by (symmetry; apply Z.ltb_lt; lia).
      rewrite !Bool.andb_true_r. reflexivity. }
    rewrite Hm1.
    destruct (k =? i * S + a) eqn:Ek.
    + apply Z.eqb_eq in Ek. subst k.
      replace (i * S + (a + 1) <=? i * S + a) with false
        by (symmetry; apply Z.leb_gt; lia).
      replace (i * S + a <=? i * S + a) with true
        by (symmetry; apply Z.leb_le; lia).
      replace (i * S + a <? i * S + a + Z.of_nat (Datatypes.S n)) with true
        by (symmetry; apply Z.ltb_lt; lia).
      reflexivity.
    + apply Z.eqb_neq in Ek.
      destruct (i * S + (a + 1) <=? k) eqn:E1;
        destruct (k <? i * S + (a + 1) + Z.of_nat n) eqn:E2;
        destruct (i * S + a <=? k) eqn:E3;
        destruct (k <? i * S + a + Z.of_nat (Datatypes.S n)) eqn:E4;
        cbn [andb]; try reflexivity;
        try apply Z.leb_le in E1; try apply Z.leb_gt in E1;
        try apply Z.ltb_lt in E2; try apply Z.ltb_ge in E2;
        try apply Z.leb_le in E3; try apply Z.leb_gt in E3;
        try apply Z.ltb_lt in E4; try apply Z.ltb_ge in E4; lia.
Qed.

(** The rows [b .. b + n - 1] of
    [gst_base_text_overlay_shade_planar_Y]. *)
Lemma shade_rows_spec (o : Overlay) (S X0 X1 H : Z) (L : nat) :
  0 <= X0 <= S -> X1 <= S -> 0 <= H ->
  S * H <= Z.of_nat L -> Z.of_nat L < 2 ^ 31 ->
  forall (n : nat) (b : Z) (m : list Z),
    List.length m = L -> 0 <= b -> b + Z.of_nat n <= H ->
    let m' :=
      repeat_from n b 1
        (fun i => for_lt X0 X1 (fun j => shade_byte o (wrap32 (i * S + j))))
        m in
    List.length m' = L
    /\ forall row col,
         0 <= row -> 0 <= col < S ->
         peek m' (row * S + col)
         = if (b <=? row) && (row <? b + Z.of_nat n)
              && (X0 <=? col) && (col <? X1)
           then CLAMP (wrap32 (peek m (row * S + col)
                               - shading_value (props o))) 0 255
           else peek m (row * S + col).
Proof.
  intros HX0 HX1 HH HS HL.
  induction n as [|n IH]; intros b m Hl Hb Hn; cbn zeta.
  - cbn. split; [exact Hl|]. intros row col Hrow Hcol.
    destruct (b <=? row) eqn:E1; [|reflexivity].
    destruct (row <? b + 0) eqn:E2; [|reflexivity].
    apply Z.leb_le in E1. apply Z.ltb_lt in E2. lia.
  - cbn [repeat_from]. unfold for_lt in *.
    assert (HbS : 0 <= b * S) by (apply Z.mul_nonneg_nonneg; lia).
    assert (Hb1 : (b + 1) * S <= S * H).
    { rewrite (Z.mul_comm S H). apply Z.mul_le_mono_nonneg_r; lia. }
    destruct (shade_row_spec o S b L (Z.to_nat (X1 - X0)) X0 m Hl)
      as (Hl1 & Hp1); try lia.
    cbn zeta in Hl1, Hp1.
    set (m1 := repeat_from (Z.to_nat (X1 - X0)) X0 1
                 (fun j => shade_byte o (wrap32 (b * S + j))) m) in *.
    destruct (IH (b + 1) m1 Hl1) as (Hlen & Hpeek); try lia.
    cbn zeta in Hlen, Hpeek.
    split; [exact Hlen|]. intros row col Hrow Hcol.
    rewrite (Hpeek row col Hrow Hcol), Hp1.
    assert (Hlow : row < b -> row * S + col < b * S).
    { intros Hlt.
      assert ((row + 1) * S <= b * S)
        by (apply Z.mul_le_mono_nonneg_r; lia). lia. }
    assert (Hhigh : b < row -> (b + 1) * S <= row * S).
    { intros Hlt. apply Z.mul_le_mono_nonneg_r; lia. }
    destruct (Z.lt_trichotomy row b) as [Hlt | [Heq | Hgt]].
    + specialize (Hlow Hlt).
      replace (b + 1 <=? row) with false by (symmetry; apply Z.leb_gt; lia).
      replace (b <=? row) with false by (symmetry; apply Z.leb_gt; lia).
      replace (b * S + X0 <=? row * S + col) with false
        by (symmetry; apply Z.leb_gt; lia).
      reflexivity.
    + subst row.
      replace (b + 1 <=? b) with false by (symmetry; apply Z.leb_gt; lia).
      replace (b <=? b) with true by (symmetry; apply Z.leb_le; lia).
      replace (b <? b + Z.of_nat (Datatypes.S n)) with true
        by (symmetry; apply Z.ltb_lt; lia).
      cbn [andb].
      destruct (X0 <=? col) eqn:E1; destruct (col <? X1) eqn:E2;
        destruct (b * S + X0 <=? b * S + col) eqn:E3;
        destruct (b * S + col <? b * S + X0 + Z.of_nat (Z.to_nat (X1 - X0)))
          eqn:E4;
        cbn [andb]; try reflexivity;
        try apply Z.leb_le in E1; try apply Z.leb_gt in E1;
        try apply Z.ltb_lt in E2; try apply Z.ltb_ge in E2;
        try apply Z.leb_le in E3; try apply Z.leb_gt in E3;
        try apply Z.ltb_lt in E4; try apply Z.ltb_ge in E4; lia.
    + specialize (Hhigh Hgt).
      replace (row * S + col
               <? b * S + X0 + Z.of_nat (Z.to_nat (X1 - X0))) with false
        by (symmetry; apply Z.ltb_ge; lia).
      rewrite Bool.andb_false_r.
      replace (b <=? row) with true by (symmetry; apply Z.leb_le; lia).
      replace (b + 1 <=? row) with true by (symmetry; apply Z.leb_le; lia).
      replace (row <? b + Z.of_nat (Datatypes.S n))
        with (row <? b + 1 + Z.of_nat n)
        by (f_equal; lia).
      reflexivity.
Qed.

Lemma CLAMP_min_max (x hi : Z) :
  0 <= hi -> CLAMP x 0 hi = Z.min hi (Z.max 0 x).
Proof.
  intros H. unfold CLAMP.
  destruct (hi <? x) eqn:E1; [apply Z.ltb_lt in E1; lia|].
  destruct (x <? 0) eqn:E2;
    [apply Z.ltb_lt in E2 | apply Z.ltb_ge in E2];
    apply Z.ltb_ge in E1; lia.
Qed.

(** X17. What shading does to a planar frame.  For the formats shaded by
    [gst_base_text_overlay_shade_planar_Y], with plane 0 holding the whole
    frame, the byte of pixel (row, col) comes out lowered by the shading
    value and floored at 0 when the pixel lies in the box widened by six
    pixels on each side and cut to the frame, and comes out as it was
    everywhere else, the padding between width and stride and the rows
    below the frame included. *)
Theorem planar_shading_darkens_box
    (o : Overlay) (format : GstVideoFormat) (frame : GstVideoFrame)
    (x0 x1 y0 y1 row col : Z) :
  is_planar_Y format = true ->
  bytes (plane0 frame) ->
  0 <= shading_value (props o) < 2 ^ 31 ->
  0 <= width (info o) <= stride0 frame ->
  0 <= height (info o) ->
  stride0 frame * height (info o) <= Z.of_nat (List.length (plane0 frame)) ->
  Z.of_nat (List.length (plane0 frame)) < 2 ^ 31 ->
  - 2 ^ 31 + 6 <= x0 < 2 ^ 31 -> - 2 ^ 31 <= x1 < 2 ^ 31 - 6 ->
  - 2 ^ 31 + 6 <= y0 < 2 ^ 31 -> - 2 ^ 31 <= y1 < 2 ^ 31 - 6 ->
  0 <= row -> 0 <= col < stride0 frame ->
  let frame' :=
    gst_base_text_overlay_shade_background o format frame x0 x1 y0 y1 in
  let k := row * stride0 frame + col in
  peek (plane0 frame') k
  = if in_shaded_box o x0 x1 y0 y1 row col
    then Z.max 0 (peek (plane0 frame) k - shading_value (props o))
    else peek (plane0 frame) k.
Proof.
  intros Hfmt Hbytes Hsv HW HH Hfit HL Hx0 Hx1 Hy0 Hy1 Hrow Hcol. cbn zeta.
  assert (Hshade :
    gst_base_text_overlay_shade_background o format frame x0 x1 y0 y1
    = gst_base_text_overlay_shade_planar_Y o frame
        (CLAMP (wrap32 (x0 - BOX_XPAD)) 0 (width (info o)))
        (CLAMP (wrap32 (x1 + BOX_XPAD)) 0 (width (info o)))
        (CLAMP (wrap32 (y0 - BOX_YPAD)) 0 (height (info o)))
        (CLAMP (wrap32 (y1 + BOX_YPAD)) 0 (height (info o)))).
  { destruct format; try discriminate; reflexivity. }
  rewrite Hshade. unfold BOX_XPAD, BOX_YPAD.
  rewrite !wrap32_small by lia.
  rewrite !CLAMP_min_max by lia.
  set (X0 := Z.min (width (info o)) (Z.max 0 (x0 - 6))).
  set (X1 := Z.min (width (info o)) (Z.max 0 (x1 + 6))).
  set (Y0 := Z.min (height (info o)) (Z.max 0 (y0 - 6))).
  set (Y1 := Z.min (height (info o)) (Z.max 0 (y1 + 6))).
  cbn [gst_base_text_overlay_shade_planar_Y set_plane0 plane0].
  unfold for_lt at 1.
  destruct (shade_rows_spec o (stride0 frame) X0 X1 (height (info o))
              (List.length (plane0 frame)))
    with (n := Z.to_nat (Y1 - Y0)) (b := Y0) (m := plane0 frame)
    as (_ & Hpeek); try (subst X0 X1 Y0 Y1; lia); try reflexivity.
  cbn zeta in Hpeek. rewrite (Hpeek row col Hrow Hcol).
  pose proof (bytes_peek (plane0 frame) (row * stride0 frame + col) Hbytes)
    as Hold.
  rewrite wrap32_small by lia.
  assert (Hg : CLAMP (peek (plane0 frame) (row * stride0 frame + col)
                      - shading_value (props o)) 0 255
               = Z.max 0 (peek (plane0 frame) (row * stride0 frame + col)
                          - shading_value (props o))).
  { rewrite CLAMP_min_max by lia. lia. }
  rewrite Hg.
  assert (Hbox : (Y0 <=? row) && (row <? Y0 + Z.of_nat (Z.to_nat (Y1 - Y0)))
                 && (X0 <=? col) && (col <? X1)
                 = in_shaded_box o x0 x1 y0 y1 row col).
  { unfold in_shaded_box, BOX_XPAD, BOX_YPAD. subst X0 X1 Y0 Y1.
    set (W := width (info o)). set (H := height (info o)).
    assert (Hx : (Z.min W (Z.max 0 (x0 - 6)) <=? col)
                 && (col <? Z.min W (Z.max 0 (x1 + 6)))
                 = (Z.max 0 (x0 - 6) <=? col)
                   && (col <? Z.min W (x1 + 6))).
    { clear - Hcol. apply Bool.eq_iff_eq_true.
      rewrite !andb_true_iff, !Z.leb_le, !Z.ltb_lt. lia. }
    assert (Hy : (Z.min H (Z.max 0 (y0 - 6)) <=? row)
                 && (row <? Z.min H (Z.max 0 (y0 - 6))
                            + Z.of_nat
                                (Z.to_nat
                                   (Z.min H (Z.max 0 (y1 + 6))
                                    - Z.min H (Z.max 0 (y0 - 6)))))
                 = (Z.max 0 (y0 - 6) <=? row)
                   && (row <? Z.min H (y1 + 6))).
    { clear - Hrow. apply Bool.eq_iff_eq_true.
      rewrite !andb_true_iff, !Z.leb_le, !Z.ltb_lt. lia. }
    rewrite <- (andb_assoc _ (_ <=? col)), Hx, Hy.
    rewrite <- (andb_assoc _ (_ <=? row)). apply andb_comm. }
  rewrite Hbox. reflexivity.
Qed.

End ShadingProperties.

(** * Properties of the audio converter *)

Section AudioConverterProperties.

Context {T : AudioTypes} {A : AudioCollaborators}.

Lemma GstAudioFormat_eqb_refl (f : GstAudioFormat) :
  GstAudioFormat_eqb f f = true.
Proof. unfold GstAudioFormat_eqb. destruct (GstAudioFormat_eq_dec f f); congruence. Qed.

Lemma GstAudioFormat_eqb_eq (f g : GstAudioFormat) :
  GstAudioFormat_eqb f g = true <-> f = g.
Proof.
  unfold GstAudioFormat_eqb.
  destruct (GstAudioFormat_eq_dec f g); split; congruence.
Qed.

Lemma copy_config_keeps (convert : GstAudioConverter) fields :
  let c := fold_left copy_config fields convert in
  conv_in c = conv_in convert /\ conv_out c = conv_out convert
  /\ current_format c = current_format convert
  /\ current_layout c = current_layout convert
  /\ current_channels c = current_channels convert
  /\ in_default c = in_default convert
  /\ convert_in c = convert_in convert
  /\ mix_passthrough c = mix_passthrough convert
  /\ mix c = mix convert
  /\ convert_out c = convert_out convert
  /\ quant c = quant convert
  /\ out_default c = out_default convert
  /\ pack_chain c = pack_chain convert
  /\ passthrough c = passthrough convert.
Proof.
  revert convert. induction fields as [|f fields IH]; intros convert; cbn.
  - repeat split.
  - specialize (IH (copy_config convert f)). cbn in IH. exact IH.
Qed.

Lemma configured_infos in_ out new_config :
  conv_in (configured in_ out new_config) = in_
  /\ conv_out (configured in_ out new_config) = out.
Proof.
  unfold configured. destruct new_config as [c|]; cbn; [|split; reflexivity].
  match goal with
  | |- context [fold_left copy_config ?fs ?c0] =>
      pose proof (copy_config_keeps c0 fs) as H
  end.
  cbn in H. destruct H as (H1 & H2 & _). split; assumption.
Qed.

(** After the chains are built: the converter and the chain list handed
    to [chain_pack]. *)
Lemma new_unfold in_ out new_config :
  gst_audio_converter_new in_ out new_config
  = if infos_incompatible in_ out then NewNull
    else
      let '(convert, prev) := chain_unpack (configured in_ out new_config) in
      let '(convert, prev) := chain_convert_in convert prev in
      let '(convert, prev) := chain_mix convert prev in
      let '(convert, prev) := chain_convert_out convert prev in
      let '(convert, prev) := chain_quantize convert prev in
      match chain_pack convert prev with
      | None => NewAssertionFailed
      | Some (convert, prev) =>
          let convert := set_pack_chain prev convert in
          let convert :=
            if GstAudioFormat_eqb (finfo_format (ai_finfo out))
                 (finfo_format (ai_finfo in_))
               && mix_passthrough convert
            then set_passthrough true convert
            else convert in
          NewConverter (setup_allocators convert)
      end.
Proof.
  unfold gst_audio_converter_new, infos_incompatible, configured.
  destruct (negb (ai_rate in_ =? ai_rate out)); [reflexivity|].
  destruct (negb (GstAudioLayout_eqb (ai_layout in_)
                    GST_AUDIO_LAYOUT_INTERLEAVED)); [reflexivity|].
  destruct (negb (GstAudioLayout_eqb (ai_layout in_) (ai_layout out)));
    [reflexivity|].
  destruct (negb (ai_channels in_ =? ai_channels out)
            && (ai_unpositioned in_ || ai_unpositioned out));
    reflexivity.
Qed.

Lemma configured_fresh in_ out new_config :
  quant (configured in_ out new_config) = None.
Proof.
  unfold configured. destruct new_config as [c|]; cbn; [|reflexivity].
  match goal with
  | |- context [fold_left copy_config ?fs ?c0] =>
      pose proof (copy_config_keeps c0 fs) as H
  end.
  cbn in H. tauto.
Qed.

Lemma chain_unpack_spec c c' l :
  chain_unpack c = (c', l) ->
  conv_in c' = conv_in c /\ conv_out c' = conv_out c
  /\ config c' = config c /\ quant c' = quant c
  /\ current_format c' = finfo_unpack_format (ai_finfo (conv_in c))
  /\ map make_func l = [Some DO_UNPACK].
Proof.
  unfold chain_unpack. intros [= <- <-]. cbn. repeat split.
Qed.

Lemma chain_convert_in_spec c prev c' l :
  chain_convert_in c prev = (c', l) ->
  conv_in c' = conv_in c /\ conv_out c' = conv_out c
  /\ config c' = config c /\ quant c' = quant c
  /\ current_format c'
     = (if finfo_is_integer (ai_finfo (conv_in c))
           && negb (finfo_is_integer (ai_finfo (conv_out c)))
        then GST_AUDIO_FORMAT_F64 else current_format c)
  /\ map make_func l
     = (if finfo_is_integer (ai_finfo (conv_in c))
           && negb (finfo_is_integer (ai_finfo (conv_out c)))
        then [Some DO_CONVERT_IN] else []) ++ map make_func prev.
Proof.
  unfold chain_convert_in.
  destruct (finfo_is_integer (ai_finfo (conv_in c))
            && negb (finfo_is_integer (ai_finfo (conv_out c))));
    intros [= <- <-]; cbn; repeat split.
Qed.

Lemma chain_mix_spec c prev c' l :
  chain_mix c prev = (c', l) ->
  conv_in c' = conv_in c /\ conv_out c' = conv_out c
  /\ config c' = config c /\ quant c' = quant c
  /\ current_format c' = current_format c
  /\ map make_func l
     = (if mix_passthrough c' then [] else [Some DO_MIX])
       ++ map make_func prev.
Proof.
  unfold chain_mix. cbn.
  destruct (gst_audio_channel_mix_is_passthrough _) eqn:E;
    intros [= <- <-]; cbn; rewrite ?E; repeat split.
Qed.

Lemma chain_convert_out_spec c prev c' l :
  chain_convert_out c prev = (c', l) ->
  conv_in c' = conv_in c /\ conv_out c' = conv_out c
  /\ config c' = config c /\ quant c' = quant c
  /\ mix_passthrough c' = mix_passthrough c
  /\ current_format c'
     = (if negb (finfo_is_integer (ai_finfo (conv_in c)))
           && finfo_is_integer (ai_finfo (conv_out c))
        then GST_AUDIO_FORMAT_S32 else current_format c)
  /\ map make_func l
     = (if negb (finfo_is_integer (ai_finfo (conv_in c)))
           && finfo_is_integer (ai_finfo (conv_out c))
        then [Some DO_CONVERT_OUT] else []) ++ map make_func prev.
Proof.
  unfold chain_convert_out.
  destruct (negb (finfo_is_integer (ai_finfo (conv_in c)))
            && finfo_is_integer (ai_finfo (conv_out c)));
    intros [= <- <-]; cbn; repeat split.
Qed.

(** The dither and noise-shaping methods [chain_quantize] settles on. *)
Lemma chain_quantize_spec c prev c' l :
  chain_quantize c prev = (c', l) ->
  conv_in c' = conv_in c /\ conv_out c' = conv_out c
  /\ config c' = config c
  /\ mix_passthrough c' = mix_passthrough c
  /\ current_format c' = current_format c
  /\ map make_func l
     = (if finfo_is_integer (ai_finfo (conv_out c))
           && (finfo_depth (ai_finfo (conv_out c)) <? 32)
        then [Some DO_QUANTIZE] else []) ++ map make_func prev
  /\ (finfo_is_integer (ai_finfo (conv_out c))
      && (finfo_depth (ai_finfo (conv_out c)) <? 32) = false ->
      quant c' = quant c)
  /\ (finfo_is_integer (ai_finfo (conv_out c))
      && (finfo_depth (ai_finfo (conv_out c)) <? 32) = true ->
      exists q,
        quant c' = Some q
        /\ quant_quantizer q
           = Z.shiftl 1 (32 - finfo_depth (ai_finfo (conv_out c)))
             mod 2 ^ 32
        /\ quant_channels q = ai_channels (conv_out c)
        /\ quant_format q = current_format c
        /\ (((20 <? finfo_depth (ai_finfo (conv_out c)))
             || (finfo_is_integer (ai_finfo (conv_in c))
                 && (finfo_depth (ai_finfo (conv_in c))
                     <=? finfo_depth (ai_finfo (conv_out c))))) = true ->
            quant_dither q = GST_AUDIO_DITHER_NONE
            /\ quant_ns q = GST_AUDIO_NOISE_SHAPING_NONE)
        /\ (((20 <? finfo_depth (ai_finfo (conv_out c)))
             || (finfo_is_integer (ai_finfo (conv_in c))
                 && (finfo_depth (ai_finfo (conv_in c))
                     <=? finfo_depth (ai_finfo (conv_out c))))) = false ->
            quant_dither q = GET_OPT_DITHER_METHOD c
            /\ quant_ns q
               = if (GST_AUDIO_NOISE_SHAPING_ERROR_FEEDBACK
                       <? GET_OPT_NOISE_SHAPING_METHOD c)
                    && (ai_rate (conv_out c) <? 32000)
                 then GST_AUDIO_NOISE_SHAPING_ERROR_FEEDBACK
                 else GET_OPT_NOISE_SHAPING_METHOD c)).
Proof.
  unfold chain_quantize.
  destruct ((20 <? finfo_depth (ai_finfo (conv_out c)))
            || (finfo_is_integer (ai_finfo (conv_in c))
                && (finfo_depth (ai_finfo (conv_in c))
                    <=? finfo_depth (ai_finfo (conv_out c))))) eqn:Enone;
    [|destruct ((GST_AUDIO_NOISE_SHAPING_ERROR_FEEDBACK
                   <? GET_OPT_NOISE_SHAPING_METHOD c)
                && (ai_rate (conv_out c) <? 32000)) eqn:Efb];
    (destruct (finfo_is_integer (ai_finfo (conv_out c))
               && (finfo_depth (ai_finfo (conv_out c)) <? 32)) eqn:Eq;
     intros [= <- <-]; cbn;
     repeat split; try discriminate; try reflexivity;
     intros _; eexists; repeat split; intros; try discriminate;
     reflexivity).
Qed.

Lemma chain_pack_spec c prev c' l :
  chain_pack c prev = Some (c', l) ->
  conv_in c' = conv_in c /\ conv_out c' = conv_out c
  /\ config c' = config c /\ quant c' = quant c
  /\ mix_passthrough c' = mix_passthrough c
  /\ l = prev
  /\ finfo_unpack_format (ai_finfo (conv_out c)) = current_format c
  /\ out_default c'
     = GstAudioFormat_eqb (finfo_unpack_format (ai_finfo (conv_out c)))
         (finfo_format (ai_finfo (conv_out c))).
Proof.
  unfold chain_pack.
  destruct (GstAudioFormat_eqb (finfo_unpack_format (ai_finfo (conv_out c)))
              (current_format c)) eqn:E; cbn; [|discriminate].
  apply GstAudioFormat_eqb_eq in E.
  intros [= <- <-]; cbn. rewrite E. repeat split.
Qed.

Lemma setup_allocators_from_nth chains :
  forall alloc allow n ch,
    nth_error chains n = Some ch ->
    nth_error (setup_allocators_from alloc allow chains) n
    = Some (if forallb pass_alloc (firstn n chains)
            then set_allow_ip (allow && allow_ip ch)
                   (set_alloc_func (Some alloc) ch)
            else set_allow_ip (allow_ip ch)
                   (set_alloc_func (Some GET_TEMP_SAMPLES) ch)).
Proof.
  induction chains as [|c chains IH]; intros alloc allow n ch H.
  - destruct n; discriminate.
  - destruct n as [|n]; cbn in H.
    + injection H as <-. cbn. destruct (pass_alloc c); reflexivity.
    + cbn [setup_allocators_from firstn forallb].
      destruct (pass_alloc c) eqn:Ep; cbn [negb andb nth_error].
      * apply IH, H.
      * rewrite (IH GET_TEMP_SAMPLES true n ch H).
        destruct (forallb pass_alloc (firstn n chains)); reflexivity.
Qed.

Lemma setup_allocators_from_length chains :
  forall alloc allow,
    List.length (setup_allocators_from alloc allow chains)
    = List.length chains.
Proof.
  induction chains as [|c chains IH]; intros alloc allow; cbn.
  - reflexivity.
  - destruct (negb (pass_alloc c)); cbn; rewrite IH; reflexivity.
Qed.

Lemma setup_allocators_from_make_func chains :
  forall alloc allow,
    map make_func (setup_allocators_from alloc allow chains)
    = map make_func chains.
Proof.
  induction chains as [|c chains IH]; intros alloc allow; cbn.
  - reflexivity.
  - destruct (negb (pass_alloc c)); cbn; rewrite IH; reflexivity.
Qed.

Lemma setup_allocators_from_alloc chains :
  forall alloc allow,
    Forall (fun ch => alloc_func ch <> None)
      (setup_allocators_from alloc allow chains).
Proof.
  induction chains as [|c chains IH]; intros alloc allow; cbn.
  - constructor.
  - destruct (negb (pass_alloc c)); cbn; constructor; cbn;
      try discriminate; apply IH.
Qed.

Lemma setup_allocators_keeps c :
  let c' := setup_allocators c in
  conv_in c' = conv_in c /\ conv_out c' = conv_out c
  /\ config c' = config c /\ quant c' = quant c
  /\ mix_passthrough c' = mix_passthrough c
  /\ out_default c' = out_default c
  /\ passthrough c' = passthrough c
  /\ map make_func (pack_chain c') = map make_func (pack_chain c)
  /\ Forall (fun ch => alloc_func ch <> None) (pack_chain c').
Proof.
  unfold setup_allocators.
  destruct (out_default c) eqn:E; cbn; rewrite ?E;
    repeat split;
    auto using setup_allocators_from_make_func, setup_allocators_from_alloc.
Qed.

Lemma setup_allocators_chain c :
  pack_chain (setup_allocators c)
  = setup_allocators_from
      (if out_default c then GET_OUTPUT_SAMPLES else GET_TEMP_SAMPLES)
      (negb (out_default c)) (pack_chain c).
Proof.
  unfold setup_allocators. destruct (out_default c); reflexivity.
Qed.

Lemma get_opt_config c c' :
  config c' = config c ->
  GET_OPT_DITHER_METHOD c' = GET_OPT_DITHER_METHOD c
  /\ GET_OPT_NOISE_SHAPING_METHOD c' = GET_OPT_NOISE_SHAPING_METHOD c.
Proof.
  unfold GET_OPT_DITHER_METHOD, GET_OPT_NOISE_SHAPING_METHOD, get_opt_enum.
  intros ->. split; reflexivity.
Qed.

(** [gst_audio_converter_new] up to [chain_pack], with the state in which
    the chain builders hand over to it. *)
Lemma new_cases in_ out new_config :
  (infos_incompatible in_ out = true
   /\ gst_audio_converter_new in_ out new_config = NewNull)
  \/ (infos_incompatible in_ out = false /\
  exists c5 l5,
    gst_audio_converter_new in_ out new_config
    = match chain_pack c5 l5 with
      | None => NewAssertionFailed
      | Some (convert, prev) =>
          let convert := set_pack_chain prev convert in
          let convert :=
            if GstAudioFormat_eqb (finfo_format (ai_finfo out))
                 (finfo_format (ai_finfo in_))
               && mix_passthrough convert
            then set_passthrough true convert
            else convert in
          NewConverter (setup_allocators convert)
      end
    /\ conv_in c5 = in_ /\ conv_out c5 = out
    /\ config c5 = config (configured in_ out new_config)
    /\ current_format c5 = packed_from in_ out
    /\ map make_func l5 = expected_chain in_ out (mix_passthrough c5)
    /\ (finfo_is_integer (ai_finfo out)
        && (finfo_depth (ai_finfo out) <? 32) = false -> quant c5 = None)
    /\ (finfo_is_integer (ai_finfo out)
        && (finfo_depth (ai_finfo out) <? 32) = true ->
        exists q,
          quant c5 = Some q
          /\ quant_quantizer q
             = Z.shiftl 1 (32 - finfo_depth (ai_finfo out)) mod 2 ^ 32
          /\ quant_channels q = ai_channels out
          /\ quant_format q = packed_from in_ out
          /\ (((20 <? finfo_depth (ai_finfo out))
               || (finfo_is_integer (ai_finfo in_)
                   && (finfo_depth (ai_finfo in_)
                       <=? finfo_depth (ai_finfo out)))) = true ->
              quant_dither q = GST_AUDIO_DITHER_NONE
              /\ quant_ns q = GST_AUDIO_NOISE_SHAPING_NONE)
          /\ (((20 <? finfo_depth (ai_finfo out))
               || (finfo_is_integer (ai_finfo in_)
                   && (finfo_depth (ai_finfo in_)
                       <=? finfo_depth (ai_finfo out)))) = false ->
              quant_dither q = GET_OPT_DITHER_METHOD c5
              /\ quant_ns q
                 = if (GST_AUDIO_NOISE_SHAPING_ERROR_FEEDBACK
                         <? GET_OPT_NOISE_SHAPING_METHOD c5)
                      && (ai_rate out <? 32000)
                   then GST_AUDIO_NOISE_SHAPING_ERROR_FEEDBACK
                   else GET_OPT_NOISE_SHAPING_METHOD c5))).
Proof.
  rewrite new_unfold.
  destruct (infos_incompatible in_ out); [left; split; reflexivity|].
  right. split; [reflexivity|].
  destruct (configured_infos in_ out new_config) as [Hin Hout].
  pose proof (configured_fresh in_ out new_config) as Hq.
  set (c0 := configured in_ out new_config) in *.
  destruct (chain_unpack c0) as [c1 l1] eqn:E1.
  apply chain_unpack_spec in E1.
  destruct E1 as (I1 & O1 & C1 & Q1 & F1 & M1).
  destruct (chain_convert_in c1 l1) as [c2 l2] eqn:E2.
  apply chain_convert_in_spec in E2.
  destruct E2 as (I2 & O2 & C2 & Q2 & F2 & M2).
  destruct (chain_mix c2 l2) as [c3 l3] eqn:E3.
  apply chain_mix_spec in E3.
  destruct E3 as (I3 & O3 & C3 & Q3 & F3 & M3).
  destruct (chain_convert_out c3 l3) as [c4 l4] eqn:E4.
  apply chain_convert_out_spec in E4.
  destruct E4 as (I4 & O4 & C4 & Q4 & P4 & F4 & M4).
  destruct (chain_quantize c4 l4) as [c5 l5] eqn:E5.
  apply chain_quantize_spec in E5.
  destruct E5 as (I5 & O5 & C5 & P5 & F5 & M5 & QN & QS).
  assert (Ein : conv_in c4 = in_) by congruence.
  assert (Eout : conv_out c4 = out) by congruence.
  assert (Ein3 : conv_in c3 = in_) by congruence.
  assert (Eout3 : conv_out c3 = out) by congruence.
  assert (Ein1 : conv_in c1 = in_) by congruence.
  assert (Eout1 : conv_out c1 = out) by congruence.
  assert (Ecfg : config c5 = config c4) by congruence.
  destruct (get_opt_config _ _ Ecfg) as [Gd Gn].
  rewrite Ein, Eout in *. rewrite Ein3, Eout3 in *.
  rewrite Ein1, Eout1 in *. rewrite Hin in *.
  assert (Ef : current_format c4 = packed_from in_ out).
  { unfold packed_from. rewrite F4, F3, F2, F1.
    destruct (finfo_is_integer (ai_finfo in_)),
             (finfo_is_integer (ai_finfo out)); reflexivity. }
  exists c5, l5. split; [reflexivity|].
  repeat split; try congruence.
  - unfold expected_chain. rewrite M5, M4, M3, M2, M1, P5, P4.
    destruct (finfo_is_integer (ai_finfo in_)),
             (finfo_is_integer (ai_finfo out)),
             (mix_passthrough c3),
             (finfo_depth (ai_finfo out) <? 32); reflexivity.
  - intros H. rewrite (QN H). congruence.
  - intros H. destruct (QS H) as (q & Hq1 & Hq2 & Hq3 & Hq4 & Hq5 & Hq6).
    exists q. rewrite Gd, Gn. repeat split; try congruence.
    + apply Hq5; assumption.
    + apply Hq5; assumption.
    + apply Hq6; assumption.
    + apply Hq6; assumption.
Qed.

Lemma finish_keeps in_ out c6 l :
  let c7 :=
    let convert := set_pack_chain l c6 in
    if GstAudioFormat_eqb (finfo_format (ai_finfo out))
         (finfo_format (ai_finfo in_))
       && mix_passthrough convert
    then set_passthrough true convert
    else convert in
  conv_in c7 = conv_in c6 /\ conv_out c7 = conv_out c6
  /\ config c7 = config c6 /\ quant c7 = quant c6
  /\ mix_passthrough c7 = mix_passthrough c6
  /\ out_default c7 = out_default c6
  /\ pack_chain c7 = l.
Proof.
  cbn.
  destruct (GstAudioFormat_eqb (finfo_format (ai_finfo out))
              (finfo_format (ai_finfo in_)) && mix_passthrough c6) eqn:Ep;
    cbn; repeat split.
Qed.

(** What a converter that was built is made of. *)
Lemma new_converter_facts in_ out new_config convert :
  gst_audio_converter_new in_ out new_config = NewConverter convert ->
  infos_incompatible in_ out = false
  /\ conv_in convert = in_ /\ conv_out convert = out
  /\ config convert = config (configured in_ out new_config)
  /\ finfo_unpack_format (ai_finfo out) = packed_from in_ out
  /\ out_default convert
     = GstAudioFormat_eqb (finfo_unpack_format (ai_finfo out))
         (finfo_format (ai_finfo out))
  /\ map make_func (pack_chain convert)
     = expected_chain in_ out (mix_passthrough convert)
  /\ Forall (fun ch => alloc_func ch <> None) (pack_chain convert)
  /\ (exists l,
        pack_chain convert
        = setup_allocators_from
            (if out_default convert
             then GET_OUTPUT_SAMPLES else GET_TEMP_SAMPLES)
            (negb (out_default convert)) l)
  /\ (finfo_is_integer (ai_finfo out)
        && (finfo_depth (ai_finfo out) <? 32) = false -> quant convert = None)
    /\ (finfo_is_integer (ai_finfo out)
        && (finfo_depth (ai_finfo out) <? 32) = true ->
        exists q,
          quant convert = Some q
          /\ quant_quantizer q
             = Z.shiftl 1 (32 - finfo_depth (ai_finfo out)) mod 2 ^ 32
          /\ quant_channels q = ai_channels out
          /\ quant_format q = packed_from in_ out
          /\ (((20 <? finfo_depth (ai_finfo out))
               || (finfo_is_integer (ai_finfo in_)
                   && (finfo_depth (ai_finfo in_)
                       <=? finfo_depth (ai_finfo out)))) = true ->
              quant_dither q = GST_AUDIO_DITHER_NONE
              /\ quant_ns q = GST_AUDIO_NOISE_SHAPING_NONE)
          /\ (((20 <? finfo_depth (ai_finfo out))
               || (finfo_is_integer (ai_finfo in_)
                   && (finfo_depth (ai_finfo in_)
                       <=? finfo_depth (ai_finfo out)))) = false ->
              quant_dither q = GET_OPT_DITHER_METHOD convert
              /\ quant_ns q
                 = if (GST_AUDIO_NOISE_SHAPING_ERROR_FEEDBACK
                         <? GET_OPT_NOISE_SHAPING_METHOD convert)
                      && (ai_rate out <? 32000)
                   then GST_AUDIO_NOISE_SHAPING_ERROR_FEEDBACK
                   else GET_OPT_NOISE_SHAPING_METHOD convert)).
Proof.
  intros H.
  destruct (new_cases in_ out new_config)
    as [[_ E]|(Hc & c5 & l5 & E & I5 & O5 & C5 & F5 & M5 & QN & QS)];
    [congruence|].
  rewrite E in H. clear E.
  destruct (chain_pack c5 l5) as [[c6 l6]|] eqn:E6; [|discriminate].
  apply chain_pack_spec in E6.
  destruct E6 as (I6 & O6 & C6 & Q6 & P6 & -> & U6 & D6).
  pose proof (finish_keeps in_ out c6 l5) as K7. cbv zeta in K7, H.
  set (c7 := if GstAudioFormat_eqb _ _ && _ then _ else _) in *.
  destruct K7 as (I7 & O7 & C7 & Q7 & P7 & D7 & L7).
  pose proof (setup_allocators_keeps c7) as K8. cbv zeta in K8.
  pose proof (setup_allocators_chain c7) as L8.
  injection H as <-.
  destruct K8 as (I8 & O8 & C8 & Q8 & P8 & D8 & _ & M8 & A8).
  assert (Ecfg : config (setup_allocators c7) = config c5) by congruence.
  destruct (get_opt_config _ _ Ecfg) as [Gd Gn].
  rewrite O5 in *.
  split; [assumption|].
  repeat split; try congruence.
  - exists (pack_chain c7). rewrite L8, D8. reflexivity.
  - intros Hn. rewrite Q8, Q7, Q6. auto.
  - intros Hs. destruct (QS Hs) as (q & Hq1 & Hq2 & Hq3 & Hq4 & Hq5 & Hq6).
    exists q. rewrite Gd, Gn. repeat split; try congruence.
    + apply Hq5; assumption.
    + apply Hq5; assumption.
    + apply Hq6; assumption.
    + apply Hq6; assumption.
Qed.

Lemma expected_chain_last in_ out mix_pass :
  exists front,
    expected_chain in_ out mix_pass = front ++ [Some DO_UNPACK]
    /\ (List.length front <= 3)%nat
    /\ ~ In (Some DO_UNPACK) front /\ ~ In None front.
Proof.
  unfold expected_chain.
  destruct (finfo_is_integer (ai_finfo in_)),
           (finfo_is_integer (ai_finfo out)), mix_pass,
           (finfo_depth (ai_finfo out) <? 32); cbn;
    match goal with
    | |- exists front, ?l = _ /\ _ =>
        exists (removelast l); cbn
    end;
    (split; [reflexivity|]); (split; [lia|]);
    split; intros H; cbn in H; intuition discriminate.
Qed.

Lemma setup_allocators_from_temp chains :
  Forall (fun ch => alloc_func ch = Some GET_TEMP_SAMPLES)
    (setup_allocators_from GET_TEMP_SAMPLES true chains).
Proof.
  induction chains as [|c chains IH]; cbn.
  - constructor.
  - destruct (negb (pass_alloc c)); cbn; constructor; auto.
Qed.

(** X18. When the input and the output format unpack to the intermediate
    format of their kind (S32 for integer formats, F64 for float formats),
    building a converter never runs into the assertion of [chain_pack]:
    the call gives NULL for incompatible infos and otherwise a converter
    holding the two infos. *)
Theorem converter_new_never_asserts
    (in_ out : GstAudioInfo) (new_config : option GstStructure) :
  unpacks_to_intermediate (ai_finfo in_) ->
  unpacks_to_intermediate (ai_finfo out) ->
  if infos_incompatible in_ out
  then gst_audio_converter_new in_ out new_config = NewNull
  else exists convert,
         gst_audio_converter_new in_ out new_config = NewConverter convert
         /\ conv_in convert = in_ /\ conv_out convert = out.
Proof.
  intros Uin Uout.
  destruct (new_cases in_ out new_config)
    as [[-> E]|(-> & c5 & l5 & E & I5 & O5 & C5 & F5 & _)];
    [exact E|].
  rewrite E. unfold chain_pack. rewrite O5, F5.
  assert (Hf : GstAudioFormat_eqb (finfo_unpack_format (ai_finfo out))
                 (packed_from in_ out) = true).
  { apply GstAudioFormat_eqb_eq.
    unfold unpacks_to_intermediate, packed_from in *.
    rewrite Uout, Uin.
    destruct (finfo_is_integer (ai_finfo in_)),
             (finfo_is_integer (ai_finfo out)); reflexivity. }
  rewrite Hf. cbn [negb].
  eexists. split; [reflexivity|].
  match goal with
  | |- conv_in (setup_allocators ?c) = _ /\ _ =>
      destruct (setup_allocators_keeps c) as (-> & -> & _)
  end.
  match goal with
  | |- context [set_pack_chain ?l ?c] =>
      destruct (finish_keeps in_ out c l) as (E1 & E2 & _)
  end.
  cbv zeta in E1, E2. rewrite E1, E2.
  cbn. split; assumption.
Qed.

(** X19. A converter that was built has the chains of the table at the
    head of the source, in that order from the pack chain back to the
    unpack chain; every chain has its make function and its allocator,
    only the last one unpacks, and there are never more than four. *)
Theorem converter_chains_follow_table
    (in_ out : GstAudioInfo) (new_config : option GstStructure)
    (convert : GstAudioConverter) :
  gst_audio_converter_new in_ out new_config = NewConverter convert ->
  map make_func (pack_chain convert)
  = expected_chain in_ out (mix_passthrough convert)
  /\ Forall (fun ch => make_func ch <> None /\ alloc_func ch <> None)
       (pack_chain convert)
  /\ (exists front unpack,
        pack_chain convert = front ++ [unpack]
        /\ make_func unpack = Some DO_UNPACK
        /\ Forall (fun ch => make_func ch <> Some DO_UNPACK) front)
  /\ (1 <= List.length (pack_chain convert) <= 4)%nat.
Proof.
  intros H. apply new_converter_facts in H.
  destruct H as (_ & _ & _ & _ & _ & _ & M & Al & _).
  destruct (expected_chain_last in_ out (mix_passthrough convert))
    as (front & Ef & Hl & Hu & Hn).
  rewrite Ef in M.
  split; [congruence|].
  assert (Hlen : List.length (pack_chain convert)
                 = S (List.length front)).
  { rewrite <- (length_map make_func), M, length_app. cbn. lia. }
  split; [|split; [|lia]].
  - rewrite Forall_forall in *. intros ch Hch. split; [|auto].
    intros Hnone. apply (in_map make_func) in Hch.
    rewrite M, Hnone in Hch. apply in_app_or in Hch.
    destruct Hch as [Hch|[Hch|[]]]; [tauto|discriminate].
  - destruct (exists_last (l := pack_chain convert)) as (fr & u & Eu).
    { intros E0. rewrite E0 in Hlen. discriminate. }
    rewrite Eu in M. rewrite map_app in M. cbn in M.
    apply app_inj_tail in M. destruct M as [Mf Mu].
    exists fr, u. split; [assumption|]. split; [assumption|].
    rewrite Forall_forall. intros ch Hch Hm.
    apply Hu. rewrite <- Mf, <- Hm. apply in_map, Hch.
Qed.

(** X20. The quantizer of a built converter, for an output depth of at
    least one bit: it is there only for integer output of less than 32
    bits and rounds to [2^(32 - depth)]; it gets no dither and no noise
    shaping when the output has more than 20 bits or an integer input is
    no deeper than the output, whatever the configuration asks for, and
    the configured dither otherwise; and below an output rate of 32000 its
    noise shaping never goes beyond error feedback. *)
Theorem quantizer_follows_depth_and_rate
    (in_ out : GstAudioInfo) (new_config : option GstStructure)
    (convert : GstAudioConverter) (q : GstAudioQuantize) :
  gst_audio_converter_new in_ out new_config = NewConverter convert ->
  quant convert = Some q ->
  0 < finfo_depth (ai_finfo out) ->
  finfo_is_integer (ai_finfo out) = true
  /\ finfo_depth (ai_finfo out) < 32
  /\ quant_quantizer q = 2 ^ (32 - finfo_depth (ai_finfo out))
  /\ (20 < finfo_depth (ai_finfo out)
      \/ (finfo_is_integer (ai_finfo in_) = true
          /\ finfo_depth (ai_finfo in_) <= finfo_depth (ai_finfo out)) ->
      quant_dither q = GST_AUDIO_DITHER_NONE
      /\ quant_ns q = GST_AUDIO_NOISE_SHAPING_NONE)
  /\ (finfo_depth (ai_finfo out) <= 20 ->
      (finfo_is_integer (ai_finfo in_) = false
       \/ finfo_depth (ai_finfo out) < finfo_depth (ai_finfo in_)) ->
      quant_dither q = GET_OPT_DITHER_METHOD convert)
  /\ (GST_AUDIO_NOISE_SHAPING_NONE
      <= GST_AUDIO_NOISE_SHAPING_ERROR_FEEDBACK ->
      ai_rate out < 32000 ->
      quant_ns q <= GST_AUDIO_NOISE_SHAPING_ERROR_FEEDBACK).
Proof.
  intros H Hq Hd. apply new_converter_facts in H.
  destruct H as (_ & _ & _ & _ & _ & _ & _ & _ & _ & QN & QS).
  destruct (finfo_is_integer (ai_finfo out)
            && (finfo_depth (ai_finfo out) <? 32)) eqn:Ec;
    [|rewrite (QN eq_refl) in Hq; discriminate].
  destruct (QS eq_refl) as (q' & Hq' & Hz & _ & _ & Hnone & Hsome).
  assert (q' = q) by congruence. subst q'. clear QN QS Hq'.
  apply andb_true_iff in Ec. destruct Ec as [Ei Ed].
  apply Z.ltb_lt in Ed.
  split; [assumption|]. split; [assumption|].
  split.
  { rewrite Hz, Z.shiftl_mul_pow2, Z.mul_1_l by lia.
    apply Z.mod_small. split; [apply Z.pow_nonneg; lia|].
    apply Z.pow_lt_mono_r; lia. }
  set (none := (20 <? finfo_depth (ai_finfo out))
               || (finfo_is_integer (ai_finfo in_)
                   && (finfo_depth (ai_finfo in_)
                       <=? finfo_depth (ai_finfo out)))) in *.
  split; [|split].
  - intros Hc. apply Hnone. subst none.
    apply orb_true_iff. destruct Hc as [Hc|[Hc1 Hc2]].
    + left. apply Z.ltb_lt, Hc.
    + right. rewrite Hc1. apply Z.leb_le, Hc2.
  - intros H20 Hc. apply Hsome. subst none.
    apply orb_false_iff. split; [apply Z.ltb_ge, H20|].
    destruct Hc as [->|Hc]; [reflexivity|].
    apply andb_false_iff. right. apply Z.leb_gt, Hc.
  - intros Hle Hr. destruct none.
    + destruct (Hnone eq_refl) as [_ ->]. exact Hle.
    + destruct (Hsome eq_refl) as [_ ->].
      apply Z.ltb_lt in Hr. rewrite Hr, andb_true_r.
      destruct (GST_AUDIO_NOISE_SHAPING_ERROR_FEEDBACK
                  <? GET_OPT_NOISE_SHAPING_METHOD convert) eqn:E.
      * lia.
      * apply Z.ltb_ge, E.
Qed.

(** X21. [setup_allocators] gives every chain an allocator by one rule:
    the chain [n] places behind the pack chain writes into the
    destination if the converter packs nothing ([out_default]) and every
    chain before it passes its allocator on, and into temp memory of its
    own otherwise.  A chain that writes into the destination never works
    in place; the others may still work in place if they could before;
    nothing else of a chain changes. *)
Theorem allocators_follow_pass_alloc
    (convert : GstAudioConverter) (n : nat) (ch : AudioChain) :
  nth_error (pack_chain convert) n = Some ch ->
  exists ch',
    nth_error (pack_chain (setup_allocators convert)) n = Some ch'
    /\ alloc_func ch' = Some (allocator_at convert n)
    /\ allow_ip ch'
       = match allocator_at convert n with
         | GET_OUTPUT_SAMPLES => false
         | GET_TEMP_SAMPLES => allow_ip ch
         end
    /\ make_func ch' = make_func ch /\ pass_alloc ch' = pass_alloc ch
    /\ stride ch' = stride ch /\ inc ch' = inc ch
    /\ blocks ch' = blocks ch
    /\ tmpsize ch' = tmpsize ch /\ tmp ch' = tmp ch.
Proof.
  intros H. rewrite setup_allocators_chain.
  rewrite (setup_allocators_from_nth _ _ _ _ _ H).
  eexists. split; [reflexivity|].
  unfold allocator_at.
  destruct (out_default convert),
           (forallb pass_alloc (firstn n (pack_chain convert)));
    cbn; repeat split.
Qed.

(** X22. A built converter whose output format is its own unpack format
    has nothing to pack, and its last chain then makes its samples in the
    destination and not in place; a converter that has to pack keeps
    every chain in temp memory. *)
Theorem last_chain_writes_destination
    (in_ out : GstAudioInfo) (new_config : option GstStructure)
    (convert : GstAudioConverter) :
  gst_audio_converter_new in_ out new_config = NewConverter convert ->
  (out_default convert = true
   <-> finfo_unpack_format (ai_finfo out) = finfo_format (ai_finfo out))
  /\ (out_default convert = true ->
      exists ch rest,
        pack_chain convert = ch :: rest
        /\ alloc_func ch = Some GET_OUTPUT_SAMPLES
        /\ allow_ip ch = false)
  /\ (out_default convert = false ->
      Forall (fun ch => alloc_func ch = Some GET_TEMP_SAMPLES)
        (pack_chain convert)).
Proof.
  intros H. apply new_converter_facts in H.
  destruct H as (_ & _ & _ & _ & _ & D & M & _ & (l & L) & _).
  split; [rewrite D; apply GstAudioFormat_eqb_eq|].
  split.
  - intros Ho. rewrite Ho in L. cbn in L.
    destruct l as [|c l].
    + destruct (expected_chain_last in_ out (mix_passthrough convert))
        as (front & Ef & _).
      rewrite L, Ef in M. cbn in M. destruct front; discriminate.
    + cbn in L. destruct (negb (pass_alloc c)) in L;
        (eexists; eexists; split; [exact L|]; cbn; split; reflexivity).
  - intros Ho. rewrite Ho in L. cbn in L. rewrite L.
    apply setup_allocators_from_temp.
Qed.

Lemma nth_error_map_seq (f : nat -> Z) (n i : nat) (p : Z) :
  nth_error (map f (seq 0 n)) i = Some p -> (i < n)%nat /\ p = f i.
Proof.
  intros H.
  assert (Hi : (i < n)%nat).
  { assert (Hn : nth_error (map f (seq 0 n)) i <> None) by congruence.
    apply nth_error_Some in Hn.
    rewrite length_map, length_seq in Hn. exact Hn. }
  split; [assumption|].
  rewrite nth_error_map, nth_error_seq in H.
  destruct (Nat.ltb_spec i n); [|lia].
  cbn in H. congruence.
Qed.

Lemma laid_out_usable (chain : AudioChain) (layout samples : Z) :
  temp_laid_out chain layout ->
  0 < blocks chain -> 0 <= stride chain -> 0 < sizeof_gpointer ->
  0 <= samples ->
  (samples * stride chain + sizeof_gpointer) * blocks chain
  <= tmpsize chain ->
  blocks_usable chain samples (tmp chain).
Proof.
  intros (HL & Hb & Hs & Ht) Hbl Hst Hp Hsa Hn.
  unfold blocks_usable. rewrite Ht at 1.
  rewrite length_map, length_seq. split; [reflexivity|].
  intros i j p q Hi Hj. rewrite Ht in Hi, Hj.
  apply nth_error_map_seq in Hi, Hj.
  destruct Hi as [Hi ->], Hj as [Hj ->].
  rewrite Hs in *.
  assert (HX : 0 <= layout * stride chain) by (apply Z.mul_nonneg_nonneg; lia).
  assert (HY : samples * stride chain <= layout * stride chain).
  { apply Z.mul_le_mono_pos_r in Hn; lia. }
  assert (Hib : Z.of_nat i + 1 <= blocks chain) by lia.
  rewrite <- !Z.mul_assoc.
  set (X := layout * stride chain) in *.
  set (Y := samples * stride chain) in *.
  split; [nia|]. split; [nia|].
  intros Hij. assert (Z.of_nat i + 1 <= Z.of_nat j) by lia. nia.
Qed.

(** X23. Asking a chain for temp samples, on a chain as it was created or
    after any earlier requests, and for a size that fits 64 bits: the
    chain gets one block per pointer behind the pointer slots, each with
    room for the samples asked for and inside the allocation, no two
    blocks overlapping, also when a smaller request reuses the memory of a
    bigger one; the allocation never shrinks, and the chain is ready for
    the next request. *)
Theorem temp_samples_blocks_usable (chain : AudioChain) (samples : Z) :
  temp_ready chain ->
  0 < blocks chain -> 0 <= stride chain -> 0 < sizeof_gpointer ->
  0 <= samples ->
  (samples * stride chain + sizeof_gpointer) * blocks chain < 2 ^ 64 ->
  let '(pointers, chain') := get_temp_samples chain samples in
  blocks_usable chain' samples pointers
  /\ temp_ready chain'
  /\ tmpsize chain <= tmpsize chain'
  /\ stride chain' = stride chain /\ blocks chain' = blocks chain
  /\ make_func chain' = make_func chain
  /\ alloc_func chain' = alloc_func chain.
Proof.
  intros Hr Hbl Hst Hp Hsa Hn.
  assert (Hpos : 0 < (samples * stride chain + sizeof_gpointer)
                     * blocks chain)
    by (apply Z.mul_pos_pos; nia).
  assert (Hw : wrap64 ((samples * stride chain + sizeof_gpointer)
                        * blocks chain)
               = (samples * stride chain + sizeof_gpointer) * blocks chain)
    by (apply Z.mod_small; lia).
  unfold get_temp_samples. rewrite !Hw.
  destruct (tmpsize chain
            <? (samples * stride chain + sizeof_gpointer) * blocks chain)
    eqn:E.
  - apply Z.ltb_lt in E.
    set (chain' := set_tmp _ _).
    assert (HL : temp_laid_out chain' samples).
    { unfold temp_laid_out, chain'. cbn.
      split; [assumption|]. split; [assumption|].
      split; [reflexivity|].
      apply map_ext_in. intros i Hi. apply in_seq in Hi.
      unfold wrap64. rewrite Z.mod_small; [reflexivity|].
      assert (0 <= samples * stride chain)
        by (apply Z.mul_nonneg_nonneg; lia).
      rewrite <- Z.mul_assoc. split; [nia|].
      assert (Z.of_nat i < blocks chain) by lia. nia. }
    split.
    { apply (laid_out_usable chain' samples samples HL); try assumption.
      unfold chain'. cbn. lia. }
    split; [right; exists samples; exact HL|].
    unfold chain'. cbn. repeat split; try reflexivity; lia.
  - apply Z.ltb_ge in E.
    destruct Hr as [[Hz _]|[layout HL]]; [lia|].
    split; [apply (laid_out_usable chain layout samples HL); assumption|].
    split; [right; exists layout; exact HL|].
    repeat split; try reflexivity; lia.
Qed.

End AudioConverterProperties.

(** * The added properties on concrete inputs *)

Section MoreRuns.

Import Reference.
Import ReferenceFrame.
#[local] Existing Instance platform.
#[local] Existing Instance collaborators.

(** A frame behind the stale text "hi": the retry releases it. *)
Lemma retry_releases_stale_text_witness :
  let o := holding (text 0 (ms 500) "hi") in
  let fr := entered o (frame (ms 1000) (ms 1000)) in
  let tb := text 0 (ms 500) "hi" in
  video_chain_pass o fr = VideoRetry (set_text_buffer None o)
                            [Unref tb; Broadcast]
  /\ video_chain_step fr AtLabel o
     = (AtLabel, set_text_buffer None o, [Unref tb; Broadcast])
  /\ video_chain_pass (set_text_buffer None o) fr
     <> VideoRetry (set_text_buffer None o) [].
Proof.
  intros o fr tb.
  assert (H : video_chain_pass o fr
              = VideoRetry (set_text_buffer None o) [Unref tb; Broadcast])
    by (vm_compute; reflexivity).
  split; [exact H|].
  destruct (proj1 (retry_releases_stale_text o fr) _ _ H)
    as (_ & tb' & Hb & _ & _ & _ & _ & _ & Hstep).
  split; [exact Hstep|].
  exact (proj1 (proj2 (retry_releases_stale_text (set_text_buffer None o) fr)
                  eq_refl)
           (set_text_buffer None o) []).
Defined.

(** A silent element with "hi" pending passes the frame on untouched. *)
Lemma silent_or_unlinked_never_waits_witness :
  let o :=
    gst_base_text_overlay_set_property (holding (text 0 (ms 500) "hi"))
      (PROP_SILENT true) in
  let fr := entered o (frame 0 (ms 1000)) in
  silent (props o) = true
  /\ exists ret o' evs,
       video_chain_pass o fr = VideoReturn ret o' evs
       /\ text_buffer o' = text_buffer o
       /\ (silent (props o) = true ->
           evs = [Pushed (Unmodified (vf_buffer fr))] /\ cache o' = cache o).
Proof.
  intros o fr.
  assert (H : silent (props o) = true) by reflexivity.
  split; [exact H|].
  apply (silent_or_unlinked_never_waits o fr);
    [reflexivity | reflexivity | left; exact H].
Defined.

(** The fresh element going from READY to PAUSED. *)
Lemma ready_to_paused_reopens_witness :
  let o := upd_flags (set_text_eos true) gst_base_text_overlay_init in
  let r :=
    gst_base_text_overlay_change_state o GST_STATE_CHANGE_READY_TO_PAUSED in
  parent_change_state GST_STATE_CHANGE_READY_TO_PAUSED = true
  /\ fst (fst r) = true
  /\ text_eos (flags (snd (fst r))) = false
  /\ text_buffer (snd (fst r)) = text_buffer o.
Proof.
  intros o r.
  assert (H : parent_change_state GST_STATE_CHANGE_READY_TO_PAUSED = true)
    by reflexivity.
  split; [exact H|].
  destruct (proj1 (ready_to_paused_reopens o) H)
    as (H1 & _ & _ & _ & H2 & _ & _ & _ & H3 & _).
  split; [exact H1|]. split; [exact H2|exact H3].
Defined.

(** End of stream on the text pad of [playing], whose slot is empty. *)
Lemma waiting_for_text_called_off_witness :
  let fr := entered playing (frame 0 (ms 1000)) in
  let r := gst_base_text_overlay_text_event playing GST_EVENT_EOS in
  slot_decision_reached playing
  /\ text_buffer playing = None
  /\ snd r = [Broadcast]
  /\ video_chain_wake (snd (fst r)) fr
     = VideoReturn (gst_pad_push (Unmodified (vf_buffer fr)))
         (update_position (vf_clip_start fr) (snd (fst r)))
         [Pushed (Unmodified (vf_buffer fr))].
Proof.
  intros fr r.
  assert (H1 : slot_decision_reached playing) by run.
  assert (H2 : text_buffer playing = None) by reflexivity.
  split; [exact H1|]. split; [exact H2|].
  destruct (waiting_for_text_called_off playing fr H1 H2)
    as ((Ha & Hb & _) & _).
  split; [exact Ha|exact Hb].
Defined.

(** The frame [0, 1000 ms) entering [playing]. *)
Lemma video_chain_enter_fixes_stamps_witness :
  let b := frame 0 (ms 1000) in
  let fr := entered playing b in
  video_chain_enter playing b = Accepted fr
  /\ exists cstart cstop,
       gst_segment_clip (segment playing) GST_FORMAT_TIME (pts b)
         (pts b + duration b) = Some (cstart, cstop)
       /\ pts (vf_buffer fr) = cstart
       /\ duration (vf_buffer fr) = wrap64 (cstop - cstart)
       /\ data (vf_buffer fr) = data b
       /\ vf_clip_start fr = cstart
       /\ vf_start fr = pts b
       /\ vf_stop fr = pts b + duration b.
Proof.
  intros b fr.
  assert (H : video_chain_enter playing b = Accepted fr) by reflexivity.
  split; [exact H|].
  apply (proj2 (video_chain_enter_fixes_stamps playing b) fr);
    [vm_compute; discriminate | vm_compute; discriminate
     | vm_compute; reflexivity | exact H].
Defined.

(** "hi" at 100 ms stored into the empty slot of [playing]. *)
Lemma text_store_moves_position_witness :
  let b := text (ms 100) (ms 500) "hi" in
  let o' := holding b in
  gst_base_text_overlay_text_chain playing b
  = TextReturn GST_FLOW_OK o' [Broadcast]
  /\ text_buffer o' = Some b
  /\ segment o' = segment playing
  /\ text_segment o' = set_seg_position (ms 100) (text_segment playing).
Proof.
  intros b o'.
  assert (H1 : gst_base_text_overlay_text_chain playing b
               = TextReturn GST_FLOW_OK o' [Broadcast]) by reflexivity.
  assert (H2 : text_buffer o' = Some b) by reflexivity.
  split; [exact H1|]. split; [exact H2|].
  destruct (text_store_moves_position playing o' b b GST_FLOW_OK H1 H2)
    as (Hs & _ & Hp & _).
  split; [exact Hs|]. apply Hp. reflexivity.
Defined.

(** After a flush of the text pad the slot held by "hi" takes "ho". *)
Lemma text_flush_stop_makes_room_witness :
  let o := holding (text 0 (ms 500) "hi") in
  let b := text (ms 500) (ms 500) "ho" in
  let o1 :=
    snd (fst (gst_base_text_overlay_text_event o GST_EVENT_FLUSH_STOP)) in
  in_segment o1 b = true
  /\ exists o2 b',
       gst_base_text_overlay_text_chain o1 b
       = TextReturn GST_FLOW_OK o2 [Broadcast]
       /\ text_buffer o2 = Some b'
       /\ data b' = data b
       /\ need_render (cache o2) = true.
Proof.
  intros o b o1.
  assert (H : in_segment o1 b = true) by reflexivity.
  split; [exact H|].
  exact (text_flush_stop_makes_room o b H).
Defined.

(** A text with a tab inside and a line break at the end. *)
Lemma buffer_text_reaches_rasteriser_clean_witness :
  let tb :=
    text 0 (ms 500)
      (String "a" (String (ascii_of_nat 9)
                     (String "b" (String (ascii_of_nat 10) EmptyString)))) in
  In "a b"%string (rasterized (snd (render_text_buffer playing tb)))
  /\ has_char CR "a b" = false
  /\ has_char TAB "a b" = false
  /\ has_char NUL "a b" = false
  /\ ends_in_line_break "a b" = false.
Proof.
  intros tb.
  assert (H : In "a b"%string
                (rasterized (snd (render_text_buffer playing tb))))
    by (left; reflexivity).
  split; [exact H|].
  exact (buffer_text_reaches_rasteriser_clean playing tb "a b" H).
Defined.


(** Shading the grey plane of the small element. *)
Lemma shade_background_keeps_bytes_witness :
  let frame' :=
    gst_base_text_overlay_shade_background small GST_VIDEO_FORMAT_I420 grey
      8 10 8 10 in
  plane_holds_frame small GST_VIDEO_FORMAT_I420 grey
  /\ bytes (plane0 grey)
  /\ bytes (plane0 frame')
  /\ List.length (plane0 frame') = List.length (plane0 grey)
  /\ set_plane0 (plane0 grey) frame' = grey
  /\ peek (plane0 frame') 32 = peek (plane0 grey) 32.
Proof.
  intros frame'.
  assert (Hf : plane_holds_frame small GST_VIDEO_FORMAT_I420 grey).
  { unfold plane_holds_frame.
    split; [left; reflexivity|].
    repeat split; vm_compute; discriminate. }
  assert (H : bytes (plane0 grey))
    by (unfold bytes; cbn; repeat (constructor; [lia|]); constructor).
  split; [exact Hf|]. split; [exact H|].
  destruct (shade_background_keeps_bytes small GST_VIDEO_FORMAT_I420 grey
              8 10 8 10 Hf H) as (H1 & H2 & H3 & H4 & _).
  split; [exact H1|]. split; [exact H2|]. split; [exact H3|].
  apply H4. vm_compute. intros (_ & Hlt). discriminate Hlt.
Defined.

(** The alpha byte of the second ARGB pixel. *)
Lemma shading_spares_alpha_witness :
  plane_holds_frame small GST_VIDEO_FORMAT_ARGB argb
  /\ 4 mod 4 = 0
  /\ peek (plane0 (gst_base_text_overlay_shade_background small
                     GST_VIDEO_FORMAT_ARGB argb 0 2 0 2)) 4
     = peek (plane0 argb) 4.
Proof.
  assert (Hf : plane_holds_frame small GST_VIDEO_FORMAT_ARGB argb).
  { unfold plane_holds_frame.
    split; [right; left; reflexivity|].
    repeat split; vm_compute; discriminate. }
  assert (H : 4 mod 4 = 0) by reflexivity.
  split; [exact Hf|]. split; [exact H|].
  exact (proj1 (shading_spares_alpha small GST_VIDEO_FORMAT_ARGB argb
                  0 2 0 2 4 Hf) (or_introl eq_refl) H).
Defined.

(** The pixel in row 3, column 5 of the grey plane, inside the box. *)
Lemma planar_shading_darkens_box_witness :
  let frame' :=
    gst_base_text_overlay_shade_background small GST_VIDEO_FORMAT_I420 grey
      8 10 8 10 in
  bytes (plane0 grey)
  /\ in_shaded_box small 8 10 8 10 3 5 = true
  /\ peek (plane0 frame') (3 * stride0 grey + 5)
     = if in_shaded_box small 8 10 8 10 3 5
       then Z.max 0 (peek (plane0 grey) (3 * stride0 grey + 5)
                     - shading_value (props small))
       else peek (plane0 grey) (3 * stride0 grey + 5).
Proof.
  intros frame'.
  assert (H : bytes (plane0 grey))
    by (unfold bytes; cbn; repeat (constructor; [lia|]); constructor).
  split; [exact H|]. split; [reflexivity|].
  apply (planar_shading_darkens_box small GST_VIDEO_FORMAT_I420 grey
           8 10 8 10 3 5);
    try exact H; try reflexivity;
    repeat split; vm_compute; first [reflexivity | discriminate].
Defined.

End MoreRuns.

Section AudioRuns.

Import ReferenceAudio.
#[local] Existing Instance types.
#[local] Existing Instance collaborators.

(** 16-bit integer stereo to 32-bit float stereo. *)
Lemma converter_new_never_asserts_witness :
  unpacks_to_intermediate (ai_finfo (audio S16 stereo))
  /\ unpacks_to_intermediate (ai_finfo (audio F32 stereo))
  /\ exists convert,
       gst_audio_converter_new (audio S16 stereo) (audio F32 stereo) None
       = NewConverter convert
       /\ conv_in convert = audio S16 stereo
       /\ conv_out convert = audio F32 stereo.
Proof.
  assert (H1 : unpacks_to_intermediate (ai_finfo (audio S16 stereo)))
    by (vm_compute; reflexivity).
  assert (H2 : unpacks_to_intermediate (ai_finfo (audio F32 stereo)))
    by (vm_compute; reflexivity).
  split; [exact H1|]. split; [exact H2|].
  exact (converter_new_never_asserts (audio S16 stereo) (audio F32 stereo)
           None H1 H2).
Defined.

(** Float stereo to 16-bit integer mono: quantize, convert, mix, unpack. *)
Lemma converter_chains_follow_table_witness :
  let convert := converter (audio F32 stereo) (audio S16 mono) None in
  gst_audio_converter_new (audio F32 stereo) (audio S16 mono) None
  = NewConverter convert
  /\ map make_func (pack_chain convert)
     = [Some DO_QUANTIZE; Some DO_CONVERT_OUT; Some DO_MIX; Some DO_UNPACK]
  /\ (1 <= List.length (pack_chain convert) <= 4)%nat.
Proof.
  intros convert.
  assert (H : gst_audio_converter_new (audio F32 stereo) (audio S16 mono)
                None = NewConverter convert) by (vm_compute; reflexivity).
  split; [exact H|].
  destruct (converter_chains_follow_table _ _ _ _ H) as (H1 & _ & _ & H2).
  split; [|exact H2].
  vm_compute in H1. vm_compute. exact H1.
Defined.

(** Float to 16 bits at 22050 Hz with TPDF dither and high noise shaping
    configured: the dither is kept, the noise shaping is cut back. *)
Lemma quantizer_follows_depth_and_rate_witness :
  let in_ := audio_at 22050 F32 stereo in
  let out := audio_at 22050 S16 stereo in
  let convert := converter in_ out (Some dithered) in
  let q := quantizer convert in
  gst_audio_converter_new in_ out (Some dithered) = NewConverter convert
  /\ quant convert = Some q
  /\ 0 < finfo_depth (ai_finfo out)
  /\ quant_quantizer q = 2 ^ (32 - finfo_depth (ai_finfo out))
  /\ quant_dither q = GET_OPT_DITHER_METHOD convert
  /\ quant_ns q <= GST_AUDIO_NOISE_SHAPING_ERROR_FEEDBACK.
Proof.
  intros in_ out convert q.
  assert (H1 : gst_audio_converter_new in_ out (Some dithered)
               = NewConverter convert) by (vm_compute; reflexivity).
  assert (H2 : quant convert = Some q) by (vm_compute; reflexivity).
  assert (H3 : 0 < finfo_depth (ai_finfo out)) by (vm_compute; reflexivity).
  split; [exact H1|]. split; [exact H2|]. split; [exact H3|].
  destruct (quantizer_follows_depth_and_rate in_ out (Some dithered)
              convert q H1 H2 H3) as (_ & _ & Hq & _ & Hd & Hn).
  split; [exact Hq|]. split.
  - apply Hd; [vm_compute; discriminate | left; reflexivity].
  - apply Hn; [vm_compute; discriminate | reflexivity].
Defined.

(** 16-bit stereo to 32-bit mono, set up once more: the mix chain writes
    into the destination, the unpack chain behind it into temp memory. *)
Lemma allocators_follow_pass_alloc_witness :
  let convert := converter (audio S16 stereo) (audio S32 mono) None in
  let ch := chain_at convert 1 in
  nth_error (pack_chain convert) 1 = Some ch
  /\ exists ch',
       nth_error (pack_chain (setup_allocators convert)) 1 = Some ch'
       /\ alloc_func ch' = Some (allocator_at convert 1)
       /\ allow_ip ch'
          = match allocator_at convert 1 with
            | GET_OUTPUT_SAMPLES => false
            | GET_TEMP_SAMPLES => allow_ip ch
            end
       /\ make_func ch' = make_func ch /\ pass_alloc ch' = pass_alloc ch
       /\ stride ch' = stride ch /\ inc ch' = inc ch
       /\ blocks ch' = blocks ch
       /\ tmpsize ch' = tmpsize ch /\ tmp ch' = tmp ch.
Proof.
  intros convert ch.
  assert (H : nth_error (pack_chain convert) 1 = Some ch) by (vm_compute; reflexivity).
  split; [exact H|].
  exact (allocators_follow_pass_alloc convert 1 ch H).
Defined.

(** 16-bit stereo to 32-bit mono has nothing to pack. *)
Lemma last_chain_writes_destination_witness :
  let convert := converter (audio S16 stereo) (audio S32 mono) None in
  gst_audio_converter_new (audio S16 stereo) (audio S32 mono) None
  = NewConverter convert
  /\ out_default convert = true
  /\ exists ch rest,
       pack_chain convert = ch :: rest
       /\ alloc_func ch = Some GET_OUTPUT_SAMPLES
       /\ allow_ip ch = false.
Proof.
  intros convert.
  assert (H : gst_audio_converter_new (audio S16 stereo) (audio S32 mono)
                None = NewConverter convert) by (vm_compute; reflexivity).
  assert (Ho : out_default convert = true) by (vm_compute; reflexivity).
  split; [exact H|]. split; [exact Ho|].
  destruct (last_chain_writes_destination _ _ _ _ H) as (_ & Hd & _).
  exact (Hd Ho).
Defined.

(** A hundred samples for a fresh chain of two planes. *)
Lemma temp_samples_blocks_usable_witness :
  temp_ready planar
  /\ 0 < sizeof_gpointer
  /\ (100 * stride planar + sizeof_gpointer) * blocks planar < 2 ^ 64
  /\ let '(pointers, chain') := get_temp_samples planar 100 in
     blocks_usable chain' 100 pointers
     /\ temp_ready chain'
     /\ tmpsize planar <= tmpsize chain'
     /\ stride chain' = stride planar /\ blocks chain' = blocks planar
     /\ make_func chain' = make_func planar
     /\ alloc_func chain' = alloc_func planar.
Proof.
  assert (H1 : temp_ready planar) by (left; split; reflexivity).
  assert (H2 : 0 < sizeof_gpointer) by (vm_compute; reflexivity).
  assert (H3 : (100 * stride planar + sizeof_gpointer) * blocks planar
               < 2 ^ 64) by (vm_compute; reflexivity).
  split; [exact H1|]. split; [exact H2|]. split; [exact H3|].
  apply (temp_samples_blocks_usable planar 100 H1);
    [reflexivity | vm_compute; discriminate | exact H2
     | vm_compute; discriminate | exact H3].
Defined.

End AudioRuns.
